(** * sns-buster: the differential authorization prober, embedded in Rocq

    A shallow embedding of the request-mutation engine of sns-buster
    (TypeScript): the usefulness classifier ([src/mutations/compare.ts]),
    the mutation catalog and change detector ([src/mutations/strategies.ts]),
    ARN parsing ([src/utils/arn.ts]), the action catalog ([src/actions]) and
    the request-mutations runner ([src/mutations/runner.ts]); and of what
    surrounds it: the run summary ([src/output/summary.ts]), the compare
    mode, credential verification ([src/credentials/verify.ts]), the
    denial classifier and the topic test of the session-errors mode
    ([src/safemode]), the probe mode ([src/runner.ts]) and the command
    line ([src/cli.ts], [src/index.ts]).

    Conventions of the embedding.
    - A JS [string] is a Rocq [string]; an optional string
      ([string | undefined]) is an [option string].
    - An HTTP status is a [Z].
    - A [Record<string, string>] is an association list in the order
      [Object.keys] enumerates it, because the catalog picks keys with
      [Object.keys(params).find(...)].  A JS object has each key once (and
      lists integer-like keys first; no key of the catalog or of an action
      is one); the functions below are total on all lists and the theorems
      do not need the absence of duplicates.
    - Thrown exceptions and rejected promises are the left summand of a
      result; the network is an oracle that answers each request or rejects
      it, and every request sent is recorded in a trace. *)

From Stdlib Require Import String Ascii List ZArith Bool Lia DecimalString.
Import ListNotations.
Open Scope string_scope.

(** ** JavaScript values used by the code *)

Module Js.

(** Truthiness of a [string | undefined]: [undefined] and [''] are falsy. *)
Definition truthy (o : option string) : bool :=
  match o with
  | None => false
  | Some s => negb (s =? "")
  end.

(** [a || b]. *)
Definition or_else (a b : option string) : option string :=
  if truthy a then a else b.

(** [a === b] on [string | undefined]. *)
Definition strict_eq (a b : option string) : bool :=
  match a, b with
  | None, None => true
  | Some x, Some y => x =? y
  | _, _ => false
  end.

(** A value inside a template literal: [`${x}`]. *)
Definition show (o : option string) : string :=
  match o with
  | Some s => s
  | None => "undefined"
  end.

(** The double-quote character, as a string. *)
Definition dquote : string := String (ascii_of_nat 34) "".

(** A value between double quotes inside a template literal. *)
Definition quoted (o : option string) : string :=
  dquote ++ show o ++ dquote.

(** [`${n}`] for an integer [n]. *)
Definition show_num (n : Z) : string :=
  NilZero.string_of_int (Z.to_int n).

(** [s.startsWith(p)]. *)
Definition startsWith (s p : string) : bool := String.prefix p s.

(** [s.includes(needle)]. *)
Fixpoint includes (s needle : string) : bool :=
  String.prefix needle s
  || match s with
     | EmptyString => false
     | String _ rest => includes rest needle
     end.

(** [parts.join(sep)]. *)
Fixpoint join (sep : string) (parts : list string) : string :=
  match parts with
  | [] => ""
  | [p] => p
  | p :: rest => p ++ sep ++ join sep rest
  end.

(** [s.split(':')]: never empty, [''] splits into [['']]. *)
Fixpoint split_colon (s : string) : list string :=
  match s with
  | EmptyString => [""]
  | String c rest =>
      if Ascii.eqb c ":" then "" :: split_colon rest
      else match split_colon rest with
           | [] => [String c ""]
           | p :: ps => String c p :: ps
           end
  end.

(** ['x'.repeat(n)] for a one-character string. *)
Fixpoint repeat_char (c : ascii) (n : nat) : string :=
  match n with
  | O => ""
  | S k => String c (repeat_char c k)
  end.

End Js.

(** ** The regular expressions of the catalog

    Every regular expression in [strategies.ts] has the shape
    [/pre\d+suf/] or [/pre\d+suf$/] with literal [pre] and [suf], where
    [suf] is empty or starts with a dot.  A greedy [\d+] therefore takes
    the whole run of digits: no shorter run can be followed by [suf]. *)

Module Re.

Record Pattern := mkPattern {
  pre : string;
  suf : string;
  anchored : bool;
}.

Definition is_digit (c : ascii) : bool :=
  (48 <=? nat_of_ascii c)%nat && (nat_of_ascii c <=? 57)%nat.

Fixpoint skip_digits (s : string) : string :=
  match s with
  | String c rest => if is_digit c then skip_digits rest else s
  | EmptyString => s
  end.

(** The rest of [s] after the literal [p], when [s] starts with [p]. *)
Fixpoint strip_prefix (p s : string) : option string :=
  match p, s with
  | EmptyString, _ => Some s
  | String a p', String b s' =>
      if Ascii.eqb a b then strip_prefix p' s' else None
  | String _ _, EmptyString => None
  end.

(** A match that starts at the first character of [s]: what follows it. *)
Definition match_here (r : Pattern) (s : string) : option string :=
  match strip_prefix (pre r) s with
  | Some (String c _ as digits) =>
      if is_digit c then
        match strip_prefix (suf r) (skip_digits digits) with
        | Some rest =>
            if anchored r && negb (rest =? "") then None else Some rest
        | None => None
        end
      else None
  | _ => None
  end.

(** [k.match(r)] is truthy: the pattern occurs somewhere in [s]. *)
Fixpoint test (r : Pattern) (s : string) : bool :=
  match match_here r s with
  | Some _ => true
  | None =>
      match s with
      | String _ rest => test r rest
      | EmptyString => false
      end
  end.

(** [s.replace(r, by)]: the leftmost match is replaced. *)
Fixpoint replace (r : Pattern) (by_ : string) (s : string) : string :=
  match match_here r s with
  | Some rest => by_ ++ rest
  | None =>
      match s with
      | String c rest => String c (replace r by_ rest)
      | EmptyString => EmptyString
      end
  end.

End Re.

(** ** [src/output/summary.ts]: error details of a response *)

Module Summary.

Record ErrorDetails := mkErrorDetails {
  type_ : option string;
  code : option string;
  message : option string;
}.

(** The longest prefix of [s] without ['<'], and what follows it. *)
Fixpoint span_text (s : string) : string * string :=
  match s with
  | String c rest =>
      if Ascii.eqb c "<" then (EmptyString, s)
      else let (run, tail) := span_text rest in (String c run, tail)
  | EmptyString => (EmptyString, EmptyString)
  end.

(** [/<tag>([^<]+)<\/tag>/] matched at the first character of [s]: the
    captured group.  The group is greedy and the closing tag starts with
    ['<'], so the group is the whole run of text. *)
Definition capture_here (tag s : string) : option string :=
  match Re.strip_prefix ("<" ++ tag ++ ">") s with
  | Some inner =>
      let (run, tail) := span_text inner in
      if run =? "" then None
      else if String.prefix ("</" ++ tag ++ ">") tail then Some run
      else None
  | None => None
  end.

(** [body.match(/<tag>([^<]+)<\/tag>/)?.[1]]: the leftmost match. *)
Fixpoint capture (tag s : string) : option string :=
  match capture_here tag s with
  | Some group => Some group
  | None =>
      match s with
      | String _ rest => capture tag rest
      | EmptyString => None
      end
  end.

(** [parseErrorDetails]. *)
Definition parseErrorDetails (responseBody : string) : ErrorDetails :=
  {| type_ := capture "Type" responseBody;
     code := capture "Code" responseBody;
     message := capture "Message" responseBody |}.

(** [isSuccessStatus]. *)
Definition isSuccessStatus (status : Z) : bool :=
  (200 <=? status)%Z && (status <? 300)%Z.

End Summary.

(** ** [src/mutations/compare.ts]: the usefulness classifier *)

Module Compare.
Import Summary.

Record TopicResult := mkTopicResult {
  status : Z;
  error : option string;
  errorDetails : option ErrorDetails;
}.

Record MutationTopics := mkTopics {
  allowed : TopicResult;
  denied : TopicResult;
  nonexistent : TopicResult;
}.

Record UsefulMutationResult := mkUseful {
  useful : bool;
  reason : string;
}.

(** [SAFE_PROBE_MUTATIONS], a set of ["actionName:mutationName"] keys. *)
Definition SAFE_PROBE_MUTATIONS : list string :=
  [ "UntagResource:nonexistent-tag-key";
    "RemovePermission:invalid-label" ].

Definition has (set : list string) (key : string) : bool :=
  existsb (String.eqb key) set.

(** [`${actionName}:${mutationName}`]. *)
Definition probeKey (actionName mutationName : option string) : string :=
  Js.show actionName ++ ":" ++ Js.show mutationName.

(** [t.errorDetails?.code || t.error]. *)
Definition errorCode (t : TopicResult) : option string :=
  Js.or_else
    (match errorDetails t with
     | Some d => code d
     | None => None
     end)
    (error t).

Definition isUsefulMutation
    (mutation : MutationTopics)
    (mutationName actionName : option string) : UsefulMutationResult :=
  let allowed := allowed mutation in
  let denied := denied mutation in
  let nonexistent := nonexistent mutation in
  let allowedCode := errorCode allowed in
  let deniedCode := errorCode denied in
  let nonexistentCode := errorCode nonexistent in
  (* Category B: safe no-op probe *)
  if Js.truthy mutationName
     && Js.truthy actionName
     && has SAFE_PROBE_MUTATIONS (probeKey actionName mutationName)
     && (status allowed =? 200)%Z
     && (status denied =? 403)%Z
  then
    {| useful := true;
       reason := "No-op probe: 200 success with no side effects" |}
  (* Rule 1 *)
  else if (status allowed =? 403)%Z then
    {| useful := false;
       reason := "Allowed topic returned 403 (auth failed)" |}
  (* Rule 2 *)
  else if negb (status denied =? 403)%Z then
    if Js.strict_eq deniedCode allowedCode then
      {| useful := false;
         reason := "Pre-auth validation: all topics return " ++ Js.quoted allowedCode
                   ++ " (auth not checked)" |}
    else
      {| useful := false;
         reason := "Denied topic returned " ++ Js.show_num (status denied)
                   ++ " " ++ Js.show deniedCode ++ ", expected 403" |}
  (* Rule 3 *)
  else if Js.strict_eq nonexistentCode allowedCode
          && (status nonexistent =? status allowed)%Z then
    {| useful := false;
       reason := "Pre-auth validation: nonexistent also returns "
                 ++ Js.quoted allowedCode |}
  (* Rule 4 *)
  else if ((status nonexistent =? 403)%Z || (status nonexistent =? 404)%Z)
          && (400 <=? status allowed)%Z && (status allowed <? 500)%Z
          && negb (status allowed =? 403)%Z then
    {| useful := true;
       reason := "Safe probe: auth passed then " ++ Js.quoted allowedCode
                 ++ " (denied=403, nonexistent="
                 ++ Js.show_num (status nonexistent) ++ ")" |}
  (* allowed succeeded but this is not a known safe probe *)
  else if (status allowed =? 200)%Z then
    {| useful := false;
       reason := "Allowed returned 200 but mutation not in safe probe list" |}
  else
    {| useful := false;
       reason := "Inconclusive: allowed=" ++ Js.show_num (status allowed)
                 ++ " denied=" ++ Js.show_num (status denied)
                 ++ " nonexistent=" ++ Js.show_num (status nonexistent) |}.

(** The helper of the unit tests: [topicResult(status, code)]. *)
Definition topicResult (st : Z) (c : option string) : TopicResult :=
  {| status := st;
     error := c;
     errorDetails :=
       if Js.truthy c
       then Some {| type_ := None; code := c; message := None |}
       else None |}.

End Compare.

(** ** Parameter maps: [Record<string, string>] in key order *)

Module Params.

Definition t := list (string * string).

(** [Object.keys(params)]. *)
Definition keys (p : t) : list string := map fst p.

(** [params[k]], [None] for [undefined]. *)
Fixpoint get (k : string) (p : t) : option string :=
  match p with
  | [] => None
  | (k', v) :: rest => if k' =? k then Some v else get k rest
  end.

(** [result[k] = v], also [{ ...params, [k]: v }]: an existing key keeps
    its place, a new key goes last. *)
Fixpoint set (k v : string) (p : t) : t :=
  match p with
  | [] => [(k, v)]
  | (k', v') :: rest =>
      if k' =? k then (k, v) :: rest else (k', v') :: set k v rest
  end.

(** [delete result[k]]. *)
Definition del (k : string) (p : t) : t :=
  filter (fun kv => negb (fst kv =? k)) p.

(** [ks.forEach(k => delete result[k])]. *)
Definition del_all (ks : list string) (p : t) : t :=
  fold_left (fun result k => del k result) ks p.

End Params.

(** ** [src/mutations/strategies.ts]: the mutation catalog *)

Module Strategies.
Import Params.

Record Mutation := mkMutation {
  name : string;
  description : string;
  apply : Params.t -> string -> Params.t;
}.

(** The patterns the catalog matches keys with. *)
Definition reBatchMessage : Re.Pattern :=
  Re.mkPattern "PublishBatchRequestEntries.member." ".Message" false.
Definition reBatchId : Re.Pattern :=
  Re.mkPattern "PublishBatchRequestEntries.member." ".Id" true.
Definition reTagKey : Re.Pattern :=
  Re.mkPattern "Tags.member." ".Key" false.
Definition reTagValue : Re.Pattern :=
  Re.mkPattern "Tags.member." ".Value" false.
Definition reTagMember : Re.Pattern :=
  Re.mkPattern "Tags.member." "." false.
Definition reTagKeysMember : Re.Pattern :=
  Re.mkPattern "TagKeys.member." "" false.

Definition isActionNameMember (k : string) : bool :=
  Js.startsWith k "ActionName.member.".
Definition isTagsMember (k : string) : bool :=
  Js.startsWith k "Tags.member.".
Definition isTagKeysMember (k : string) : bool :=
  Js.startsWith k "TagKeys.member.".

(** [if (params[k] === undefined) return params; return f(params)]. *)
Definition ifDefined (k : string) (f : Params.t -> Params.t)
    (params : Params.t) : Params.t :=
  match get k params with
  | None => params
  | Some _ => f params
  end.

(** [const key = Object.keys(params).find(p); if (!key) return params;
    return f(key)].  A key that satisfies one of the predicates of the
    catalog is never the empty string, so [!key] is [key === undefined]. *)
Definition withFirstKey (p : string -> bool)
    (f : string -> Params.t) (params : Params.t) : Params.t :=
  match find p (keys params) with
  | None => params
  | Some key => f key
  end.

(** [const ks = Object.keys(params).filter(p);
    if (ks.length === 0) return params; return f(ks)]. *)
Definition withAllKeys (p : string -> bool)
    (f : list string -> Params.t) (params : Params.t) : Params.t :=
  match filter p (keys params) with
  | [] => params
  | ks => f ks
  end.

(** The loop body of the two zero-index mutations:
    [result[newKey] = result[k]; delete result[k]].  Each [k] is a key of
    the input and is deleted only in its own round, so [result[k]] is
    defined when its round comes; were it not, JS would store
    [undefined], which a [Params.t] cannot hold, and the model only
    deletes. *)
Definition renameKey (r : Re.Pattern) (by_ : string)
    (result : Params.t) (k : string) : Params.t :=
  let newKey := Re.replace r by_ k in
  match get k result with
  | Some v => del k (set newKey v result)
  | None => del k result
  end.

Definition LONG_STRING_200 : string := Js.repeat_char "x" 200.
Definition LONG_STRING_500 : string := Js.repeat_char "x" 500.
Definition LONG_STRING_1000 : string := Js.repeat_char "x" 1000.

Definition GUID_KEY : string :=
  "nonexistent-key-a1b2c3d4-e5f6-7890-abcd-ef1234567890".

Definition removeAction : Mutation :=
  {| name := "remove-action";
     description := "Remove Action parameter";
     apply := fun params _ => del "Action" params |}.

Definition removeVersion : Mutation :=
  {| name := "remove-version";
     description := "Remove Version parameter";
     apply := fun params _ => del "Version" params |}.

(** [if (!params.Endpoint) return params]: an empty Endpoint is falsy too. *)
Definition endpointToArn : Mutation :=
  {| name := "endpoint-to-arn";
     description := "Change Endpoint parameter to ARN format";
     apply := fun params topicArn =>
       if negb (Js.truthy (get "Endpoint" params)) then params
       else set "Endpoint" topicArn params |}.

Definition removeMessage : Mutation :=
  {| name := "remove-message";
     description := "Remove Message parameter";
     apply := fun params _ => ifDefined "Message" (del "Message") params |}.

Definition emptyMessage : Mutation :=
  {| name := "empty-message";
     description := "Set Message to empty string";
     apply := fun params _ =>
       ifDefined "Message" (set "Message" "") params |}.

Definition removeBatchMessage : Mutation :=
  {| name := "remove-batch-message";
     description := "Remove Message from batch entry";
     apply := fun params _ =>
       withFirstKey (Re.test reBatchMessage)
         (fun msgKey => del msgKey params) params |}.

Definition emptyBatchMessage : Mutation :=
  {| name := "empty-batch-message";
     description := "Set batch entry Message to empty string";
     apply := fun params _ =>
       withFirstKey (Re.test reBatchMessage)
         (fun msgKey => set msgKey "" params) params |}.

Definition removeBatchId : Mutation :=
  {| name := "remove-batch-id";
     description := "Remove Id from batch entry";
     apply := fun params _ =>
       withFirstKey (Re.test reBatchId)
         (fun idKey => del idKey params) params |}.

Definition emptyBatchId : Mutation :=
  {| name := "empty-batch-id";
     description := "Set batch entry Id to empty string";
     apply := fun params _ =>
       withFirstKey (Re.test reBatchId)
         (fun idKey => set idKey "" params) params |}.

Definition invalidActionName : Mutation :=
  {| name := "invalid-action-name";
     description := "Use invalid action name in ActionName parameter";
     apply := fun params _ =>
       withFirstKey isActionNameMember
         (fun actionKey => set actionKey "NotARealAction" params) params |}.

Definition removeActionName : Mutation :=
  {| name := "remove-action-name";
     description := "Remove ActionName parameter";
     apply := fun params _ =>
       withAllKeys isActionNameMember
         (fun actionKeys => del_all actionKeys params) params |}.

Definition invalidLabel : Mutation :=
  {| name := "invalid-label";
     description := "Use non-existent permission label";
     apply := fun params _ =>
       ifDefined "Label"
         (set "Label" "non-existent-permission-label-12345") params |}.

Definition emptyLabel : Mutation :=
  {| name := "empty-label";
     description := "Set Label to empty string";
     apply := fun params _ => ifDefined "Label" (set "Label" "") params |}.

Definition removeLabel : Mutation :=
  {| name := "remove-label";
     description := "Remove Label parameter";
     apply := fun params _ => ifDefined "Label" (del "Label") params |}.

Definition specialCharLabel : Mutation :=
  {| name := "special-char-label";
     description := "Set Label with special characters";
     apply := fun params _ =>
       ifDefined "Label" (set "Label" "../../../etc/passwd") params |}.

Definition invalidAttributeName : Mutation :=
  {| name := "invalid-attribute-name";
     description := "Use invalid AttributeName";
     apply := fun params _ =>
       ifDefined "AttributeName"
         (set "AttributeName" "NotARealAttribute") params |}.

Definition removeAttributeName : Mutation :=
  {| name := "remove-attribute-name";
     description := "Remove AttributeName parameter";
     apply := fun params _ =>
       ifDefined "AttributeName" (del "AttributeName") params |}.

Definition emptyTagKey : Mutation :=
  {| name := "empty-tag-key";
     description := "Set tag key to empty string";
     apply := fun params _ =>
       withFirstKey (Re.test reTagKey)
         (fun tagKeyParam => set tagKeyParam "" params) params |}.

Definition removeTagKey : Mutation :=
  {| name := "remove-tag-key";
     description := "Remove tag key parameter";
     apply := fun params _ =>
       withAllKeys (Re.test reTagKey)
         (fun tagKeyParams => del_all tagKeyParams params) params |}.

Definition nonExistentTag : Mutation :=
  {| name := "nonexistent-tag";
     description := "Set Tags.member.*.Key to a non-existent GUID-like key";
     apply := fun params _ =>
       withFirstKey (Re.test reTagKey)
         (fun tagKeyParam => set tagKeyParam GUID_KEY params) params |}.

Definition removeTags : Mutation :=
  {| name := "remove-tags";
     description := "Remove all Tags.member.* params";
     apply := fun params _ =>
       withAllKeys isTagsMember
         (fun tagParams => del_all tagParams params) params |}.

Definition zeroIndexTag : Mutation :=
  {| name := "zero-index-tag";
     description := "Use Tags.member.0 instead of member.1";
     apply := fun params _ =>
       withAllKeys (Re.test reTagMember)
         (fun tagParams =>
            fold_left (renameKey reTagMember "Tags.member.0.")
              tagParams params)
         params |}.

Definition removeTagValue : Mutation :=
  {| name := "remove-tag-value";
     description := "Remove Tags.member.*.Value param (keep Key)";
     apply := fun params _ =>
       withAllKeys (Re.test reTagValue)
         (fun tagValueParams => del_all tagValueParams params) params |}.

Definition removeTagKeys : Mutation :=
  {| name := "remove-tag-keys";
     description := "Remove TagKeys parameter";
     apply := fun params _ =>
       withAllKeys isTagKeysMember
         (fun tagKeysParams => del_all tagKeysParams params) params |}.

Definition emptyTagKeys : Mutation :=
  {| name := "empty-tag-keys";
     description := "Set TagKeys.member.1 to empty string";
     apply := fun params _ =>
       withFirstKey isTagKeysMember
         (fun tagKeysParam => set tagKeysParam "" params) params |}.

Definition nonExistentTagKey : Mutation :=
  {| name := "nonexistent-tag-key";
     description := "Set TagKeys to a non-existent GUID-like key";
     apply := fun params _ =>
       withFirstKey isTagKeysMember
         (fun tagKeysParam => set tagKeysParam GUID_KEY params) params |}.

Definition longTagKeys : Mutation :=
  {| name := "long-tag-keys";
     description := "Set TagKeys.member.* to exceed max length (128)";
     apply := fun params _ =>
       withFirstKey isTagKeysMember
         (fun tagKeysParam =>
            set tagKeysParam (Js.repeat_char "x" 200) params)
         params |}.

Definition zeroIndexTagKey : Mutation :=
  {| name := "zero-index-tag-key";
     description := "Use TagKeys.member.0 instead of member.1";
     apply := fun params _ =>
       withAllKeys (Re.test reTagKeysMember)
         (fun tagKeysParams =>
            fold_left (renameKey reTagKeysMember "TagKeys.member.0")
              tagKeysParams params)
         params |}.

Definition invalidProtocol : Mutation :=
  {| name := "invalid-protocol";
     description := "Use invalid Protocol value";
     apply := fun params _ =>
       ifDefined "Protocol" (set "Protocol" "not-a-protocol") params |}.

Definition removeProtocol : Mutation :=
  {| name := "remove-protocol";
     description := "Remove Protocol parameter";
     apply := fun params _ =>
       ifDefined "Protocol" (del "Protocol") params |}.

Definition invalidJsonPolicy : Mutation :=
  {| name := "invalid-json-policy";
     description := "Set DataProtectionPolicy to invalid JSON";
     apply := fun params _ =>
       ifDefined "DataProtectionPolicy"
         (set "DataProtectionPolicy" "{not valid json") params |}.

Definition emptyJsonPolicy : Mutation :=
  {| name := "empty-json-policy";
     description := "Set DataProtectionPolicy to empty JSON object";
     apply := fun params _ =>
       ifDefined "DataProtectionPolicy"
         (set "DataProtectionPolicy" "{}") params |}.

(** [JSON.stringify({ invalid: 'structure', foo: 'bar' })]. *)
Definition INVALID_STRUCTURE_JSON : string :=
  let q s := Js.dquote ++ s ++ Js.dquote in
  "{" ++ q "invalid" ++ ":" ++ q "structure" ++ ","
      ++ q "foo" ++ ":" ++ q "bar" ++ "}".

Definition invalidPolicyStructure : Mutation :=
  {| name := "invalid-policy-structure";
     description :=
       "Set DataProtectionPolicy to valid JSON with invalid structure";
     apply := fun params _ =>
       ifDefined "DataProtectionPolicy"
         (set "DataProtectionPolicy" INVALID_STRUCTURE_JSON) params |}.

Definition removeDataProtectionPolicy : Mutation :=
  {| name := "remove-data-protection-policy";
     description := "Remove DataProtectionPolicy parameter";
     apply := fun params _ =>
       ifDefined "DataProtectionPolicy"
         (del "DataProtectionPolicy") params |}.

Definition longTagKey : Mutation :=
  {| name := "long-tag-key";
     description := "Set tag key to exceed max length (128)";
     apply := fun params _ =>
       withFirstKey (Re.test reTagKey)
         (fun tagKeyParam => set tagKeyParam LONG_STRING_200 params)
         params |}.

Definition longTagValue : Mutation :=
  {| name := "long-tag-value";
     description := "Set tag value to exceed max length (256)";
     apply := fun params _ =>
       withFirstKey (Re.test reTagValue)
         (fun tagValueParam => set tagValueParam LONG_STRING_500 params)
         params |}.

Definition longLabel : Mutation :=
  {| name := "long-label";
     description := "Set Label to exceed reasonable length";
     apply := fun params _ =>
       ifDefined "Label" (set "Label" LONG_STRING_200) params |}.

Definition longAttributeValue : Mutation :=
  {| name := "long-attribute-value";
     description := "Set AttributeValue to very long string";
     apply := fun params _ =>
       ifDefined "AttributeValue"
         (set "AttributeValue" LONG_STRING_1000) params |}.

(** [if (params.AttributeName !== 'SignatureVersion') return params]. *)
Definition invalidSignatureVersion : Mutation :=
  {| name := "invalid-signature-version";
     description := "Set SignatureVersion to invalid value (99)";
     apply := fun params _ =>
       if negb (Js.strict_eq (get "AttributeName" params)
                  (Some "SignatureVersion"))
       then params
       else set "AttributeValue" "99" params |}.

Definition longEndpoint : Mutation :=
  {| name := "long-endpoint";
     description := "Set Endpoint to very long URL";
     apply := fun params _ =>
       ifDefined "Endpoint"
         (set "Endpoint"
            ("https://example.com/" ++ Js.repeat_char "x" 2000))
         params |}.

(** [if (params.Action !== 'Publish') return params]. *)
Definition longSubject : Mutation :=
  {| name := "long-subject";
     description := "Add Subject parameter exceeding max length (100)";
     apply := fun params _ =>
       if negb (Js.strict_eq (get "Action" params) (Some "Publish"))
       then params
       else set "Subject" LONG_STRING_200 params |}.

Definition defaultMutations : list Mutation :=
  [ removeAction; removeVersion ].

Definition parameterMutations : list Mutation :=
  [ removeMessage; emptyMessage;
    removeBatchMessage; emptyBatchMessage; removeBatchId; emptyBatchId;
    endpointToArn; longEndpoint;
    invalidProtocol; removeProtocol;
    invalidActionName; removeActionName;
    invalidLabel; emptyLabel; removeLabel; specialCharLabel; longLabel;
    invalidAttributeName; removeAttributeName; longAttributeValue;
    invalidSignatureVersion;
    nonExistentTag; removeTags; emptyTagKey; longTagKey; zeroIndexTag;
    removeTagKey; removeTagValue; longTagValue;
    nonExistentTagKey; removeTagKeys; emptyTagKeys; longTagKeys;
    zeroIndexTagKey;
    longSubject;
    invalidJsonPolicy; emptyJsonPolicy; invalidPolicyStructure;
    removeDataProtectionPolicy ].

Definition getMutationsForAction (_actionName : string) : list Mutation :=
  (defaultMutations ++ parameterMutations)%list.

(** [keys.sort()]: the default order compares code units; on the byte
    strings of the model it is [String.leb]. *)
Fixpoint insert_sorted (k : string) (l : list string) : list string :=
  match l with
  | [] => [k]
  | h :: rest =>
      if String.leb k h then k :: l else h :: insert_sorted k rest
  end.

Definition sort (l : list string) : list string :=
  fold_right insert_sorted [] l.

Definition didMutationChangeParams (original mutated : Params.t) : bool :=
  let origKeys := sort (keys original) in
  let mutKeys := sort (keys mutated) in
  if negb (length origKeys =? length mutKeys)%nat then true
  else if negb (Js.join "," origKeys =? Js.join "," mutKeys) then true
  else existsb
         (fun key =>
            negb (Js.strict_eq (get key original) (get key mutated)))
         origKeys.

End Strategies.

(** ** Exceptions and rejected promises *)

Module Exn.

(** What the code throws: an [ArnParseError], a plain [Error], or the
    rejection of [fetch] (a network failure). *)
Inductive t :=
| ArnParseError (message : string)
| Error (message : string)
| FetchRejected.

(** A computation that returns or throws. *)
Definition result (A : Type) : Type := (t + A)%type.

Definition ret {A} (a : A) : result A := inr a.
Definition throw {A} (e : t) : result A := inl e.

Definition bind {A B} (m : result A) (k : A -> result B) : result B :=
  match m with
  | inl e => inl e
  | inr a => k a
  end.

End Exn.

(** ** [src/utils/arn.ts] *)

Module Arn.
Import Exn.

Record ParsedArn := mkParsedArn {
  partition : string;
  service : string;
  region : string;
  accountId : string;
  resource : string;
}.

(** [parseArn].  The destructuring
    [[prefix, partition, service, region, accountId, ...resourceParts]]
    follows the length test, so the six-element pattern is the test
    [parts.length >= 6]. *)
Definition parseArn (arn : string) : result ParsedArn :=
  if arn =? "" then throw (ArnParseError "ARN cannot be empty")
  else
    match Js.split_colon arn with
    | prefix :: partition :: service :: region :: accountId
        :: r :: rs =>
        let resourceParts := r :: rs in
        if negb (prefix =? "arn") then
          throw (ArnParseError
                   ("Invalid ARN: must start with 'arn:', got '"
                    ++ prefix ++ ":'"))
        else if partition =? "" then
          throw (ArnParseError "Invalid ARN: partition cannot be empty")
        else if service =? "" then
          throw (ArnParseError "Invalid ARN: service cannot be empty")
        else
          ret {| partition := partition;
                 service := service;
                 region := region;
                 accountId := accountId;
                 resource := Js.join ":" resourceParts |}
    | parts =>
        throw (ArnParseError
                 ("Invalid ARN format: expected at least 6 colon-separated parts, got "
                  ++ Js.show_num (Z.of_nat (length parts))))
    end.

(** [parseSnsTopicArn]; the [topicName] it adds is [resource]. *)
Definition parseSnsTopicArn (arn : string) : result ParsedArn :=
  bind (parseArn arn) (fun parsed =>
  if negb (service parsed =? "sns") then
    throw (ArnParseError
             ("Invalid SNS ARN: service must be 'sns', got '"
              ++ service parsed ++ "'"))
  else if region parsed =? "" then
    throw (ArnParseError "Invalid SNS topic ARN: region cannot be empty")
  else if accountId parsed =? "" then
    throw (ArnParseError
             "Invalid SNS topic ARN: account ID cannot be empty")
  else if resource parsed =? "" then
    throw (ArnParseError
             "Invalid SNS topic ARN: topic name cannot be empty")
  else ret parsed).

Definition getRegionFromArn (arn : string) : result string :=
  bind (parseSnsTopicArn arn) (fun parsed => ret (region parsed)).

Definition getEndpointForRegion (region : string) : string :=
  "https://sns." ++ region ++ ".amazonaws.com".

(** [generateNonexistentTopicArn] of [mutations/runner.ts];
    [guid] is the value [randomUUID()] returns. *)
Definition generateNonexistentTopicArn (guid : string)
    (allowedTopicArn : string) : result string :=
  bind (parseArn allowedTopicArn) (fun parsed =>
  ret ("arn:" ++ partition parsed ++ ":sns:" ++ region parsed ++ ":"
       ++ accountId parsed ++ ":nonexistent-" ++ guid)).

End Arn.

(** ** [src/actions]: the action catalog *)

Module Actions.
Import Exn.

Inductive ActionCategory := CatRead | CatWrite.

Inductive ParameterName := TopicArn | ResourceArn | SubscriptionArn.

Definition parameterKey (p : ParameterName) : string :=
  match p with
  | TopicArn => "TopicArn"
  | ResourceArn => "ResourceArn"
  | SubscriptionArn => "SubscriptionArn"
  end.

Record Action := mkAction {
  name : string;
  category : ActionCategory;
  safe : bool;
  parameterName : ParameterName;
  buildParams : string -> result Params.t;
}.

(** The mode of a run: ['read' | 'safe' | 'all']. *)
Inductive Mode := ModeRead | ModeSafe | ModeAll.

Definition isRead (c : ActionCategory) : bool :=
  match c with CatRead => true | CatWrite => false end.

(** The policy document [PutDataProtectionPolicy] serialises with
    [JSON.stringify]. *)
Definition POLICY_JSON : string :=
  let q s := Js.dquote ++ s ++ Js.dquote in
  "{" ++ q "Name" ++ ":" ++ q "sns-buster-test-policy" ++ ","
  ++ q "Description" ++ ":" ++ q "Test policy from sns-buster" ++ ","
  ++ q "Version" ++ ":" ++ q "2021-06-01" ++ ","
  ++ q "Statement" ++ ":[{"
  ++ q "Sid" ++ ":" ++ q "sns-buster-audit" ++ ","
  ++ q "DataDirection" ++ ":" ++ q "Inbound" ++ ","
  ++ q "Principal" ++ ":[" ++ q "*" ++ "],"
  ++ q "DataIdentifier" ++ ":["
  ++ q "arn:aws:dataprotection::aws:data-identifier/CreditCardNumber"
  ++ "],"
  ++ q "Operation" ++ ":{" ++ q "Audit" ++ ":{"
  ++ q "SampleRate" ++ ":" ++ q "99" ++ ","
  ++ q "FindingsDestination" ++ ":{}}}}]}".

Section Catalog.

(** [SNS_API_VERSION] of [utils/constants], a module that is not among
    the sources: the catalog is parametric in it. *)
Variable SNS_API_VERSION : string.

(** [Action.buildParams] of the base class. *)
Definition baseBuildParams (name : string) (parameterName : ParameterName)
    (topicArn : string) : result Params.t :=
  ret [ ("Action", name);
        (parameterKey parameterName, topicArn);
        ("Version", SNS_API_VERSION) ].

Definition GetTopicAttributes : Action :=
  {| name := "GetTopicAttributes"; category := CatRead; safe := true;
     parameterName := TopicArn;
     buildParams := baseBuildParams "GetTopicAttributes" TopicArn |}.

Definition GetDataProtectionPolicy : Action :=
  {| name := "GetDataProtectionPolicy"; category := CatRead;
     safe := true; parameterName := ResourceArn;
     buildParams :=
       baseBuildParams "GetDataProtectionPolicy" ResourceArn |}.

Definition ListSubscriptionsByTopic : Action :=
  {| name := "ListSubscriptionsByTopic"; category := CatRead;
     safe := true; parameterName := TopicArn;
     buildParams := baseBuildParams "ListSubscriptionsByTopic" TopicArn |}.

Definition ListTagsForResource : Action :=
  {| name := "ListTagsForResource"; category := CatRead; safe := true;
     parameterName := ResourceArn;
     buildParams := baseBuildParams "ListTagsForResource" ResourceArn |}.

Definition Publish : Action :=
  {| name := "Publish"; category := CatWrite; safe := true;
     parameterName := TopicArn;
     buildParams := fun topicArn =>
       ret [ ("Action", "Publish");
             ("TopicArn", topicArn);
             ("Message", "sns-buster test message");
             ("Version", SNS_API_VERSION) ] |}.

Definition PublishBatch : Action :=
  {| name := "PublishBatch"; category := CatWrite; safe := true;
     parameterName := TopicArn;
     buildParams := fun topicArn =>
       ret [ ("Action", "PublishBatch");
             ("TopicArn", topicArn);
             ("PublishBatchRequestEntries.member.1.Id", "msg1");
             ("PublishBatchRequestEntries.member.1.Message",
              "sns-buster batch test message");
             ("Version", SNS_API_VERSION) ] |}.

Definition Subscribe : Action :=
  {| name := "Subscribe"; category := CatWrite; safe := true;
     parameterName := TopicArn;
     buildParams := fun topicArn =>
       ret [ ("Action", "Subscribe");
             ("TopicArn", topicArn);
             ("Protocol", "https");
             ("Endpoint", "https://example.com/sns-buster-test");
             ("Version", SNS_API_VERSION) ] |}.

Definition TagResource : Action :=
  {| name := "TagResource"; category := CatWrite; safe := true;
     parameterName := ResourceArn;
     buildParams := fun topicArn =>
       ret [ ("Action", "TagResource");
             ("ResourceArn", topicArn);
             ("Tags.member.1.Key", "sns-buster-test");
             ("Tags.member.1.Value", "true");
             ("Version", SNS_API_VERSION) ] |}.

Definition UntagResource : Action :=
  {| name := "UntagResource"; category := CatWrite; safe := true;
     parameterName := ResourceArn;
     buildParams := fun topicArn =>
       ret [ ("Action", "UntagResource");
             ("ResourceArn", topicArn);
             ("TagKeys.member.1", "sns-buster-test");
             ("Version", SNS_API_VERSION) ] |}.

Definition AddPermission : Action :=
  {| name := "AddPermission"; category := CatWrite; safe := true;
     parameterName := TopicArn;
     buildParams := fun topicArn =>
       bind (Arn.parseArn topicArn) (fun parsed =>
       ret [ ("Action", "AddPermission");
             ("TopicArn", topicArn);
             ("Label", "sns-buster-test-noop");
             ("AWSAccountId.member.1", Arn.accountId parsed);
             ("ActionName.member.1", "GetTopicAttributes");
             ("Version", SNS_API_VERSION) ]) |}.

Definition RemovePermission : Action :=
  {| name := "RemovePermission"; category := CatWrite; safe := false;
     parameterName := TopicArn;
     buildParams := fun topicArn =>
       ret [ ("Action", "RemovePermission");
             ("TopicArn", topicArn);
             ("Label", "sns-buster-test-noop");
             ("Version", SNS_API_VERSION) ] |}.

Definition SetTopicAttributes : Action :=
  {| name := "SetTopicAttributes"; category := CatWrite; safe := false;
     parameterName := TopicArn;
     buildParams := fun topicArn =>
       ret [ ("Action", "SetTopicAttributes");
             ("TopicArn", topicArn);
             ("AttributeName", "SignatureVersion");
             ("AttributeValue", "1");
             ("Version", SNS_API_VERSION) ] |}.

Definition PutDataProtectionPolicy : Action :=
  {| name := "PutDataProtectionPolicy"; category := CatWrite;
     safe := false; parameterName := ResourceArn;
     buildParams := fun topicArn =>
       ret [ ("Action", "PutDataProtectionPolicy");
             ("ResourceArn", topicArn);
             ("DataProtectionPolicy", POLICY_JSON);
             ("Version", SNS_API_VERSION) ] |}.

Definition DeleteTopic : Action :=
  {| name := "DeleteTopic"; category := CatWrite; safe := false;
     parameterName := TopicArn;
     buildParams := baseBuildParams "DeleteTopic" TopicArn |}.

Definition ALL_ACTIONS : list Action :=
  [ (* read actions *)
    GetTopicAttributes; GetDataProtectionPolicy;
    ListSubscriptionsByTopic; ListTagsForResource;
    (* write actions (safe) *)
    Publish; PublishBatch; Subscribe; TagResource; UntagResource;
    AddPermission;
    (* RemovePermission right after AddPermission, to clean up *)
    RemovePermission;
    (* write actions (unsafe) *)
    SetTopicAttributes; PutDataProtectionPolicy;
    (* destructive, last *)
    DeleteTopic ].

Definition getReadActions : list Action :=
  filter (fun action => isRead (category action)) ALL_ACTIONS.

Definition getSafeActions : list Action :=
  filter (fun action => safe action) ALL_ACTIONS.

Definition getAllActions : list Action := ALL_ACTIONS.

Definition getActionsByMode (mode : Mode) : list Action :=
  match mode with
  | ModeRead => getReadActions
  | ModeSafe => getSafeActions
  | ModeAll => getAllActions
  end.

End Catalog.

End Actions.

(** ** [src/mutations/runner.ts]: the request-mutations runner

    Signing, the clock, the file system and the console are outside the
    model: a request is what [sendSignedRequest] is given (endpoint,
    parameters, region), files written are events of the trace, and
    printing is left out.  The network answers the [n]-th request of a run
    with a response, or rejects it. *)

Module Runner.
Import Exn.

Record HttpResponse := mkResponse {
  status : Z;
  statusText : string;
  body : string;
}.

Record Request := mkRequest {
  endpoint : string;
  params : Params.t;
  region : string;
}.

Inductive Event :=
| Sent (request : Request) (answer : option HttpResponse)
| HttpLog (name leg : string)
| ReproduceScript (name : string) (request : Request)
| OutputDirectory (path : string)
| SummaryFile (path : string).

Definition Trace := list Event.

(** [fetch]: [None] is a rejected promise. *)
Definition Network := nat -> Request -> option HttpResponse.

Definition isSent (e : Event) : bool :=
  match e with Sent _ _ => true | _ => false end.

Definition sentCount (tr : Trace) : nat := length (filter isSent tr).

(** An asynchronous computation: it extends the trace and returns or
    throws. *)
Definition M (A : Type) : Type := Trace -> result A * Trace.

Definition mret {A} (a : A) : M A := fun tr => (inr a, tr).

Definition mthrow {A} (e : Exn.t) : M A := fun tr => (inl e, tr).

Definition mbind {A B} (m : M A) (k : A -> M B) : M B :=
  fun tr =>
    match m tr with
    | (inl e, tr') => (inl e, tr')
    | (inr a, tr') => k a tr'
    end.

Definition lift {A} (r : result A) : M A := fun tr => (r, tr).

Definition emit (e : Event) : M unit := fun tr => (inr tt, (tr ++ [e])%list).

Notation "x <- m ;; k" := (mbind m (fun x => k))
  (at level 61, m at next level, right associativity).
Notation "m ;; k" := (mbind m (fun _ => k))
  (at level 61, right associativity).

(** [for (const x of xs) { acc = body(acc, x) }] with [await] inside. *)
Fixpoint forEach {A S} (xs : list A) (body : S -> A -> M S) (acc : S)
    : M S :=
  match xs with
  | [] => mret acc
  | x :: rest => acc' <- body acc x ;; forEach rest body acc'
  end.

(** [sendSignedRequest]: build, sign and [await sendRequest(...)].
    Neither it nor [sendRequest] catches a rejection of [fetch]. *)
Definition sendSignedRequest (net : Network)
    (endpoint : string) (params : Params.t) (region : string)
    : M HttpResponse :=
  fun tr =>
    let request := mkRequest endpoint params region in
    match net (sentCount tr) request with
    | Some response => (inr response, (tr ++ [Sent request (Some response)])%list)
    | None => (inl FetchRejected, (tr ++ [Sent request None])%list)
    end.

(** [buildTopicResult]. *)
Definition buildTopicResult (response : HttpResponse)
    : Compare.TopicResult :=
  let status := status response in
  let isSuccess := Summary.isSuccessStatus status in
  let errorDetails :=
    if isSuccess then None
    else Some (Summary.parseErrorDetails (body response)) in
  {| Compare.status := status;
     Compare.error :=
       match errorDetails with
       | Some d => Summary.code d
       | None => None
       end;
     Compare.errorDetails := errorDetails |}.

Record MutationTestContext := mkContext {
  allowedTopicArn : string;
  deniedTopicArn : string;
  nonexistentTopicArn : string;
  allowedRegion : string;
  deniedRegion : string;
  nonexistentRegion : string;
  allowedEndpoint : string;
  deniedEndpoint : string;
  nonexistentEndpoint : string;
}.

Record MutationTestResult := mkMutationTestResult {
  mutationName : string;
  mutationDescription : string;
  topics : Compare.MutationTopics;
  useful : bool;
  reason : string;
}.

Record ActionMutationResult := mkActionMutationResult {
  action : string;
  baseline : Compare.MutationTopics;
  mutations : list MutationTestResult;
  usefulMutations : list MutationTestResult;
}.

(** The three [writeMutationsHttpLog] calls of one round. *)
Definition writeLogs (name : string) : M unit :=
  emit (HttpLog name "allowed") ;;
  emit (HttpLog name "denied") ;;
  emit (HttpLog name "nonexistent").

(** The three [writeReproduceScript] calls of one round. *)
Definition writeScripts (name : string) (ctx : MutationTestContext)
    (pa pd pn : Params.t) : M unit :=
  emit (ReproduceScript (name ++ "-allowed")
          (mkRequest (allowedEndpoint ctx) pa (allowedRegion ctx))) ;;
  emit (ReproduceScript (name ++ "-denied")
          (mkRequest (deniedEndpoint ctx) pd (deniedRegion ctx))) ;;
  emit (ReproduceScript (name ++ "-nonexistent")
          (mkRequest (nonexistentEndpoint ctx) pn (nonexistentRegion ctx))).

(** The body of [for (const mutation of mutations)] in
    [testActionMutations]; the accumulator is
    [(mutationResults, usefulMutations)]. *)
Definition mutationRound (net : Network) (actionName : string)
    (ctx : MutationTestContext)
    (baselineAllowedParams baselineDeniedParams
       baselineNonexistentParams : Params.t)
    (acc : list MutationTestResult * list MutationTestResult)
    (mutation : Strategies.Mutation)
    : M (list MutationTestResult * list MutationTestResult) :=
  let mutatedAllowedParams :=
    Strategies.apply mutation baselineAllowedParams (allowedTopicArn ctx) in
  let mutatedDeniedParams :=
    Strategies.apply mutation baselineDeniedParams (deniedTopicArn ctx) in
  let mutatedNonexistentParams :=
    Strategies.apply mutation baselineNonexistentParams
      (nonexistentTopicArn ctx) in
  if negb (Strategies.didMutationChangeParams
             baselineAllowedParams mutatedAllowedParams)
  then mret acc (* continue *)
  else
    mutatedAllowed <-
      sendSignedRequest net (allowedEndpoint ctx) mutatedAllowedParams
        (allowedRegion ctx) ;;
    mutatedDenied <-
      sendSignedRequest net (deniedEndpoint ctx) mutatedDeniedParams
        (deniedRegion ctx) ;;
    mutatedNonexistent <-
      sendSignedRequest net (nonexistentEndpoint ctx)
        mutatedNonexistentParams (nonexistentRegion ctx) ;;
    let roundName := actionName ++ "-" ++ Strategies.name mutation in
    writeLogs roundName ;;
    writeScripts roundName ctx mutatedAllowedParams mutatedDeniedParams
      mutatedNonexistentParams ;;
    let mutationTopics :=
      {| Compare.allowed := buildTopicResult mutatedAllowed;
         Compare.denied := buildTopicResult mutatedDenied;
         Compare.nonexistent := buildTopicResult mutatedNonexistent |} in
    let usefulResult :=
      Compare.isUsefulMutation mutationTopics
        (Some (Strategies.name mutation)) (Some actionName) in
    let mutationResult :=
      {| mutationName := Strategies.name mutation;
         mutationDescription := Strategies.description mutation;
         topics := mutationTopics;
         useful := Compare.useful usefulResult;
         reason := Compare.reason usefulResult |} in
    let (mutationResults, usefulMutations) := acc in
    mret ((mutationResults ++ [mutationResult])%list,
          if useful mutationResult
          then (usefulMutations ++ [mutationResult])%list
          else usefulMutations).

Definition testActionMutations (net : Network) (action : Actions.Action)
    (ctx : MutationTestContext) : M ActionMutationResult :=
  baselineAllowedParams <-
    lift (Actions.buildParams action (allowedTopicArn ctx)) ;;
  baselineDeniedParams <-
    lift (Actions.buildParams action (deniedTopicArn ctx)) ;;
  baselineNonexistentParams <-
    lift (Actions.buildParams action (nonexistentTopicArn ctx)) ;;
  baselineAllowed <-
    sendSignedRequest net (allowedEndpoint ctx) baselineAllowedParams
      (allowedRegion ctx) ;;
  baselineDenied <-
    sendSignedRequest net (deniedEndpoint ctx) baselineDeniedParams
      (deniedRegion ctx) ;;
  baselineNonexistent <-
    sendSignedRequest net (nonexistentEndpoint ctx)
      baselineNonexistentParams (nonexistentRegion ctx) ;;
  let baselineName := Actions.name action ++ "-baseline" in
  writeLogs baselineName ;;
  writeScripts baselineName ctx baselineAllowedParams baselineDeniedParams
    baselineNonexistentParams ;;
  let baseline :=
    {| Compare.allowed := buildTopicResult baselineAllowed;
       Compare.denied := buildTopicResult baselineDenied;
       Compare.nonexistent := buildTopicResult baselineNonexistent |} in
  let mutations := Strategies.getMutationsForAction (Actions.name action) in
  acc <-
    forEach mutations
      (mutationRound net (Actions.name action) ctx baselineAllowedParams
         baselineDeniedParams baselineNonexistentParams)
      ([], []) ;;
  mret {| action := Actions.name action;
          baseline := baseline;
          mutations := fst acc;
          usefulMutations := snd acc |}.

(** The options [runRequestMutations] reads ([verbose] and [outputDir]
    only steer printing and file names). *)
Record CliOptions := mkOptions {
  topicArn : string;
  mode : Actions.Mode;
  optRegion : option string;
  compare : option string;
}.

Record CallerIdentity := mkIdentity {
  account : string;
  arn : string;
  userId : string;
}.

Record VerifyResult := mkVerifyResult {
  success : bool;
  identity : option CallerIdentity;
  verifyError : option string;
}.

(** What the run takes from its environment: the value of
    [randomUUID()], the clock, whether [loadCredentials] finds
    credentials, the outcome of [verifyCredentials] (which catches its
    own network failure), the directory [createOutputDirectory] makes,
    and the network. *)
Record Env := mkEnv {
  randomUUID : string;
  now : string;
  credentialsLoaded : bool;
  verifyResult : VerifyResult;
  outputPath : string;
  net : Network;
}.

Record RequestMutationsSummary := mkSummary {
  totalActions : nat;
  totalMutationsTested : nat;
  usefulMutationsFound : nat;
}.

Record RequestMutationsResult := mkResult {
  res_allowedTopicArn : string;
  res_deniedTopicArn : string;
  res_nonexistentTopicArn : string;
  timestamp : string;
  res_mode : Actions.Mode;
  actions : list ActionMutationResult;
  summary : RequestMutationsSummary;
  res_outputPath : string;
}.

Section Run.

Variable SNS_API_VERSION : string.

(** The body of [for (const action of actions)] in
    [runRequestMutations]; the accumulator is
    [(actionResults, totalMutationsTested, usefulMutationsFound)]. *)
Definition actionRound (net : Network) (ctx : MutationTestContext)
    (acc : list ActionMutationResult * nat * nat)
    (action : Actions.Action)
    : M (list ActionMutationResult * nat * nat) :=
  result <- testActionMutations net action ctx ;;
  let '(actionResults, total, found) := acc in
  mret ((actionResults ++ [result])%list,
        total + length (mutations result),
        found + length (usefulMutations result)).

Definition runRequestMutations (env : Env) (options : CliOptions)
    : M RequestMutationsResult :=
  let allowedTopicArn := topicArn options in
  if negb (Js.truthy (compare options)) then
    mthrow (Error
      "Request mutations mode requires --compare <deny-topic-arn>")
  else
  let deniedTopicArn := Js.show (compare options) in
  nonexistentTopicArn <-
    lift (Arn.generateNonexistentTopicArn (randomUUID env)
            allowedTopicArn) ;;
  allowedRegion <-
    (if Js.truthy (optRegion options)
     then mret (Js.show (optRegion options))
     else lift (Arn.getRegionFromArn allowedTopicArn)) ;;
  deniedRegion <- lift (Arn.getRegionFromArn deniedTopicArn) ;;
  let nonexistentRegion := allowedRegion in
  let allowedEndpoint := Arn.getEndpointForRegion allowedRegion in
  let deniedEndpoint := Arn.getEndpointForRegion deniedRegion in
  let nonexistentEndpoint := Arn.getEndpointForRegion nonexistentRegion in
  if negb (credentialsLoaded env) then
    mthrow (Error "Request mutations mode requires AWS credentials")
  else
  let verifyResult := verifyResult env in
  if negb (success verifyResult)
     || match identity verifyResult with None => true | Some _ => false end
  then
    let errorMsg :=
      Js.show (Js.or_else (verifyError verifyResult)
                 (Some "Unknown error")) in
    if Js.includes errorMsg "expired" then
      mthrow (Error
        "AWS credentials have expired. Please refresh your credentials and try again.")
    else
      mthrow (Error ("Credential verification failed: " ++ errorMsg))
  else
  let timestamp := now env in
  emit (OutputDirectory (outputPath env)) ;;
  let actions := Actions.getActionsByMode SNS_API_VERSION (mode options) in
  let ctx :=
    {| allowedTopicArn := allowedTopicArn;
       deniedTopicArn := deniedTopicArn;
       nonexistentTopicArn := nonexistentTopicArn;
       allowedRegion := allowedRegion;
       deniedRegion := deniedRegion;
       nonexistentRegion := nonexistentRegion;
       allowedEndpoint := allowedEndpoint;
       deniedEndpoint := deniedEndpoint;
       nonexistentEndpoint := nonexistentEndpoint |} in
  acc <- forEach actions (actionRound (net env) ctx) ([], 0, 0) ;;
  let '(actionResults, totalMutationsTested, usefulMutationsFound) :=
    acc in
  let result :=
    {| res_allowedTopicArn := allowedTopicArn;
       res_deniedTopicArn := deniedTopicArn;
       res_nonexistentTopicArn := nonexistentTopicArn;
       timestamp := timestamp;
       res_mode := mode options;
       actions := actionResults;
       summary :=
         {| totalActions := length actions;
            totalMutationsTested := totalMutationsTested;
            usefulMutationsFound := usefulMutationsFound |};
       res_outputPath := outputPath env |} in
  emit (SummaryFile (outputPath env ++ "/summary.json")) ;;
  mret result.

End Run.

End Runner.

(** ** [src/output/summary.ts]: the rest of the module *)

Module SummaryReport.

(** [parseErrorFromResponse]: the error code, else the error type. *)
Definition parseErrorFromResponse (responseBody : string) : option string :=
  match Summary.capture "Code" responseBody with
  | Some errorCode => Some errorCode
  | None =>
      match Summary.capture "Type" responseBody with
      | Some errorType => Some errorType
      | None => None
      end
  end.

(** [parseRequestIdFromResponse]. *)
Definition parseRequestIdFromResponse (responseBody : string)
    : option string :=
  Summary.capture "RequestId" responseBody.

Record ActionSummaryResult := mkActionSummaryResult {
  status : Z;
  success : bool;
  error : option string;
  requestId : option string;
}.

Record ActionSummary := mkActionSummary {
  unsigned : ActionSummaryResult;
  signed : option ActionSummaryResult;
}.

(** [{ success: number, failed: number }]. *)
Record Counts := mkCounts {
  succeeded : nat;
  failed : nat;
}.

Record Totals := mkTotals {
  total : nat;
  unsignedCounts : Counts;
  signedCounts : Counts;
}.

(** [RunSummary]; [results] is a [Record<string, ActionSummary>] in key
    order, keyed by action name. *)
Record RunSummary := mkRunSummary {
  topicArn : string;
  region : string;
  timestamp : string;
  mode : Actions.Mode;
  credentialsAvailable : bool;
  results : list (string * ActionSummary);
  summary : Totals;
}.

(** [createEmptySummary]; [now] is [new Date().toISOString()]. *)
Definition createEmptySummary (now : string) (topicArn region : string)
    (mode : Actions.Mode) (credentialsAvailable : bool) : RunSummary :=
  {| topicArn := topicArn;
     region := region;
     timestamp := now;
     mode := mode;
     credentialsAvailable := credentialsAvailable;
     results := [];
     summary :=
       {| total := 0;
          unsignedCounts := {| succeeded := 0; failed := 0 |};
          signedCounts := {| succeeded := 0; failed := 0 |} |} |}.

(** [results[actionName]], on the keys the object owns.  The names of the
    action catalog, the only keys the runner uses, are none of the members
    that every object inherits. *)
Fixpoint lookup (actionName : string) (rs : list (string * ActionSummary))
    : option ActionSummary :=
  match rs with
  | [] => None
  | (k, v) :: rest => if k =? actionName then Some v else lookup actionName rest
  end.

(** [results[actionName].signed = result] or [.unsigned = result] on an
    entry that exists. *)
Fixpoint assign (actionName : string) (isSigned : bool)
    (result : ActionSummaryResult) (rs : list (string * ActionSummary))
    : list (string * ActionSummary) :=
  match rs with
  | [] => []
  | (k, v) :: rest =>
      if k =? actionName
      then (k, if isSigned
               then {| unsigned := unsigned v; signed := Some result |}
               else {| unsigned := result; signed := signed v |}) :: rest
      else (k, v) :: assign actionName isSigned result rest
  end.

(** [addActionResult]; the summary it mutates is returned. *)
Definition addActionResult (summary0 : RunSummary) (actionName : string)
    (isSigned : bool) (result : ActionSummaryResult) : RunSummary :=
  let results1 :=
    match lookup actionName (results summary0) with
    | Some _ => results summary0
    | None =>
        (results summary0 ++
         [ (actionName,
            {| unsigned := {| status := 0; success := false;
                              error := None; requestId := None |};
               signed := None |}) ])%list
    end in
  {| topicArn := topicArn summary0;
     region := region summary0;
     timestamp := timestamp summary0;
     mode := mode summary0;
     credentialsAvailable := credentialsAvailable summary0;
     results := assign actionName isSigned result results1;
     summary := summary summary0 |}.

(** [r.signed?.success], as a condition. *)
Definition signedSucceeded (r : ActionSummary) : bool :=
  match signed r with
  | Some s => success s
  | None => false
  end.

(** [r.signed && !r.signed.success], as a condition. *)
Definition signedFailed (r : ActionSummary) : bool :=
  match signed r with
  | Some s => negb (success s)
  | None => false
  end.

(** [calculateSummaryTotals]; the summary it mutates is returned. *)
Definition calculateSummaryTotals (summary0 : RunSummary) : RunSummary :=
  let values := map snd (results summary0) in
  {| topicArn := topicArn summary0;
     region := region summary0;
     timestamp := timestamp summary0;
     mode := mode summary0;
     credentialsAvailable := credentialsAvailable summary0;
     results := results summary0;
     summary :=
       {| total := length values;
          unsignedCounts :=
            {| succeeded :=
                 length (filter (fun r => success (unsigned r)) values);
               failed :=
                 length (filter (fun r => negb (success (unsigned r)))
                           values) |};
          signedCounts :=
            {| succeeded := length (filter signedSucceeded values);
               failed := length (filter signedFailed values) |} |} |}.

End SummaryReport.

(** ** [src/mutations/compare.ts]: comparing two responses *)

Module CompareReport.

Record ActionResult := mkActionResult {
  status : Z;
  success : bool;
  error : option string;
}.

(** The result of [compareResponses]: a [MutationComparison] without its
    action. *)
Record ResponseComparison := mkResponseComparison {
  isMatch : bool;
  allowedStatus : Z;
  deniedStatus : Z;
  allowedError : option string;
  deniedError : option string;
}.

(** [{ action, ...comparison }]. *)
Record MutationComparison := mkMutationComparison {
  action : string;
  comparison : ResponseComparison;
}.

Record MutationsSummary := mkMutationsSummary {
  total : nat;
  matching : nat;
  different : nat;
}.

Definition compareResponses (allowed denied : ActionResult)
    : ResponseComparison :=
  {| isMatch := (status allowed =? status denied)%Z;
     allowedStatus := status allowed;
     deniedStatus := status denied;
     allowedError := error allowed;
     deniedError := error denied |}.

Definition createMutationsSummary (comparisons : list MutationComparison)
    : MutationsSummary :=
  let matching :=
    length (filter (fun c => isMatch (comparison c)) comparisons) in
  {| total := length comparisons;
     matching := matching;
     different := length comparisons - matching |}.

End CompareReport.

(** ** [src/safemode/classifier.ts]: reading a denial message *)

Module PolicyClassifier.

Inductive PolicyClassification :=
| Public
| PrivateDeny
| PrivateNoPolicy
| Unknown.

Record ClassificationResult := mkClassification {
  classification : PolicyClassification;
  reason : string;
}.

Definition classifyFromErrorMessage (errorMessage : string)
    : ClassificationResult :=
  if Js.includes errorMessage "identity-based policy"
     || Js.includes errorMessage "session policy"
  then {| classification := Public; reason := "session/identity policy" |}
  else if Js.includes errorMessage "explicit deny in a resource-based policy"
  then {| classification := PrivateDeny; reason := "resource policy deny" |}
  else if Js.includes errorMessage "no resource-based policy allows"
  then {| classification := PrivateNoPolicy;
          reason := "no resource policy" |}
  else {| classification := Unknown;
          reason := "unrecognized error format" |}.

Definition getClassificationLabel (c : PolicyClassification) : string :=
  match c with
  | Public => "PUBLIC"
  | PrivateDeny | PrivateNoPolicy => "PRIVATE"
  | Unknown => "UNKNOWN"
  end.

End PolicyClassifier.

(** ** [src/mutations/runner.ts]: the compare mode *)

Module CompareRunner.
Import Exn.

Notation "x <- m ;; k" := (Runner.mbind m (fun x => k))
  (at level 61, m at next level, right associativity).
Notation "m ;; k" := (Runner.mbind m (fun _ => k))
  (at level 61, right associativity).

Record CompareContext := mkContext {
  allowedTopicArn : string;
  deniedTopicArn : string;
  allowedRegion : string;
  deniedRegion : string;
  allowedEndpoint : string;
  deniedEndpoint : string;
}.

Record MutationsResult := mkResult {
  res_allowedTopicArn : string;
  res_deniedTopicArn : string;
  timestamp : string;
  res_mode : Actions.Mode;
  comparisons : list CompareReport.MutationComparison;
  summary : CompareReport.MutationsSummary;
  res_outputPath : string;
}.

(** The [ActionResult] that [executeComparison] makes of a response. *)
Definition toActionResult (response : Runner.HttpResponse)
    : CompareReport.ActionResult :=
  let status := Runner.status response in
  {| CompareReport.status := status;
     CompareReport.success := Summary.isSuccessStatus status;
     CompareReport.error :=
       if Summary.isSuccessStatus status then None
       else SummaryReport.parseErrorFromResponse (Runner.body response) |}.

Definition executeComparison (net : Runner.Network) (action : Actions.Action)
    (ctx : CompareContext) : Runner.M CompareReport.MutationComparison :=
  allowedParams <-
    Runner.lift (Actions.buildParams action (allowedTopicArn ctx)) ;;
  allowedResponse <-
    Runner.sendSignedRequest net (allowedEndpoint ctx) allowedParams
      (allowedRegion ctx) ;;
  let allowedResult := toActionResult allowedResponse in
  Runner.emit (Runner.HttpLog (Actions.name action) "allowed") ;;
  Runner.emit
    (Runner.ReproduceScript (Actions.name action ++ "-allowed")
       (Runner.mkRequest (allowedEndpoint ctx) allowedParams
          (allowedRegion ctx))) ;;
  deniedParams <-
    Runner.lift (Actions.buildParams action (deniedTopicArn ctx)) ;;
  deniedResponse <-
    Runner.sendSignedRequest net (deniedEndpoint ctx) deniedParams
      (deniedRegion ctx) ;;
  let deniedResult := toActionResult deniedResponse in
  Runner.emit (Runner.HttpLog (Actions.name action) "denied") ;;
  Runner.emit
    (Runner.ReproduceScript (Actions.name action ++ "-denied")
       (Runner.mkRequest (deniedEndpoint ctx) deniedParams
          (deniedRegion ctx))) ;;
  Runner.mret
    {| CompareReport.action := Actions.name action;
       CompareReport.comparison :=
         CompareReport.compareResponses allowedResult deniedResult |}.

Section Run.

Variable SNS_API_VERSION : string.

(** The body of [for (const action of actions)] in [runMutations]. *)
Definition comparisonRound (net : Runner.Network) (ctx : CompareContext)
    (comparisons : list CompareReport.MutationComparison)
    (action : Actions.Action)
    : Runner.M (list CompareReport.MutationComparison) :=
  comparison <- executeComparison net action ctx ;;
  Runner.mret (comparisons ++ [comparison])%list.

Definition runMutations (env : Runner.Env) (options : Runner.CliOptions)
    : Runner.M MutationsResult :=
  let allowedTopicArn := Runner.topicArn options in
  if negb (Js.truthy (Runner.compare options)) then
    Runner.mthrow (Error "Compare mode requires --compare <deny-topic-arn>")
  else
  let deniedTopicArn := Js.show (Runner.compare options) in
  allowedRegion <-
    (if Js.truthy (Runner.optRegion options)
     then Runner.mret (Js.show (Runner.optRegion options))
     else Runner.lift (Arn.getRegionFromArn allowedTopicArn)) ;;
  deniedRegion <- Runner.lift (Arn.getRegionFromArn deniedTopicArn) ;;
  let allowedEndpoint := Arn.getEndpointForRegion allowedRegion in
  let deniedEndpoint := Arn.getEndpointForRegion deniedRegion in
  if negb (Runner.credentialsLoaded env) then
    Runner.mthrow (Error "Compare mode requires AWS credentials")
  else
  let verifyResult := Runner.verifyResult env in
  if negb (Runner.success verifyResult)
     || match Runner.identity verifyResult with
        | None => true
        | Some _ => false
        end
  then
    let errorMsg :=
      Js.show (Js.or_else (Runner.verifyError verifyResult)
                 (Some "Unknown error")) in
    if Js.includes errorMsg "expired" then
      Runner.mthrow (Error
        "AWS credentials have expired. Please refresh your credentials and try again.")
    else
      Runner.mthrow (Error ("Credential verification failed: " ++ errorMsg))
  else
  let timestamp := Runner.now env in
  Runner.emit (Runner.OutputDirectory (Runner.outputPath env)) ;;
  let actions :=
    Actions.getActionsByMode SNS_API_VERSION (Runner.mode options) in
  let ctx :=
    {| allowedTopicArn := allowedTopicArn;
       deniedTopicArn := deniedTopicArn;
       allowedRegion := allowedRegion;
       deniedRegion := deniedRegion;
       allowedEndpoint := allowedEndpoint;
       deniedEndpoint := deniedEndpoint |} in
  comparisons <-
    Runner.forEach actions (comparisonRound (Runner.net env) ctx) [] ;;
  let result :=
    {| res_allowedTopicArn := allowedTopicArn;
       res_deniedTopicArn := deniedTopicArn;
       timestamp := timestamp;
       res_mode := Runner.mode options;
       comparisons := comparisons;
       summary := CompareReport.createMutationsSummary comparisons;
       res_outputPath := Runner.outputPath env |} in
  Runner.emit
    (Runner.SummaryFile (Runner.outputPath env ++ "/summary.json")) ;;
  Runner.mret result.

End Run.

End CompareRunner.

(** ** [src/credentials/verify.ts] *)

Module Verify.





End Verify.

(** ** [src/safemode/runner.ts]: one topic under the deny-all session *)

Module SessionErrors.
Import Exn PolicyClassifier.

Notation "x <- m ;; k" := (Runner.mbind m (fun x => k))
  (at level 61, m at next level, right associativity).
Notation "m ;; k" := (Runner.mbind m (fun _ => k))
  (at level 61, right associativity).

Record ActionSafeModeResult := mkActionResult {
  action : string;
  status : Z;
  classification : PolicyClassification;
  reason : string;
  errorMessage : option string;
}.

Record TopicSummary := mkTopicSummary {
  total : nat;
  public : nat;
  privateDeny : nat;
  privateNoPolicy : nat;
  unknown : nat;
}.

Record TopicSafeModeResult := mkTopicResult {
  topicArn : string;
  actions : list ActionSafeModeResult;
  summary : TopicSummary;
}.

(** The counters of [testTopic], in the order it declares them, behind the
    list of results. *)
Record Tally := mkTally {
  actionResults : list ActionSafeModeResult;
  publicCount : nat;
  privateDenyCount : nat;
  privateNoPolicyCount : nat;
  unknownCount : nat;
}.

(** The [switch (classification)] of [testTopic]: one counter goes up. *)
Definition count (c : PolicyClassification) (tally : Tally) : Tally :=
  match c with
  | Public =>
      {| actionResults := actionResults tally;
         publicCount := S (publicCount tally);
         privateDenyCount := privateDenyCount tally;
         privateNoPolicyCount := privateNoPolicyCount tally;
         unknownCount := unknownCount tally |}
  | PrivateDeny =>
      {| actionResults := actionResults tally;
         publicCount := publicCount tally;
         privateDenyCount := S (privateDenyCount tally);
         privateNoPolicyCount := privateNoPolicyCount tally;
         unknownCount := unknownCount tally |}
  | PrivateNoPolicy =>
      {| actionResults := actionResults tally;
         publicCount := publicCount tally;
         privateDenyCount := privateDenyCount tally;
         privateNoPolicyCount := S (privateNoPolicyCount tally);
         unknownCount := unknownCount tally |}
  | Unknown =>
      {| actionResults := actionResults tally;
         publicCount := publicCount tally;
         privateDenyCount := privateDenyCount tally;
         privateNoPolicyCount := privateNoPolicyCount tally;
         unknownCount := S (unknownCount tally) |}
  end.

(** [actionResults.push(actionResult)]. *)
Definition push (actionResult : ActionSafeModeResult) (tally : Tally)
    : Tally :=
  {| actionResults := (actionResults tally ++ [actionResult])%list;
     publicCount := publicCount tally;
     privateDenyCount := privateDenyCount tally;
     privateNoPolicyCount := privateNoPolicyCount tally;
     unknownCount := unknownCount tally |}.

(** [topicArn.split(':').pop() || 'topic']. *)
Definition logTarget (topicArn : string) : string :=
  let lastPart := last (Js.split_colon topicArn) "" in
  if lastPart =? "" then "topic" else lastPart.

(** The body of [for (const action of actions)] in [testTopic]. *)
Definition topicRound (net : Runner.Network) (topicArn region endpoint : string)
    (tally : Tally) (action : Actions.Action) : Runner.M Tally :=
  params <- Runner.lift (Actions.buildParams action topicArn) ;;
  response <- Runner.sendSignedRequest net endpoint params region ;;
  let status := Runner.status response in
  let errorDetails := Summary.parseErrorDetails (Runner.body response) in
  let errorMessage :=
    Js.show (Js.or_else (Summary.message errorDetails) (Some "")) in
  let classificationResult := classifyFromErrorMessage errorMessage in
  let classification :=
    PolicyClassifier.classification classificationResult in
  let actionResult :=
    {| action := Actions.name action;
       status := status;
       classification := classification;
       reason := PolicyClassifier.reason classificationResult;
       errorMessage :=
         if errorMessage =? "" then None else Some errorMessage |} in
  let tally1 := push actionResult (count classification tally) in
  Runner.emit (Runner.HttpLog (Actions.name action) (logTarget topicArn)) ;;
  Runner.mret tally1.

Definition testTopic (net : Runner.Network) (topicArn : string)
    (actions : list Actions.Action) : Runner.M TopicSafeModeResult :=
  region <- Runner.lift (Arn.getRegionFromArn topicArn) ;;
  let endpoint := Arn.getEndpointForRegion region in
  tally <-
    Runner.forEach actions (topicRound net topicArn region endpoint)
      {| actionResults := []; publicCount := 0; privateDenyCount := 0;
         privateNoPolicyCount := 0; unknownCount := 0 |} ;;
  Runner.mret
    {| topicArn := topicArn;
       actions := actionResults tally;
       summary :=
         {| total := length actions;
            public := publicCount tally;
            privateDeny := privateDenyCount tally;
            privateNoPolicy := privateNoPolicyCount tally;
            unknown := unknownCount tally |} |}.

End SessionErrors.

(** ** [src/cli.ts] and the dispatch of [src/index.ts]

    [program.opts()] and [program.args] are what the command-line library
    hands over; [process.exit(1)] after [console.error] ends the program and
    is the left summand here. *)

Module Cli.

(** The value of an option that takes any number of arguments:
    [undefined] when it is not given, [true] when it is given bare, else the
    array of its arguments. *)
Inductive Variadic :=
| NotGiven
| Bare
| Values (values : list string).

Record Opts := mkOpts {
  read : bool;
  safe : bool;
  opt_compare : Variadic;
  opt_requestMutations : Variadic;
  opt_sessionErrors : Variadic;
  opt_region : option string;
  opt_verbose : bool;
  opt_output : option string;
}.

Record CliOptions := mkCliOptions {
  topicArn : string;
  mode : Actions.Mode;
  region : option string;
  verbose : bool;
  outputDir : string;
  compare : option string;
  allowTopicArn : option string;
  requestMutations : bool;
  sessionErrorsRoleArn : option string;
  sessionErrorsTopics : option (list string);
}.

(** The program left through [process.exit(code)], after [message] went to
    the error stream. *)
Inductive Exit := ExitWith (code : Z) (message : string).

(** [opts.x !== undefined]. *)
Definition isGiven (v : Variadic) : bool :=
  match v with
  | NotGiven => false
  | _ => true
  end.

(** [Array.isArray(opts.x) ? opts.x : []]. *)
Definition arguments (v : Variadic) : list string :=
  match v with
  | Values values => values
  | _ => []
  end.

Definition parseOptions (opts : Opts) (args : list string)
    : Exit + CliOptions :=
  let isCompareMode := isGiven (opt_compare opts) in
  let isRequestMutationsMode := isGiven (opt_requestMutations opts) in
  let isSessionErrorsMode := isGiven (opt_sessionErrors opts) in
  (* --compare [allow] [deny] *)
  let compareTopics := arguments (opt_compare opts) in
  let compareAllowArn0 :=
    if isCompareMode then nth_error compareTopics 0 else None in
  let compareDenyArn0 :=
    if isCompareMode then nth_error compareTopics 1 else None in
  if isCompareMode
     && (negb (Js.truthy compareAllowArn0)
         || negb (Js.truthy compareDenyArn0))
  then inl (ExitWith 1
    "Error: --compare requires two topic ARNs: --compare <allow-arn> <deny-arn>")
  else
  (* --request-mutations [allow] [deny] *)
  let mutationTopics := arguments (opt_requestMutations opts) in
  let compareAllowArn :=
    if isRequestMutationsMode then nth_error mutationTopics 0
    else compareAllowArn0 in
  let compareDenyArn :=
    if isRequestMutationsMode then nth_error mutationTopics 1
    else compareDenyArn0 in
  if isRequestMutationsMode
     && (negb (Js.truthy compareAllowArn)
         || negb (Js.truthy compareDenyArn))
  then inl (ExitWith 1
    "Error: --request-mutations requires two topic ARNs: --request-mutations <allow-arn> <deny-arn>")
  else
  (* --session-errors [role-arn] [topic-arns...] *)
  let sessionErrorsArgs := arguments (opt_sessionErrors opts) in
  let sessionErrorsRoleArn :=
    if isSessionErrorsMode then nth_error sessionErrorsArgs 0 else None in
  let sessionErrorsTopics :=
    if isSessionErrorsMode then Some (tl sessionErrorsArgs) else None in
  if isSessionErrorsMode
     && (negb (Js.truthy sessionErrorsRoleArn)
         || (length (tl sessionErrorsArgs) =? 0)%nat)
  then inl (ExitWith 1
    "Error: --session-errors requires a role ARN and at least one topic ARN: --session-errors <role-arn> <topic-arn...>")
  else
  (* the topic of the standard mode *)
  let topicArn := nth_error args 0 in
  if negb (Js.truthy topicArn) && negb isCompareMode
     && negb isRequestMutationsMode && negb isSessionErrorsMode
  then inl (ExitWith 1
    "Error: topic ARN is required. Usage: sns-buster <topic-arn>")
  else
  let mode :=
    if read opts then Actions.ModeRead
    else if safe opts then Actions.ModeSafe
    else Actions.ModeAll in
  inr {| topicArn :=
           Js.show (Js.or_else (Js.or_else compareAllowArn topicArn)
                      (Some ""));
         mode := mode;
         region := opt_region opts;
         verbose := opt_verbose opts;
         outputDir := Js.show (Js.or_else (opt_output opts) (Some "output"));
         compare := compareDenyArn;
         allowTopicArn := compareAllowArn;
         requestMutations := isRequestMutationsMode;
         sessionErrorsRoleArn := sessionErrorsRoleArn;
         sessionErrorsTopics := sessionErrorsTopics |}.

(** What [main] runs. *)
Inductive Command :=
| RunSessionErrors
| RunRequestMutations
| RunMutations
| Run.

(** The [if] chain of [main]. *)
Definition dispatch (options : CliOptions) : Command :=
  if Js.truthy (sessionErrorsRoleArn options) then RunSessionErrors
  else if requestMutations options then RunRequestMutations
  else if Js.truthy (compare options) then RunMutations
  else Run.

(** The options as the runners of [mutations/runner.ts] read them. *)
Definition runnerOptions (options : CliOptions) : Runner.CliOptions :=
  {| Runner.topicArn := topicArn options;
     Runner.mode := mode options;
     Runner.optRegion := region options;
     Runner.compare := compare options |}.

End Cli.

(** ** [src/runner.ts]: the probe mode

    Each action is sent unsigned and, when verified credentials are at
    hand, signed as well; the results go into the run summary of
    [output/summary.ts].  The summary object that [executeAction] mutates
    is threaded through the loop. *)

Module Probe.
Import Exn.

(** A request of the probe mode; [signed] tells whether [signRequest]
    went over it. *)
Record Request := mkRequest {
  signed : bool;
  endpoint : string;
  params : Params.t;
  region : string;
}.

Inductive Event :=
| Sent (request : Request) (answer : option Runner.HttpResponse)
| HttpLog (actionName : string) (isSigned : bool)
| ReproduceScript (name : string) (request : Request)
| OutputDirectory (path : string)
| SummaryFile (path : string).

Definition Trace := list Event.

(** The network answers the [n]-th request or rejects it. *)
Definition Network := nat -> Request -> option Runner.HttpResponse.

Definition isSent (e : Event) : bool :=
  match e with
  | Sent _ _ => true
  | _ => false
  end.

Definition sentCount (tr : Trace) : nat := length (filter isSent tr).

Definition M (A : Type) : Type := Trace -> result A * Trace.

Definition mret {A} (a : A) : M A := fun tr => (inr a, tr).

Definition mbind {A B} (m : M A) (k : A -> M B) : M B :=
  fun tr =>
    match m tr with
    | (inl e, tr') => (inl e, tr')
    | (inr a, tr') => k a tr'
    end.

Definition lift {A} (r : result A) : M A := fun tr => (r, tr).

Definition emit (e : Event) : M unit := fun tr => (inr tt, (tr ++ [e])%list).

Notation "x <- m ;; k" := (mbind m (fun x => k))
  (at level 61, m at next level, right associativity).
Notation "m ;; k" := (mbind m (fun _ => k))
  (at level 61, right associativity).

Fixpoint forEach {A S} (xs : list A) (body : S -> A -> M S) (acc : S)
    : M S :=
  match xs with
  | [] => mret acc
  | x :: rest => acc' <- body acc x ;; forEach rest body acc'
  end.

(** [await sendRequest(request)]; nothing here catches a rejection. *)
Definition sendRequest (net : Network) (request : Request)
    : M Runner.HttpResponse :=
  fun tr =>
    match net (sentCount tr) request with
    | Some response => (inr response, (tr ++ [Sent request (Some response)])%list)
    | None => (inl FetchRejected, (tr ++ [Sent request None])%list)
    end.

(** The [ActionSummaryResult] that [executeAction] makes of a response. *)
Definition toSummaryResult (response : Runner.HttpResponse)
    : SummaryReport.ActionSummaryResult :=
  let success := Summary.isSuccessStatus (Runner.status response) in
  {| SummaryReport.status := Runner.status response;
     SummaryReport.success := success;
     SummaryReport.error :=
       if success then None
       else SummaryReport.parseErrorFromResponse (Runner.body response);
     SummaryReport.requestId :=
       SummaryReport.parseRequestIdFromResponse (Runner.body response) |}.

Record ExecuteContext := mkContext {
  ctx_topicArn : string;
  ctx_region : string;
  ctx_endpoint : string;
  ctx_credentials : bool;
}.

(** [executeAction]; [ctx_credentials] is [credentials !== null]. *)
Definition executeAction (net : Network) (ctx : ExecuteContext)
    (summary : SummaryReport.RunSummary) (action : Actions.Action)
    : M SummaryReport.RunSummary :=
  params <- lift (Actions.buildParams action (ctx_topicArn ctx)) ;;
  let unsignedRequest :=
    mkRequest false (ctx_endpoint ctx) params (ctx_region ctx) in
  unsignedResult <- sendRequest net unsignedRequest ;;
  let summary1 :=
    SummaryReport.addActionResult summary (Actions.name action) false
      (toSummaryResult unsignedResult) in
  emit (HttpLog (Actions.name action) false) ;;
  emit (ReproduceScript (Actions.name action ++ "-unsigned")
          unsignedRequest) ;;
  if ctx_credentials ctx then
    let signedRequest :=
      mkRequest true (ctx_endpoint ctx) params (ctx_region ctx) in
    signedResult <- sendRequest net signedRequest ;;
    let summary2 :=
      SummaryReport.addActionResult summary1 (Actions.name action) true
        (toSummaryResult signedResult) in
    emit (HttpLog (Actions.name action) true) ;;
    emit (ReproduceScript (Actions.name action ++ "-signed")
            signedRequest) ;;
    mret summary2
  else mret summary1.

(** What the run takes from its environment: the clock, whether
    [loadCredentials] finds credentials, the outcome of
    [verifyCredentials] (which catches its own network failure), the
    directory [createOutputDirectory] makes, and the network. *)
Record Env := mkEnv {
  now : string;
  credentialsLoaded : bool;
  verifyResult : Runner.VerifyResult;
  outputPath : string;
  net : Network;
}.

Record RunnerResult := mkResult {
  summary : SummaryReport.RunSummary;
  res_outputPath : string;
}.

Section Run.

Variable SNS_API_VERSION : string.

(** [run]; [options] are the options the runners read. *)
Definition run (env : Env) (options : Runner.CliOptions) : M RunnerResult :=
  let topicArn := Runner.topicArn options in
  region <-
    (if Js.truthy (Runner.optRegion options)
     then mret (Js.show (Runner.optRegion options))
     else lift (Arn.getRegionFromArn topicArn)) ;;
  let endpoint := Arn.getEndpointForRegion region in
  (* credentials stay only when they verify *)
  let hasCredentials :=
    credentialsLoaded env
    && (Runner.success (verifyResult env)
        && match Runner.identity (verifyResult env) with
           | Some _ => true
           | None => false
           end) in
  emit (OutputDirectory (outputPath env)) ;;
  let summary0 :=
    SummaryReport.createEmptySummary (now env) topicArn region
      (Runner.mode options) hasCredentials in
  let actions :=
    Actions.getActionsByMode SNS_API_VERSION (Runner.mode options) in
  summary1 <-
    forEach actions
      (executeAction (net env)
         {| ctx_topicArn := topicArn;
            ctx_region := region;
            ctx_endpoint := endpoint;
            ctx_credentials := hasCredentials |})
      summary0 ;;
  let summary2 := SummaryReport.calculateSummaryTotals summary1 in
  emit (SummaryFile (outputPath env ++ "/summary.json")) ;;
  mret {| summary := summary2; res_outputPath := outputPath env |}.

End Run.

End Probe.

(** * Vocabulary of the properties

    The propositions the claims are stated with, and the sample inputs
    they are tried on. *)

Section ClassifierVocabulary.
Import Compare.

(** The condition of the no-op rule, as a proposition. *)
Definition noop_rule_applies (m : MutationTopics)
    (mutationName actionName : option string) : Prop :=
  has SAFE_PROBE_MUTATIONS (probeKey actionName mutationName) = true
  /\ status (allowed m) = 200%Z /\ status (denied m) = 403%Z.

(** The triple of C1: allowed=(400, InvalidParameter),
    denied=(403, AuthorizationError), nonexistent=(403, AuthorizationError). *)
Definition safe_probe_example : MutationTopics :=
  {| allowed := topicResult 400 (Some "InvalidParameter");
     denied := topicResult 403 (Some "AuthorizationError");
     nonexistent := topicResult 403 (Some "AuthorizationError") |}.

(** Two outcomes whose bodies could not be parsed: both codes are absent. *)
Definition absent_codes_example_3a : MutationTopics :=
  {| allowed := topicResult 400 None;
     denied := topicResult 400 None;
     nonexistent := topicResult 403 (Some "AuthorizationError") |}.

Definition absent_codes_example_4 : MutationTopics :=
  {| allowed := topicResult 400 None;
     denied := topicResult 403 (Some "AuthorizationError");
     nonexistent := topicResult 400 None |}.

End ClassifierVocabulary.

Section CatalogVocabulary.
Import Params Strategies.

(** The baseline of TagResource against a sample topic. *)
Definition sample_tag_params : Params.t :=
  [ ("Action", "TagResource");
    ("ResourceArn", "arn:aws:sns:us-east-1:123456789012:my-topic");
    ("Tags.member.1.Key", "sns-buster-test");
    ("Tags.member.1.Value", "true");
    ("Version", "2010-03-31") ].

(** *** Preconditions

    The parameter each transform looks for before it changes anything, read
    off its guard: the key it tests against [undefined], the predicate it
    searches [Object.keys] with, or, for the two structural mutations that
    have no guard, the key they delete. *)
Definition mutationPreconditions : list (Mutation * (string -> bool)) :=
  [ (removeAction, String.eqb "Action");
    (removeVersion, String.eqb "Version");
    (removeMessage, String.eqb "Message");
    (emptyMessage, String.eqb "Message");
    (removeBatchMessage, Re.test reBatchMessage);
    (emptyBatchMessage, Re.test reBatchMessage);
    (removeBatchId, Re.test reBatchId);
    (emptyBatchId, Re.test reBatchId);
    (endpointToArn, String.eqb "Endpoint");
    (longEndpoint, String.eqb "Endpoint");
    (invalidProtocol, String.eqb "Protocol");
    (removeProtocol, String.eqb "Protocol");
    (invalidActionName, isActionNameMember);
    (removeActionName, isActionNameMember);
    (invalidLabel, String.eqb "Label");
    (emptyLabel, String.eqb "Label");
    (removeLabel, String.eqb "Label");
    (specialCharLabel, String.eqb "Label");
    (longLabel, String.eqb "Label");
    (invalidAttributeName, String.eqb "AttributeName");
    (removeAttributeName, String.eqb "AttributeName");
    (longAttributeValue, String.eqb "AttributeValue");
    (invalidSignatureVersion, String.eqb "AttributeName");
    (nonExistentTag, Re.test reTagKey);
    (removeTags, isTagsMember);
    (emptyTagKey, Re.test reTagKey);
    (longTagKey, Re.test reTagKey);
    (zeroIndexTag, Re.test reTagMember);
    (removeTagKey, Re.test reTagKey);
    (removeTagValue, Re.test reTagValue);
    (longTagValue, Re.test reTagValue);
    (nonExistentTagKey, isTagKeysMember);
    (removeTagKeys, isTagKeysMember);
    (emptyTagKeys, isTagKeysMember);
    (longTagKeys, isTagKeysMember);
    (zeroIndexTagKey, Re.test reTagKeysMember);
    (longSubject, String.eqb "Action");
    (invalidJsonPolicy, String.eqb "DataProtectionPolicy");
    (emptyJsonPolicy, String.eqb "DataProtectionPolicy");
    (invalidPolicyStructure, String.eqb "DataProtectionPolicy");
    (removeDataProtectionPolicy, String.eqb "DataProtectionPolicy") ].

(** Some key of the map is a precondition parameter. *)
Definition hasParam (pre : string -> bool) (p : Params.t) : bool :=
  existsb pre (keys p).

End CatalogVocabulary.

Section ProberVocabulary.
Import Runner.

(** A run against one healthy topic triple. *)
Definition sample_context : MutationTestContext :=
  {| allowedTopicArn := "arn:aws:sns:us-east-1:123456789012:allowed";
     deniedTopicArn := "arn:aws:sns:us-east-1:210987654321:denied";
     nonexistentTopicArn :=
       "arn:aws:sns:us-east-1:123456789012:nonexistent-0000";
     allowedRegion := "us-east-1";
     deniedRegion := "us-east-1";
     nonexistentRegion := "us-east-1";
     allowedEndpoint := "https://sns.us-east-1.amazonaws.com";
     deniedEndpoint := "https://sns.us-east-1.amazonaws.com";
     nonexistentEndpoint := "https://sns.us-east-1.amazonaws.com" |}.

(** A network that rejects every request. *)
Definition dead_network : Network := fun _ _ => None.

(** *** Rejected requests

    A trace is rejected when some request in it got no answer. *)
Definition rejected (tr : Trace) : Prop :=
  exists request, In (Sent request None) tr.

(** The last event of the trace is a rejected request, the only one. *)
Definition endsInRejection (tr : Trace) : Prop :=
  exists request tr0,
    tr = (tr0 ++ [Sent request None])%list /\ ~ rejected tr0.

(** A computation stops at the first rejected request: started on a trace
    without one, it leaves one in the trace only as its last event, and
    then it throws [FetchRejected]. *)
Definition failStop {A} (m : M A) : Prop :=
  forall tr r tr',
    ~ rejected tr -> m tr = (r, tr') -> rejected tr' ->
    r = inl Exn.FetchRejected /\ endsInRejection tr'.

(** A network that answers 200 to every request but the [n]-th, which it
    rejects. *)
Definition flaky_network (n : nat) : Network :=
  fun i _ =>
    if Nat.eqb i n then None
    else Some {| status := 200; statusText := "OK"; body := "" |}.

Definition sample_env (network : Network) : Env :=
  {| randomUUID := "0000";
     now := "2026-01-13T12:51:47.000Z";
     credentialsLoaded := true;
     verifyResult :=
       {| success := true;
          identity :=
            Some {| account := "123456789012";
                    arn := "arn:aws:iam::123456789012:user/tester";
                    userId := "AIDAEXAMPLE" |};
          verifyError := None |};
     outputPath := "output/run";
     net := network |}.

Definition sample_options : CliOptions :=
  {| topicArn := "arn:aws:sns:us-east-1:123456789012:allowed";
     mode := Actions.ModeRead;
     optRegion := None;
     compare := Some "arn:aws:sns:us-east-1:210987654321:denied" |}.

(** The allowed leg of remove-action on GetTopicAttributes: the fourth
    request of the sample run, after the three baseline requests. *)
Definition first_mutated_request : Request :=
  {| endpoint := "https://sns.us-east-1.amazonaws.com";
     params := [ ("TopicArn", "arn:aws:sns:us-east-1:123456789012:allowed");
                 ("Version", "2010-03-31") ];
     region := "us-east-1" |}.

End ProberVocabulary.

Section ArnsVocabulary.
Import Arn.

(** A string with no colon in it. *)
Fixpoint colon_free (s : string) : bool :=
  match s with
  | EmptyString => true
  | String c rest => negb (Ascii.eqb c ":") && colon_free rest
  end.

(** An ARN with six parts whose first part is not the word arn. *)
Definition not_an_arn : string :=
  "foo:aws:sns:us-east-1:123456789012:my-topic".

End ArnsVocabulary.

Section ScheduleVocabulary.
Import Actions.

(** In the list [l], every AddPermission is immediately followed by a
    RemovePermission. *)
Definition revokedRightAfterGrant (l : list Action) : Prop :=
  forall (before : list Action) (a : Action) (after : list Action),
    l = (before ++ a :: after)%list -> name a = "AddPermission" ->
    exists b rest, after = b :: rest /\ name b = "RemovePermission".

(** The same, decided on the names of the list. *)
Fixpoint grantThenRevoke (names : list string) : bool :=
  match names with
  | [] => true
  | n :: rest =>
      (if n =? "AddPermission"
       then match rest with
            | next :: _ => next =? "RemovePermission"
            | [] => false
            end
       else true)
      && grantThenRevoke rest
  end.

End ScheduleVocabulary.

(** ** Vocabulary of the further properties *)

Section ActionBuildersVocabulary.
Import Actions.

(** Decides that a list of keys has no duplicate. *)
Fixpoint distinct (ks : list string) : bool :=
  match ks with
  | [] => true
  | k :: rest => negb (existsb (String.eqb k) rest) && distinct rest
  end.

(** What a well-built baseline is: the operation name, the API version, and
    the target under the parameter name the action declares, each key
    once. *)
Definition wellBuilt (version : string) (a : Action) (topicArn : string)
    (p : Params.t) : Prop :=
  Params.get "Action" p = Some (name a)
  /\ Params.get (parameterKey (parameterName a)) p = Some topicArn
  /\ Params.get "Version" p = Some version
  /\ NoDup (Params.keys p).

End ActionBuildersVocabulary.

Section RunLogicVocabulary.
Import Runner.

(** [keeps P m]: started on a trace whose events all satisfy [P], the
    computation [m] ends, returning or throwing, on such a trace. *)
Definition keeps {A} (P : Event -> Prop) (m : M A) : Prop :=
  forall tr r tr', Forall P tr -> m tr = (r, tr') -> Forall P tr'.

End RunLogicVocabulary.

Section ProberTargetsVocabulary.
Import Runner.

(** One of the three legs of a round: the endpoint and region of a
    topic together with that topic's ARN under the action's key. *)
Definition onLeg (ctx : MutationTestContext) (key : string)
    (request : Request) : Prop :=
  (endpoint request = allowedEndpoint ctx
   /\ region request = allowedRegion ctx
   /\ Params.get key (params request) = Some (allowedTopicArn ctx))
  \/ (endpoint request = deniedEndpoint ctx
      /\ region request = deniedRegion ctx
      /\ Params.get key (params request) = Some (deniedTopicArn ctx))
  \/ (endpoint request = nonexistentEndpoint ctx
      /\ region request = nonexistentRegion ctx
      /\ Params.get key (params request) = Some (nonexistentTopicArn ctx)).

(** An event that is a request is a request on one of the legs. *)
Definition sentOnLeg (ctx : MutationTestContext) (key : string)
    (e : Event) : Prop :=
  match e with
  | Sent request _ => onLeg ctx key request
  | _ => True
  end.

End ProberTargetsVocabulary.

Section ProberAccountingVocabulary.
Import Runner.

(** The test of [testActionMutations] that lets a mutation through: it
    changes the baseline request of the allowed topic. *)
Definition changesBaseline (baselineAllowedParams : Params.t)
    (allowedTopicArn : string) (m : Strategies.Mutation) : bool :=
  Strategies.didMutationChangeParams baselineAllowedParams
    (Strategies.apply m baselineAllowedParams allowedTopicArn).

(** The verdict and the reason of an entry are the classifier's, on the
    entry's own three results, under its mutation and action names. *)
Definition classifiedAs (actionName : string) (t : MutationTestResult)
    : Prop :=
  useful t
  = Compare.useful (Compare.isUsefulMutation (topics t)
                      (Some (mutationName t)) (Some actionName))
  /\ reason t
     = Compare.reason (Compare.isUsefulMutation (topics t)
                         (Some (mutationName t)) (Some actionName)).

(** The statuses behind a useful verdict. *)
Definition authBoundaryCrossed (m : Compare.MutationTopics) : Prop :=
  Compare.status (Compare.denied m) = 403%Z
  /\ Compare.status (Compare.allowed m) <> 403%Z
  /\ (Compare.status (Compare.allowed m) = 200%Z
      \/ (400 <= Compare.status (Compare.allowed m) < 500)%Z).

(** What holds of the accumulator of the loop over the mutations. *)
Definition roundsSoFar (actionName : string) (pa : Params.t)
    (allowedTopicArn : string) (sentBefore : nat)
    (done : list Strategies.Mutation)
    (acc : list MutationTestResult * list MutationTestResult)
    (tr : Trace) : Prop :=
  map mutationName (fst acc)
  = map Strategies.name (filter (changesBaseline pa allowedTopicArn) done)
  /\ snd acc = filter useful (fst acc)
  /\ Forall (classifiedAs actionName) (fst acc)
  /\ sentCount tr = sentBefore + 3 * length (fst acc).

End ProberAccountingVocabulary.

Section ProberRunVocabulary.
Import Runner.

(** The tested mutations of all results together. *)
Definition mutationsTested (results : list ActionMutationResult) : nat :=
  list_sum (map (fun r => length (mutations r)) results).

(** The useful mutations of all results together. *)
Definition usefulFound (results : list ActionMutationResult) : nat :=
  list_sum (map (fun r => length (usefulMutations r)) results).

(** What holds of the accumulator of the loop over the actions. *)
Definition actionsSoFar (sentBefore : nat) (done : list Actions.Action)
    (acc : list ActionMutationResult * nat * nat) (tr : Trace) : Prop :=
  map action (fst (fst acc)) = map Actions.name done
  /\ snd (fst acc) = mutationsTested (fst (fst acc))
  /\ snd acc = usefulFound (fst (fst acc))
  /\ usefulFound (fst (fst acc)) <= mutationsTested (fst (fst acc))
  /\ sentCount tr
     = sentBefore
       + 3 * (length (fst (fst acc)) + mutationsTested (fst (fst acc))).



End ProberRunVocabulary.

Section ProberCompletesVocabulary.
Import Runner.


End ProberCompletesVocabulary.

Section ProberExamplesVocabulary.
Import Runner.

(** A service that tells the three topics of [sample_context] apart by the
    TopicArn parameter: the allowed topic's request fails validation
    (400), the denied topic's is refused (403), any other topic is not
    found (404); a request without TopicArn is a bad request. *)
Definition sample_service : Network :=
  fun _ request =>
    let answer st text code :=
      Some {| status := st; statusText := text;
              body := "<ErrorResponse><Error><Type>Sender</Type><Code>"
                      ++ code ++ "</Code></Error></ErrorResponse>" |} in
    match Params.get "TopicArn" (params request) with
    | Some arn =>
        if arn =? allowedTopicArn sample_context then
          answer 400%Z "Bad Request" "InvalidParameter"
        else if arn =? deniedTopicArn sample_context then
          answer 403%Z "Forbidden" "AuthorizationError"
        else answer 404%Z "Not Found" "NotFound"
    | None =>
        Some {| status := 400; statusText := "Bad Request"; body := "" |}
    end.

(** What a computation returned, or [default] when it threw. *)
Definition returned {A T} (default : A) (x : Exn.result A * T) : A :=
  match fst x with
  | inr a => a
  | inl _ => default
  end.

(** The defaults of [returned]: results that report nothing. *)
Definition no_probe : ActionMutationResult :=
  let none := Compare.topicResult 0 None in
  {| action := "";
     baseline := {| Compare.allowed := none; Compare.denied := none;
                    Compare.nonexistent := none |};
     mutations := [];
     usefulMutations := [] |}.

Definition no_run : RequestMutationsResult :=
  {| res_allowedTopicArn := "";
     res_deniedTopicArn := "";
     res_nonexistentTopicArn := "";
     timestamp := "";
     res_mode := Actions.ModeAll;
     actions := [];
     summary := {| totalActions := 0; totalMutationsTested := 0;
                   usefulMutationsFound := 0 |};
     res_outputPath := "" |}.

(** GetTopicAttributes probed against [sample_service]. *)
Definition sample_probe : Exn.result ActionMutationResult * Trace :=
  testActionMutations sample_service
    (Actions.GetTopicAttributes "2010-03-31") sample_context [].

(** The read actions probed against [sample_service]. *)
Definition sample_run : Exn.result RequestMutationsResult * Trace :=
  runRequestMutations "2010-03-31" (sample_env sample_service)
    sample_options [].

End ProberExamplesVocabulary.

Section ResponseParsingVocabulary.
Import Summary.

(** Text without the character that opens a tag. *)
Fixpoint plain (s : string) : bool :=
  match s with
  | EmptyString => true
  | String c rest => negb (Ascii.eqb c "<") && plain rest
  end.

(** [<tag>text</tag>]. *)
Definition element (tag text : string) : string :=
  "<" ++ tag ++ ">" ++ text ++ "</" ++ tag ++ ">".

End ResponseParsingVocabulary.

Section CompareModeVocabulary.
Import Runner CompareReport.

(** The statuses of a comparison agree. *)
Definition sameStatus (c : MutationComparison) : bool :=
  (allowedStatus (comparison c) =? deniedStatus (comparison c))%Z.

(** What holds of the list the loop of [runMutations] builds. *)
Definition comparisonsSoFar (sentBefore : nat) (done : list Actions.Action)
    (comparisons : list MutationComparison) (tr : Trace) : Prop :=
  map action comparisons = map Actions.name done
  /\ Forall (fun c => isMatch (comparison c) = sameStatus c) comparisons
  /\ sentCount tr = sentBefore + 2 * length comparisons.

End CompareModeVocabulary.

Section CompareExamplesVocabulary.
Import Runner.

(** The default of [returned] for the compare mode. *)
Definition no_comparison : CompareRunner.MutationsResult :=
  {| CompareRunner.res_allowedTopicArn := "";
     CompareRunner.res_deniedTopicArn := "";
     CompareRunner.timestamp := "";
     CompareRunner.res_mode := Actions.ModeAll;
     CompareRunner.comparisons := [];
     CompareRunner.summary := CompareReport.createMutationsSummary [];
     CompareRunner.res_outputPath := "" |}.

(** The read actions compared against [sample_service]. *)
Definition sample_comparison
    : Exn.result CompareRunner.MutationsResult * Trace :=
  CompareRunner.runMutations "2010-03-31" (sample_env sample_service)
    sample_options [].

End CompareExamplesVocabulary.

Section VerificationVocabulary.
Import Runner.





End VerificationVocabulary.

Section SummaryFactsVocabulary.
Import SummaryReport.

(** The entry has a signed result. *)
Definition hasSigned (entry : ActionSummary) : bool :=
  match signed entry with
  | Some _ => true
  | None => false
  end.

(** The members every object inherits from [Object.prototype]. *)
Definition inheritedMembers : list string :=
  [ "constructor"; "__proto__"; "hasOwnProperty"; "isPrototypeOf";
    "propertyIsEnumerable"; "toLocaleString"; "toString"; "valueOf";
    "__defineGetter__"; "__defineSetter__"; "__lookupGetter__";
    "__lookupSetter__" ].

(** The entry that [addActionResult] leaves under the name. *)
Definition recorded (before : option ActionSummary) (isSigned : bool)
    (r : ActionSummaryResult) : ActionSummary :=
  let unsigned0 :=
    match before with
    | Some v => unsigned v
    | None => {| status := 0; success := false; error := None;
                 requestId := None |}
    end in
  let signed0 :=
    match before with
    | Some v => signed v
    | None => None
    end in
  if isSigned then {| unsigned := unsigned0; signed := Some r |}
  else {| unsigned := r; signed := signed0 |}.

End SummaryFactsVocabulary.

Section ProbeLogicVocabulary.
Import Probe.

(** [keeps P m], for the probe mode: started on a trace whose events all
    satisfy [P], the computation ends, returning or throwing, on such a
    trace. *)
Definition probeKeeps {A} (P : Event -> Prop) (m : M A) : Prop :=
  forall tr r tr', Forall P tr -> m tr = (r, tr') -> Forall P tr'.

End ProbeLogicVocabulary.

Section ProbeRunVocabulary.
Import Probe SummaryReport.

(** What holds of the summary the loop of [run] builds. *)
Definition probedSoFar (credentials : bool) (sentBefore : nat)
    (done : list Actions.Action) (s : RunSummary) (tr : Trace) : Prop :=
  map fst (results s) = map Actions.name done
  /\ Forall (fun entry => hasSigned entry = credentials)
       (map snd (results s))
  /\ credentialsAvailable s = credentials
  /\ sentCount tr
     = sentBefore + (if credentials then 2 else 1) * length done.

(** The verified credentials of a run: loaded, and verified with an
    identity. *)
Definition verifiedCredentials (env : Env) : bool :=
  credentialsLoaded env
  && (Runner.success (verifyResult env)
      && match Runner.identity (verifyResult env) with
         | Some _ => true
         | None => false
         end).

(** The event asks for no signature. *)
Definition unsignedOnly (e : Event) : Prop :=
  match e with
  | Sent request _ => Probe.signed request = false
  | _ => True
  end.

End ProbeRunVocabulary.

Section ProbeExamplesVocabulary.
Import Probe.

(** A service that lets signed requests through and refuses the others. *)
Definition signature_service : Network :=
  fun _ request =>
    if Probe.signed request then
      Some {| Runner.status := 200; Runner.statusText := "OK";
              Runner.body := "<RequestId>abc-123</RequestId>" |}
    else
      Some {| Runner.status := 403; Runner.statusText := "Forbidden";
              Runner.body :=
                "<ErrorResponse><Error><Type>Sender</Type><Code>MissingAuthenticationToken</Code></Error></ErrorResponse>" |}.

(** An environment whose credentials load; [verified] tells whether they
    verify. *)
Definition probe_env (verified : bool) (network : Network) : Env :=
  {| now := "2026-01-13T12:51:47.000Z";
     credentialsLoaded := true;
     verifyResult :=
       if verified then Runner.verifyResult (sample_env dead_network)
       else {| Runner.success := false; Runner.identity := None;
               Runner.verifyError := Some "ExpiredToken" |};
     outputPath := "output/run";
     net := network |}.

(** The default of [returned] for the probe mode. *)
Definition no_probe_run : RunnerResult :=
  {| summary :=
       SummaryReport.createEmptySummary "" "" "" Actions.ModeAll false;
     res_outputPath := "" |}.

(** The read actions probed with verified credentials. *)
Definition sample_probe_run : Exn.result RunnerResult * Trace :=
  run "2010-03-31" (probe_env true signature_service) sample_options [].

End ProbeExamplesVocabulary.

Section SessionTopicVocabulary.
Import Runner PolicyClassifier SessionErrors.

(** How many results carry the classification. *)
Definition classifiedCount (c : PolicyClassification)
    (results : list ActionSafeModeResult) : nat :=
  length (filter
            (fun r =>
               match classification r, c with
               | Public, Public | PrivateDeny, PrivateDeny
               | PrivateNoPolicy, PrivateNoPolicy | Unknown, Unknown => true
               | _, _ => false
               end)
            results).

(** The classification and the reason of a result are the classifier's, on
    the result's own message (the empty message when it has none). *)
Definition classifiedByMessage (r : ActionSafeModeResult) : Prop :=
  let verdict :=
    classifyFromErrorMessage
      (match errorMessage r with Some m => m | None => "" end) in
  classification r = PolicyClassifier.classification verdict
  /\ SessionErrors.reason r = PolicyClassifier.reason verdict.

(** What holds of the tally the loop of [testTopic] builds. *)
Definition talliedSoFar (sentBefore : nat) (done : list Actions.Action)
    (tally : Tally) (tr : Trace) : Prop :=
  map action (actionResults tally) = map Actions.name done
  /\ Forall classifiedByMessage (actionResults tally)
  /\ publicCount tally = classifiedCount Public (actionResults tally)
  /\ privateDenyCount tally
     = classifiedCount PrivateDeny (actionResults tally)
  /\ privateNoPolicyCount tally
     = classifiedCount PrivateNoPolicy (actionResults tally)
  /\ unknownCount tally = classifiedCount Unknown (actionResults tally)
  /\ sentCount tr = sentBefore + length done.

End SessionTopicVocabulary.

Section SessionExamplesVocabulary.
Import Runner SessionErrors.

(** A service under a deny-all session: GetTopicAttributes is refused by
    the session policy alone, every other action by the lack of a
    resource-based policy as well. *)
Definition session_service : Network :=
  fun _ request =>
    let denial because :=
      Some {| Runner.status := 403; Runner.statusText := "Forbidden";
              Runner.body := "<ErrorResponse><Error><Type>Sender</Type><Code>AuthorizationError</Code><Message>User is not authorized to perform this action because "
                      ++ because
                      ++ "</Message></Error></ErrorResponse>" |} in
    match Params.get "Action" (params request) with
    | Some "GetTopicAttributes" =>
        denial "no session policy allows the action"
    | _ => denial "no resource-based policy allows the action"
    end.

(** The default of [returned] for a topic test. *)
Definition no_topic : TopicSafeModeResult :=
  {| topicArn := "";
     actions := [];
     summary := {| total := 0; public := 0; privateDeny := 0;
                   privateNoPolicy := 0; unknown := 0 |} |}.

(** The read actions against one topic under [session_service]. *)
Definition sample_topic : Exn.result TopicSafeModeResult * Trace :=
  testTopic session_service "arn:aws:sns:us-east-1:123456789012:allowed"
    (Actions.getActionsByMode "2010-03-31" Actions.ModeRead) [].

End SessionExamplesVocabulary.

Section CommandLineVocabulary.
Import Cli.

(** What a mode needs from the options it is entered with. *)
Definition modeInputs (options : CliOptions) (command : Command) : Prop :=
  match command with
  | RunSessionErrors =>
      exists role topics,
        sessionErrorsRoleArn options = Some role /\ role <> ""
        /\ sessionErrorsTopics options = Some topics /\ topics <> []
  | RunRequestMutations | RunMutations =>
      exists denied,
        topicArn options <> ""
        /\ allowTopicArn options = Some (topicArn options)
        /\ compare options = Some denied /\ denied <> ""
  | Run =>
      topicArn options <> "" /\ compare options = None
      /\ allowTopicArn options = None
  end.

(** The options of a request-mutations run over two topics. *)
Definition sample_opts : Opts :=
  {| read := false;
     safe := true;
     opt_compare := NotGiven;
     opt_requestMutations :=
       Values [ "arn:aws:sns:us-east-1:123456789012:allowed";
                "arn:aws:sns:us-east-1:210987654321:denied" ];
     opt_sessionErrors := NotGiven;
     opt_region := None;
     opt_verbose := false;
     opt_output := None |}.

(** What [parseOptions] makes of them. *)
Definition sample_cli_options : CliOptions :=
  {| topicArn := "arn:aws:sns:us-east-1:123456789012:allowed";
     mode := Actions.ModeSafe;
     region := None;
     verbose := false;
     outputDir := "output";
     compare := Some "arn:aws:sns:us-east-1:210987654321:denied";
     allowTopicArn := Some "arn:aws:sns:us-east-1:123456789012:allowed";
     requestMutations := true;
     sessionErrorsRoleArn := None;
     sessionErrorsTopics := None |}.

End CommandLineVocabulary.

(** * Properties *)

(** ** The unit tests of the repository, replayed on the model *)

Section UnitTests.
Import Compare Strategies.

Example test_pre_auth_all_three :
  isUsefulMutation
    {| allowed := topicResult 400 (Some "ValidationError");
       denied := topicResult 400 (Some "ValidationError");
       nonexistent := topicResult 400 (Some "ValidationError") |}
    None None =
  {| useful := false;
     reason := "Pre-auth validation: all topics return "
               ++ Js.quoted (Some "ValidationError")
               ++ " (auth not checked)" |}.
Proof. reflexivity. Qed.

Example test_nonexistent_404 :
  isUsefulMutation
    {| allowed := topicResult 400 (Some "InvalidParameter");
       denied := topicResult 403 (Some "AuthorizationError");
       nonexistent := topicResult 404 (Some "NotFound") |}
    None None =
  {| useful := true;
     reason := "Safe probe: auth passed then "
               ++ Js.quoted (Some "InvalidParameter")
               ++ " (denied=403, nonexistent=404)" |}.
Proof. reflexivity. Qed.

Example test_200_not_on_list :
  isUsefulMutation
    {| allowed := topicResult 200 None;
       denied := topicResult 403 (Some "AuthorizationError");
       nonexistent := topicResult 403 (Some "AuthorizationError") |}
    (Some "some-mutation") (Some "SomeAction") =
  {| useful := false;
     reason := "Allowed returned 200 but mutation not in safe probe list" |}.
Proof. reflexivity. Qed.

Example test_removeTagKey :
  apply removeTagKey
    [ ("Action", "TagResource"); ("ResourceArn", "arn:x");
      ("Tags.member.1.Key", "mykey"); ("Tags.member.1.Value", "myvalue") ]
    "arn:x" =
  [ ("Action", "TagResource"); ("ResourceArn", "arn:x");
    ("Tags.member.1.Value", "myvalue") ].
Proof. reflexivity. Qed.

Example test_endpointToArn_absent :
  apply endpointToArn [ ("Action", "Publish"); ("TopicArn", "arn:x") ] "arn:x"
  = [ ("Action", "Publish"); ("TopicArn", "arn:x") ].
Proof. reflexivity. Qed.

Example test_change_detector_order :
  didMutationChangeParams [ ("b", "2"); ("a", "1") ] [ ("a", "1"); ("b", "2") ]
  = false.
Proof. reflexivity. Qed.

Example test_change_detector_value :
  didMutationChangeParams [ ("a", "1") ] [ ("a", "2") ] = true.
Proof. reflexivity. Qed.

Example test_catalog_size :
  length (getMutationsForAction "GetTopicAttributes") = 41.
Proof. reflexivity. Qed.

End UnitTests.

(** ** Strings and JavaScript values *)

Lemma strict_eq_iff (a b : option string) :
  Js.strict_eq a b = true <-> a = b.
Proof.
  destruct a as [x|], b as [y|]; simpl; split; intro H;
    try discriminate; try reflexivity.
  - apply String.eqb_eq in H. now subst.
  - injection H as ->. apply String.eqb_refl.
Qed.

Lemma strict_eq_refl (a : option string) : Js.strict_eq a a = true.
Proof. now apply strict_eq_iff. Qed.

Lemma colon_free_app_colon (a m : string) :
  colon_free (a ++ String ":" m) = false.
Proof.
  induction a as [|c a IH]; simpl in *.
  - reflexivity.
  - rewrite IH. apply andb_false_r.
Qed.

(** A key [a:m] equals [x:y] with colon-free [x] and [y] only when
    [a = x] and [m = y]. *)
Lemma key_split (a m x y : string) :
  colon_free x = true -> colon_free y = true ->
  a ++ ":" ++ m = x ++ ":" ++ y -> a = x /\ m = y.
Proof.
  revert x. induction a as [|c a IH]; intros x Hx Hy E.
  - destruct x as [|d x]; simpl in E.
    + injection E as E. now subst.
    + injection E as Ec _. subst d. simpl in Hx. discriminate.
  - destruct x as [|d x]; simpl in E.
    + injection E as Ec E. rewrite <- E in Hy.
      now rewrite colon_free_app_colon in Hy.
    + injection E as Ec E. subst d. simpl in Hx.
      apply andb_prop in Hx. destruct Hx as [_ Hx].
      destruct (IH x Hx Hy E) as [-> ->]. now split.
Qed.

(** ** The classifier *)

Section Classifier.
Import Compare.

(** Both names of a pair on the safe-probe list are non-empty strings. *)
Lemma safe_probe_names_truthy (actionName mutationName : option string) :
  has SAFE_PROBE_MUTATIONS (probeKey actionName mutationName) = true ->
  Js.truthy mutationName = true /\ Js.truthy actionName = true.
Proof.
  unfold has, SAFE_PROBE_MUTATIONS, probeKey. simpl existsb.
  rewrite orb_false_r. intro H. apply orb_prop in H.
  destruct H as [H|H]; apply String.eqb_eq in H.
  - apply (key_split _ _ "UntagResource" "nonexistent-tag-key") in H;
      try reflexivity.
    destruct H as [Ha Hm].
    destruct actionName, mutationName; simpl in *; subst;
      try discriminate; now split.
  - apply (key_split _ _ "RemovePermission" "invalid-label") in H;
      try reflexivity.
    destruct H as [Ha Hm].
    destruct actionName, mutationName; simpl in *; subst;
      try discriminate; now split.
Qed.

Lemma mentions_auth_passed (rest : string) :
  Js.includes ("Safe probe: auth passed then " ++ rest) "auth passed" = true.
Proof. reflexivity. Qed.

Lemma noop_condition_false (m : MutationTopics)
    (mutationName actionName : option string) :
  ~ noop_rule_applies m mutationName actionName ->
  Js.truthy mutationName && Js.truthy actionName
  && has SAFE_PROBE_MUTATIONS (probeKey actionName mutationName)
  && (status (allowed m) =? 200)%Z && (status (denied m) =? 403)%Z = false.
Proof.
  intro H. apply not_true_is_false. intro C.
  apply andb_prop in C. destruct C as [C C5].
  apply andb_prop in C. destruct C as [C C4].
  apply andb_prop in C. destruct C as [_ C3].
  apply H. repeat split; auto; now apply Z.eqb_eq.
Qed.

(** Turns boolean tests on statuses into arithmetic facts. *)
Ltac status_facts :=
  repeat match goal with
  | H : (_ =? _)%Z = true |- _ => apply Z.eqb_eq in H
  | H : (_ =? _)%Z = false |- _ => apply Z.eqb_neq in H
  | H : (_ <=? _)%Z = true |- _ => apply Z.leb_le in H
  | H : (_ <=? _)%Z = false |- _ => apply Z.leb_gt in H
  | H : (_ <? _)%Z = true |- _ => apply Z.ltb_lt in H
  | H : (_ <? _)%Z = false |- _ => apply Z.ltb_ge in H
  end.

(** C1.  Safe-probe rule.  A triple that reaches rule 5 of the decision list
    (the allowed status is not 403, the denied status is 403, and the
    nonexistent outcome does not reproduce both the allowed status and the
    allowed error code), whose nonexistent status is 403 or 404 and whose
    allowed status is a 4xx other than 403, is classified useful; the reason
    is the safe-probe message, which starts with the words Safe probe and
    mentions auth passed. *)
Theorem safe_probe_rule (m : MutationTopics)
    (mutationName actionName : option string)
    (Hallowed : status (allowed m) <> 403%Z)
    (Hdenied : status (denied m) = 403%Z)
    (Hnomatch : ~ (status (nonexistent m) = status (allowed m)
                   /\ errorCode (nonexistent m) = errorCode (allowed m)))
    (Hnonexistent : status (nonexistent m) = 403%Z
                    \/ status (nonexistent m) = 404%Z)
    (H4xx : (400 <= status (allowed m) < 500)%Z) :
  let verdict := isUsefulMutation m mutationName actionName in
  useful verdict = true
  /\ reason verdict =
       "Safe probe: auth passed then " ++ Js.quoted (errorCode (allowed m))
       ++ " (denied=403, nonexistent="
       ++ Js.show_num (status (nonexistent m)) ++ ")"
  /\ Js.startsWith (reason verdict) "Safe probe" = true
  /\ Js.includes (reason verdict) "auth passed" = true.
Proof.
  assert (E : isUsefulMutation m mutationName actionName =
              {| useful := true;
                 reason :=
                   "Safe probe: auth passed then "
                   ++ Js.quoted (errorCode (allowed m))
                   ++ " (denied=403, nonexistent="
                   ++ Js.show_num (status (nonexistent m)) ++ ")" |}).
  { unfold isUsefulMutation; cbv zeta.
    rewrite noop_condition_false
      by (unfold noop_rule_applies; intros (_ & H200 & _); lia).
    assert (NM : Js.strict_eq (errorCode (nonexistent m))
                   (errorCode (allowed m))
                 && (status (nonexistent m) =? status (allowed m))%Z = false).
    { apply not_true_is_false. intro NM.
      apply andb_prop in NM. destruct NM as [C S]. status_facts.
      apply strict_eq_iff in C. apply Hnomatch. now split. }
    assert (R4 : ((status (nonexistent m) =? 403)%Z
                  || (status (nonexistent m) =? 404)%Z)
                 && (400 <=? status (allowed m))%Z
                 && (status (allowed m) <? 500)%Z
                 && negb (status (allowed m) =? 403)%Z = true).
    { repeat (apply andb_true_intro; split).
      - apply orb_true_iff.
        destruct Hnonexistent as [H|H]; [left|right]; now apply Z.eqb_eq.
      - apply Z.leb_le. lia.
      - apply Z.ltb_lt. lia.
      - apply negb_true_iff. now apply Z.eqb_neq. }
    rewrite NM, R4.
    replace (status (allowed m) =? 403)%Z with false
      by (symmetry; now apply Z.eqb_neq).
    replace (status (denied m) =? 403)%Z with true
      by (symmetry; now apply Z.eqb_eq).
    reflexivity. }
  intro verdict. subst verdict. rewrite E. cbn [useful reason].
  split; [reflexivity|].
  split; [reflexivity|].
  split; [reflexivity|apply mentions_auth_passed].
Qed.

Lemma safe_probe_rule_witness :
  let verdict := isUsefulMutation safe_probe_example None None in
  useful verdict = true
  /\ reason verdict =
       "Safe probe: auth passed then "
       ++ Js.quoted (Some "InvalidParameter")
       ++ " (denied=403, nonexistent=403)"
  /\ Js.startsWith (reason verdict) "Safe probe" = true
  /\ Js.includes (reason verdict) "auth passed" = true.
Proof.
  apply (safe_probe_rule safe_probe_example None None).
  - simpl. lia.
  - reflexivity.
  - simpl. intros [H _]. discriminate H.
  - left. reflexivity.
  - simpl. lia.
Defined.

(** C2.  No-op rule.  When the pair (action, mutation) is on the fixed
    safe-probe list, the allowed status is 200 and the denied status is 403,
    the verdict is useful with the no-op-probe reason, whatever the rest of
    the triple holds. *)
Theorem noop_probe_rule (m : MutationTopics)
    (mutationName actionName : option string)
    (Hlisted : has SAFE_PROBE_MUTATIONS (probeKey actionName mutationName)
               = true)
    (Hallowed : status (allowed m) = 200%Z)
    (Hdenied : status (denied m) = 403%Z) :
  isUsefulMutation m mutationName actionName =
  {| useful := true;
     reason := "No-op probe: 200 success with no side effects" |}.
Proof.
  destruct (safe_probe_names_truthy _ _ Hlisted) as [Hm Ha].
  unfold isUsefulMutation; cbv zeta.
  rewrite Hm, Ha, Hlisted, Hallowed, Hdenied. reflexivity.
Qed.

(** The pair of C2, (UntagResource, nonexistent-tag-key), is on the list:
    with allowed=(200, none) and denied=(403, AuthorizationError) the
    verdict is the no-op probe. *)
Lemma noop_probe_rule_witness :
  has SAFE_PROBE_MUTATIONS
    (probeKey (Some "UntagResource") (Some "nonexistent-tag-key")) = true
  /\ isUsefulMutation
       {| allowed := topicResult 200 None;
          denied := topicResult 403 (Some "AuthorizationError");
          nonexistent := topicResult 403 (Some "AuthorizationError") |}
       (Some "nonexistent-tag-key") (Some "UntagResource") =
     {| useful := true;
        reason := "No-op probe: 200 success with no side effects" |}.
Proof.
  split.
  - reflexivity.
  - apply noop_probe_rule; reflexivity.
Defined.

(** C3.  Authorization failed on the allowed target.  When the allowed
    status is 403 the verdict is not useful, whatever the denied and
    nonexistent outcomes are and whether or not the pair is on the
    safe-probe list. *)
Theorem allowed_403_not_useful (m : MutationTopics)
    (mutationName actionName : option string)
    (Hallowed : status (allowed m) = 403%Z) :
  isUsefulMutation m mutationName actionName =
  {| useful := false;
     reason := "Allowed topic returned 403 (auth failed)" |}.
Proof.
  unfold isUsefulMutation; cbv zeta.
  rewrite Hallowed. simpl (403 =? 200)%Z. simpl (403 =? 403)%Z.
  rewrite andb_false_r. reflexivity.
Qed.

Lemma allowed_403_not_useful_witness :
  isUsefulMutation
    {| allowed := topicResult 403 (Some "AuthorizationError");
       denied := topicResult 403 (Some "AuthorizationError");
       nonexistent := topicResult 404 (Some "NotFound") |}
    (Some "nonexistent-tag-key") (Some "UntagResource") =
  {| useful := false;
     reason := "Allowed topic returned 403 (auth failed)" |}.
Proof.
  apply allowed_403_not_useful. reflexivity.
Defined.

(** C10.  A useful verdict needs a denial.  Whenever the verdict is useful,
    in the no-op branch or in the safe-probe branch, the denied status
    is 403. *)
Theorem useful_implies_denied_403 (m : MutationTopics)
    (mutationName actionName : option string)
    (Huseful : useful (isUsefulMutation m mutationName actionName) = true) :
  status (denied m) = 403%Z.
Proof.
  unfold isUsefulMutation in Huseful; cbv zeta in Huseful.
  destruct (status (denied m) =? 403)%Z eqn:D403.
  - now apply Z.eqb_eq.
  - rewrite andb_false_r in Huseful. simpl negb in Huseful.
    destruct (status (allowed m) =? 403)%Z; [discriminate|].
    destruct (Js.strict_eq (errorCode (denied m)) (errorCode (allowed m)));
      discriminate.
Qed.

Lemma useful_implies_denied_403_witness :
  status (denied safe_probe_example) = 403%Z.
Proof.
  apply (useful_implies_denied_403 safe_probe_example None None).
  reflexivity.
Defined.

(** C4, as stated, fails.  With the error code absent on both sides the
    classifier does take the two identical-failure rules: [undefined ===
    undefined] holds, and the verdict is the pre-auth one, quoting the
    code as undefined. *)
Lemma absent_codes_counterexample :
  (errorCode (allowed absent_codes_example_3a) = None
   /\ errorCode (denied absent_codes_example_3a) = None
   /\ status (denied absent_codes_example_3a) <> 403%Z
   /\ isUsefulMutation absent_codes_example_3a None None =
      {| useful := false;
         reason := "Pre-auth validation: all topics return "
                   ++ Js.dquote ++ "undefined" ++ Js.dquote
                   ++ " (auth not checked)" |})
  /\ (errorCode (allowed absent_codes_example_4) = None
      /\ errorCode (nonexistent absent_codes_example_4) = None
      /\ status (nonexistent absent_codes_example_4)
         = status (allowed absent_codes_example_4)
      /\ isUsefulMutation absent_codes_example_4 None None =
         {| useful := false;
            reason := "Pre-auth validation: nonexistent also returns "
                      ++ Js.dquote ++ "undefined" ++ Js.dquote |}).
Proof.
  repeat split; try reflexivity. simpl. lia.
Qed.

(** C4, amended.  Two absent error codes compare as equal.  When the
    allowed status is not 403 and the allowed code is absent:
    - if the denied status is not 403 and the denied code is absent too,
      the verdict is the pre-auth verdict of rule 3a;
    - if the denied status is 403, the no-op rule does not apply, the
      nonexistent code is absent too and the nonexistent status equals the
      allowed one, the verdict is the pre-auth verdict of rule 4.
    Both reasons quote the code as undefined. *)
Theorem absent_codes_match (m : MutationTopics)
    (mutationName actionName : option string)
    (Hallowed : status (allowed m) <> 403%Z)
    (Hcode : errorCode (allowed m) = None) :
  (status (denied m) <> 403%Z -> errorCode (denied m) = None ->
   isUsefulMutation m mutationName actionName =
   {| useful := false;
      reason := "Pre-auth validation: all topics return "
                ++ Js.quoted None ++ " (auth not checked)" |})
  /\ (status (denied m) = 403%Z ->
      ~ noop_rule_applies m mutationName actionName ->
      errorCode (nonexistent m) = None ->
      status (nonexistent m) = status (allowed m) ->
      isUsefulMutation m mutationName actionName =
      {| useful := false;
         reason := "Pre-auth validation: nonexistent also returns "
                   ++ Js.quoted None |}).
Proof.
  split.
  - intros Hdenied Hd.
    unfold isUsefulMutation; cbv zeta.
    rewrite noop_condition_false
      by (intros (_ & _ & H403); contradiction).
    rewrite Hcode, Hd.
    replace (status (allowed m) =? 403)%Z with false
      by (symmetry; now apply Z.eqb_neq).
    replace (status (denied m) =? 403)%Z with false
      by (symmetry; now apply Z.eqb_neq).
    reflexivity.
  - intros Hdenied Hnoop Hn Hs.
    unfold isUsefulMutation; cbv zeta.
    rewrite (noop_condition_false _ _ _ Hnoop), Hcode, Hn, Hs, Z.eqb_refl.
    replace (status (allowed m) =? 403)%Z with false
      by (symmetry; now apply Z.eqb_neq).
    replace (status (denied m) =? 403)%Z with true
      by (symmetry; now apply Z.eqb_eq).
    reflexivity.
Qed.

Lemma absent_codes_match_witness :
  isUsefulMutation absent_codes_example_3a None None =
  {| useful := false;
     reason := "Pre-auth validation: all topics return "
               ++ Js.quoted None ++ " (auth not checked)" |}
  /\ isUsefulMutation absent_codes_example_4 (Some "empty-label")
       (Some "RemovePermission") =
     {| useful := false;
        reason := "Pre-auth validation: nonexistent also returns "
                  ++ Js.quoted None |}.
Proof.
  split.
  - apply (proj1 (absent_codes_match absent_codes_example_3a None None
                    ltac:(simpl; lia) eq_refl)).
    + simpl. lia.
    + reflexivity.
  - apply (proj2 (absent_codes_match absent_codes_example_4
                    (Some "empty-label") (Some "RemovePermission")
                    ltac:(simpl; lia) eq_refl)).
    + reflexivity.
    + intros (H & _). discriminate H.
    + reflexivity.
    + reflexivity.
Defined.

End Classifier.

(** ** Parameter maps *)

Section ParamsFacts.
Import Params.

Lemma get_del_other (k k' : string) (p : Params.t) :
  (k' =? k) = false -> get k (del k' p) = get k p.
Proof.
  intro Hk. unfold del.
  induction p as [|[k0 v] p IH]; simpl; [reflexivity|].
  destruct (k0 =? k') eqn:E0; simpl.
  - apply String.eqb_eq in E0. subst k0. now rewrite Hk.
  - destruct (k0 =? k); [reflexivity|exact IH].
Qed.

Lemma get_set_other (k k' v : string) (p : Params.t) :
  (k' =? k) = false -> get k (set k' v p) = get k p.
Proof.
  intro Hk.
  induction p as [|[k0 v0] p IH]; simpl.
  - now rewrite Hk.
  - destruct (k0 =? k') eqn:E0; simpl.
    + apply String.eqb_eq in E0. subst k0. now rewrite Hk.
    + destruct (k0 =? k); [reflexivity|exact IH].
Qed.

Lemma get_del_all (k : string) (ks : list string) (p : Params.t) :
  Forall (fun x => (x =? k) = false) ks ->
  get k (del_all ks p) = get k p.
Proof.
  unfold del_all. revert p.
  induction ks as [|x ks IH]; intros p Hks; simpl; [reflexivity|].
  inversion Hks as [|? ? Hx Hrest]; subst.
  rewrite IH by assumption. now apply get_del_other.
Qed.

(** Deleting a key that is not there changes nothing. *)
Lemma del_absent (k : string) (p : Params.t) :
  get k p = None -> del k p = p.
Proof.
  unfold del. induction p as [|[k0 v] p IH]; simpl; [reflexivity|].
  destruct (k0 =? k); [discriminate|]. intro H. simpl. now rewrite IH.
Qed.

End ParamsFacts.

(** ** The regular expressions *)

Lemma prefix_app (p s : string) : String.prefix p (p ++ s) = true.
Proof.
  induction p as [|c p IH]; simpl.
  - now destruct s.
  - destruct (ascii_dec c c) as [_|N]; [exact IH|now elim N].
Qed.

Lemma includes_prefix (s needle : string) :
  String.prefix needle s = true -> Js.includes s needle = true.
Proof.
  intro H. destruct s; cbn [Js.includes]; rewrite H; reflexivity.
Qed.

Lemma includes_cons (c : ascii) (s needle : string) :
  Js.includes s needle = true -> Js.includes (String c s) needle = true.
Proof.
  intro H. cbn [Js.includes]. rewrite H. apply orb_true_r.
Qed.

(** [replace] leaves a string alone or puts the replacement into it. *)
Lemma replace_cases (r : Re.Pattern) (by_ s : string) :
  Re.replace r by_ s = s \/ Js.includes (Re.replace r by_ s) by_ = true.
Proof.
  induction s as [|c s IH]; simpl.
  - destruct (Re.match_here r ""); [right|now left].
    apply includes_prefix, prefix_app.
  - destruct (Re.match_here r (String c s)).
    + right. apply includes_prefix, prefix_app.
    + destruct IH as [IH|IH].
      * left. now rewrite IH.
      * right. now apply includes_cons.
Qed.

Lemma replace_neq (r : Re.Pattern) (by_ s k : string) :
  Js.includes k by_ = false -> (s =? k) = false ->
  (Re.replace r by_ s =? k) = false.
Proof.
  intros Hk Hs. apply String.eqb_neq. intro E.
  destruct (replace_cases r by_ s) as [H|H].
  - rewrite H in E. apply String.eqb_neq in Hs. contradiction.
  - rewrite E in H. congruence.
Qed.

(** ** The mutation catalog *)

Section CatalogFacts.
Import Params Strategies.

(** A key a predicate rejects differs from every key it accepts. *)
Lemma accepted_neq (pred : string -> bool) (k x : string) :
  pred k = false -> pred x = true -> (x =? k) = false.
Proof.
  intros Hk Hx. apply String.eqb_neq. intro E. subst. congruence.
Qed.

Lemma get_ifDefined (k k' : string) (f : Params.t -> Params.t)
    (p : Params.t) :
  get k (f p) = get k p -> get k (ifDefined k' f p) = get k p.
Proof.
  intro H. unfold ifDefined. now destruct (get k' p).
Qed.

Lemma get_withFirstKey (k : string) (pred : string -> bool)
    (f : string -> Params.t) (p : Params.t) :
  pred k = false ->
  (forall key, (key =? k) = false -> get k (f key) = get k p) ->
  get k (withFirstKey pred f p) = get k p.
Proof.
  intros Hk H. unfold withFirstKey.
  destruct (find pred (keys p)) as [key|] eqn:F; [|reflexivity].
  apply find_some in F. destruct F as [_ F].
  apply H. now apply (accepted_neq pred).
Qed.

Lemma get_withAllKeys (k : string) (pred : string -> bool)
    (f : list string -> Params.t) (p : Params.t) :
  pred k = false ->
  (forall ks, Forall (fun x => (x =? k) = false) ks ->
              get k (f ks) = get k p) ->
  get k (withAllKeys pred f p) = get k p.
Proof.
  intros Hk H. unfold withAllKeys.
  assert (A : Forall (fun x => (x =? k) = false) (filter pred (keys p))).
  { apply Forall_forall. intros x Hx. apply filter_In in Hx.
    destruct Hx as [_ Hx]. now apply (accepted_neq pred). }
  destruct (filter pred (keys p)); [reflexivity|now apply H].
Qed.

Lemma get_renameKey (k : string) (r : Re.Pattern) (by_ x : string)
    (p : Params.t) :
  Js.includes k by_ = false -> (x =? k) = false ->
  get k (renameKey r by_ p x) = get k p.
Proof.
  intros Hby Hx. unfold renameKey.
  destruct (get x p) as [v|].
  - rewrite get_del_other by assumption.
    apply get_set_other. now apply replace_neq.
  - now apply get_del_other.
Qed.

Lemma get_fold_renameKey (k : string) (r : Re.Pattern) (by_ : string)
    (ks : list string) (p : Params.t) :
  Js.includes k by_ = false ->
  Forall (fun x => (x =? k) = false) ks ->
  get k (fold_left (renameKey r by_) ks p) = get k p.
Proof.
  intros Hby. revert p.
  induction ks as [|x ks IH]; intros p Hks; simpl; [reflexivity|].
  inversion Hks as [|? ? Hx Hrest]; subst.
  rewrite IH by assumption. now apply get_renameKey.
Qed.

(** Unfolds the transform of a catalog entry down to the map operations. *)
Ltac unfold_mutation :=
  cbv beta iota delta
    [apply removeAction removeVersion endpointToArn removeMessage
     emptyMessage removeBatchMessage emptyBatchMessage removeBatchId
     emptyBatchId invalidActionName removeActionName invalidLabel
     emptyLabel removeLabel specialCharLabel invalidAttributeName
     removeAttributeName emptyTagKey removeTagKey nonExistentTag
     removeTags zeroIndexTag removeTagValue removeTagKeys emptyTagKeys
     nonExistentTagKey longTagKeys zeroIndexTagKey invalidProtocol
     removeProtocol invalidJsonPolicy emptyJsonPolicy
     invalidPolicyStructure removeDataProtectionPolicy longTagKey
     longTagValue longLabel longAttributeValue invalidSignatureVersion
     longEndpoint longSubject].

(** Proves that a transform leaves the value of a literal key alone. *)
Ltac keep_key :=
  unfold_mutation;
  repeat first
    [ reflexivity
    | apply get_ifDefined
    | apply get_withFirstKey; [reflexivity|intros; cbv beta]
    | apply get_withAllKeys; [reflexivity|intros; cbv beta]
    | apply get_del_other; first [reflexivity|assumption]
    | apply get_set_other; first [reflexivity|assumption]
    | apply get_del_all; assumption
    | apply get_fold_renameKey; [reflexivity|assumption]
    | match goal with
      | |- context [if ?c then _ else _] => destruct c
      end ].

(** C7.  No mutation of the catalog touches the resource-identifying
    parameter: for every mutation of [defaultMutations] and
    [parameterMutations], every parameter map and every target ARN, the
    keys TopicArn and ResourceArn have the same value (or the same absence)
    after the mutation as before. *)
Theorem mutations_preserve_resource_arn (actionName : string) (m : Mutation)
    (params : Params.t) (topicArn : string)
    (Hm : In m (getMutationsForAction actionName)) :
  get "TopicArn" (apply m params topicArn) = get "TopicArn" params
  /\ get "ResourceArn" (apply m params topicArn) = get "ResourceArn" params.
Proof.
  unfold getMutationsForAction, defaultMutations, parameterMutations in Hm.
  cbn [In app] in Hm.
  repeat (destruct Hm as [<-|Hm]; [split; keep_key|]).
  contradiction.
Qed.

Lemma mutations_preserve_resource_arn_witness :
  get "TopicArn" (apply zeroIndexTag sample_tag_params "arn:x") = None
  /\ get "ResourceArn" (apply zeroIndexTag sample_tag_params "arn:x")
     = Some "arn:aws:sns:us-east-1:123456789012:my-topic".
Proof.
  apply (mutations_preserve_resource_arn "TagResource" zeroIndexTag
           sample_tag_params "arn:x").
  unfold getMutationsForAction, defaultMutations, parameterMutations.
  cbn [In app]. repeat (first [left; reflexivity | right]).
Defined.

Lemma absent_get (k : string) (p : Params.t) :
  hasParam (String.eqb k) p = false -> get k p = None.
Proof.
  unfold hasParam. induction p as [|[k0 v] p IH]; simpl; [reflexivity|].
  intro H. apply orb_false_iff in H. destruct H as [H0 H].
  rewrite String.eqb_sym, H0. now apply IH.
Qed.

Lemma absent_ifDefined (k : string) (f : Params.t -> Params.t)
    (p : Params.t) :
  hasParam (String.eqb k) p = false -> ifDefined k f p = p.
Proof.
  intro H. unfold ifDefined. now rewrite (absent_get _ _ H).
Qed.

Lemma absent_del (k : string) (p : Params.t) :
  hasParam (String.eqb k) p = false -> del k p = p.
Proof.
  intro H. apply del_absent. now apply absent_get.
Qed.

Lemma absent_withFirstKey (pred : string -> bool) (f : string -> Params.t)
    (p : Params.t) :
  hasParam pred p = false -> withFirstKey pred f p = p.
Proof.
  unfold hasParam, withFirstKey. intro H.
  destruct (find pred (keys p)) as [key|] eqn:F; [|reflexivity].
  apply find_some in F.
  assert (E : existsb pred (keys p) = true)
    by (apply existsb_exists; now exists key).
  congruence.
Qed.

Lemma absent_withAllKeys (pred : string -> bool)
    (f : list string -> Params.t) (p : Params.t) :
  hasParam pred p = false -> withAllKeys pred f p = p.
Proof.
  unfold hasParam, withAllKeys. intro H.
  destruct (filter pred (keys p)) as [|key ks] eqn:F; [reflexivity|].
  assert (Hin : In key (filter pred (keys p))) by (rewrite F; now left).
  apply filter_In in Hin.
  assert (E : existsb pred (keys p) = true)
    by (apply existsb_exists; now exists key).
  congruence.
Qed.

(** The change detector sees no change between a map and itself. *)
Lemma didMutationChangeParams_same (p : Params.t) :
  didMutationChangeParams p p = false.
Proof.
  unfold didMutationChangeParams; cbv zeta.
  rewrite Nat.eqb_refl, String.eqb_refl. simpl negb. cbv iota.
  induction (sort (keys p)) as [|key l IH]; simpl; [reflexivity|].
  now rewrite strict_eq_refl, IH.
Qed.

(** Proves that a transform returns its input when its parameter is absent. *)
Ltac skip_mutation H :=
  unfold_mutation;
  first
    [ now apply absent_ifDefined
    | now apply absent_del
    | now apply absent_withFirstKey
    | now apply absent_withAllKeys
    | now rewrite (absent_get _ _ H) ].

Lemma absent_precondition_identity (m : Mutation) (pre : string -> bool)
    (params : Params.t) (topicArn : string) :
  In (m, pre) mutationPreconditions ->
  hasParam pre params = false ->
  apply m params topicArn = params.
Proof.
  assert (A : Forall
                (fun mp =>
                   forall p t, hasParam (snd mp) p = false ->
                               apply (fst mp) p t = p)
                mutationPreconditions).
  { unfold mutationPreconditions.
    repeat (apply Forall_cons;
            [cbn [fst snd]; intros p t Habsent; skip_mutation Habsent|]).
    apply Forall_nil. }
  intros Hm. rewrite Forall_forall in A. exact (A (m, pre) Hm params topicArn).
Qed.

(** The two keys that name a target survive every transform, key by key. *)
Lemma catalog_keeps_key (k : string) (m : Mutation) (params : Params.t)
    (topicArn : string) :
  k = "TopicArn" \/ k = "ResourceArn" ->
  In m (defaultMutations ++ parameterMutations)%list ->
  get k (apply m params topicArn) = get k params.
Proof.
  intros Hk Hm. unfold defaultMutations, parameterMutations in Hm.
  cbn [In app] in Hm.
  destruct Hk as [-> | ->];
    repeat (destruct Hm as [<-|Hm]; [keep_key|]); contradiction.
Qed.

End CatalogFacts.

(** ** The prober *)

Section ProberFacts.
Import Runner.

(** C6.  A mutation whose precondition parameter is absent is skipped.  The
    table [mutationPreconditions] covers the whole catalog, and for each of
    its mutations and every baseline map without the precondition parameter
    (so for the baseline of every action): the transform returns its input,
    the change detector reports no change, and the round of the prober for
    that pair ends at [continue], with the trace as it was (no request is
    sent) and no result recorded. *)
Theorem absent_precondition_skips_probe (actionName : string) :
  map fst mutationPreconditions = Strategies.getMutationsForAction actionName
  /\ forall (m : Strategies.Mutation) (pre : string -> bool),
       In (m, pre) mutationPreconditions ->
       forall (net : Network) (ctx : MutationTestContext)
              (baselineAllowedParams baselineDeniedParams
                 baselineNonexistentParams : Params.t)
              (acc : list MutationTestResult * list MutationTestResult)
              (tr : Trace),
         hasParam pre baselineAllowedParams = false ->
         Strategies.apply m baselineAllowedParams (allowedTopicArn ctx)
         = baselineAllowedParams
         /\ Strategies.didMutationChangeParams baselineAllowedParams
              (Strategies.apply m baselineAllowedParams (allowedTopicArn ctx))
            = false
         /\ mutationRound net actionName ctx baselineAllowedParams
              baselineDeniedParams baselineNonexistentParams acc m tr
            = (inr acc, tr).
Proof.
  split; [reflexivity|].
  intros m pre Hm net ctx pa pd pn acc tr Habsent.
  pose proof (absent_precondition_identity m pre pa (allowedTopicArn ctx)
                Hm Habsent) as E.
  split; [exact E|].
  split.
  - rewrite E. apply didMutationChangeParams_same.
  - unfold mutationRound; cbv zeta.
    rewrite E, didMutationChangeParams_same. reflexivity.
Qed.

(** GetTopicAttributes has no Message: the round of remove-message sends
    nothing, even on a network that would reject the request. *)
Lemma absent_precondition_skips_probe_witness :
  exists baseline,
    Actions.buildParams (Actions.GetTopicAttributes "2010-03-31")
      (allowedTopicArn sample_context) = inr baseline
    /\ Strategies.apply Strategies.removeMessage baseline
         (allowedTopicArn sample_context) = baseline
    /\ Strategies.didMutationChangeParams baseline
         (Strategies.apply Strategies.removeMessage baseline
            (allowedTopicArn sample_context)) = false
    /\ mutationRound dead_network "GetTopicAttributes" sample_context
         baseline baseline baseline ([], []) Strategies.removeMessage []
       = (inr ([], []), []).
Proof.
  eexists. split; [reflexivity|].
  apply (proj2 (absent_precondition_skips_probe "GetTopicAttributes")
           Strategies.removeMessage (String.eqb "Message")).
  - unfold mutationPreconditions. cbn [In].
    repeat (first [left; reflexivity | right]).
  - reflexivity.
Defined.

Lemma rejected_snoc (tr : Trace) (e : Event) :
  rejected (tr ++ [e])%list ->
  rejected tr \/ exists request, e = Sent request None.
Proof.
  intros [request H]. apply in_app_or in H. destruct H as [H|[H|[]]].
  - left. now exists request.
  - right. now exists request.
Qed.

Lemma failStop_mret {A} (a : A) : failStop (mret a).
Proof.
  intros tr r tr' Hok E Hrej. injection E as <- <-. contradiction.
Qed.

Lemma failStop_mthrow {A} (e : Exn.t) : failStop (@mthrow A e).
Proof.
  intros tr r tr' Hok E Hrej. injection E as <- <-. contradiction.
Qed.

Lemma failStop_lift {A} (x : Exn.result A) : failStop (lift x).
Proof.
  intros tr r tr' Hok E Hrej. injection E as <- <-. contradiction.
Qed.

Lemma failStop_emit (e : Event) :
  isSent e = false -> failStop (emit e).
Proof.
  intros He tr r tr' Hok E Hrej. injection E as <- <-.
  apply rejected_snoc in Hrej. destruct Hrej as [H|[request H]].
  - contradiction.
  - subst e. discriminate.
Qed.

Lemma failStop_send (net : Network) (endpoint : string) (params : Params.t)
    (region : string) :
  failStop (sendSignedRequest net endpoint params region).
Proof.
  intros tr r tr' Hok E Hrej. unfold sendSignedRequest in E.
  destruct (net (sentCount tr) (mkRequest endpoint params region))
    as [response|]; injection E as <- <-.
  - apply rejected_snoc in Hrej. destruct Hrej as [H|[request H]].
    + contradiction.
    + discriminate.
  - split; [reflexivity|].
    exists (mkRequest endpoint params region), tr. now split.
Qed.

Lemma failStop_mbind {A B} (m : M A) (k : A -> M B) :
  failStop m -> (forall a, failStop (k a)) -> failStop (mbind m k).
Proof.
  intros Hm Hk tr r tr' Hok E Hrej. unfold mbind in E.
  destruct (m tr) as [[e|a] tr1] eqn:Em.
  - injection E as <- <-.
    destruct (Hm tr (inl e) tr1 Hok Em Hrej) as [He Hlast].
    injection He as ->. now split.
  - assert (Hok1 : ~ rejected tr1).
    { intro H1. destruct (Hm tr (inr a) tr1 Hok Em H1) as [Habs _].
      discriminate. }
    exact (Hk a tr1 r tr' Hok1 E Hrej).
Qed.

Lemma failStop_forEach {A S} (xs : list A) (body : S -> A -> M S) :
  (forall acc x, failStop (body acc x)) ->
  forall acc, failStop (forEach xs body acc).
Proof.
  intro Hbody. induction xs as [|x xs IH]; intro acc; simpl.
  - apply failStop_mret.
  - apply failStop_mbind; [apply Hbody|exact IH].
Qed.

(** Breaks a computation of the runner into its steps. *)
Ltac fail_stop_with known :=
  repeat first
    [ known
    | apply failStop_mret
    | apply failStop_mthrow
    | apply failStop_lift
    | apply failStop_emit; reflexivity
    | apply failStop_send
    | apply failStop_forEach; intros
    | apply failStop_mbind; [|intros]
    | match goal with
      | |- failStop (if ?c then _ else _) => destruct c
      | |- failStop (match ?x with _ => _ end) => destruct x
      | |- failStop (let _ := _ in _) => cbv zeta
      end ].

Lemma failStop_mutationRound (net : Network) (actionName : string)
    (ctx : MutationTestContext) (pa pd pn : Params.t)
    (acc : list MutationTestResult * list MutationTestResult)
    (mutation : Strategies.Mutation) :
  failStop (mutationRound net actionName ctx pa pd pn acc mutation).
Proof.
  unfold mutationRound, writeLogs, writeScripts. fail_stop_with fail.
Qed.

Lemma failStop_testActionMutations (net : Network) (action : Actions.Action)
    (ctx : MutationTestContext) :
  failStop (testActionMutations net action ctx).
Proof.
  unfold testActionMutations, writeLogs, writeScripts.
  fail_stop_with ltac:(apply failStop_mutationRound).
Qed.

Lemma failStop_runRequestMutations (version : string) (env : Env)
    (options : CliOptions) :
  failStop (runRequestMutations version env options).
Proof.
  unfold runRequestMutations, actionRound.
  fail_stop_with ltac:(apply failStop_testActionMutations).
Qed.

(** C5, as stated, fails.  In the sample run the network rejects the first
    leg of the first mutation.  The run does not record an inconclusive
    verdict and go on to the next mutation: the rejection is caught nowhere,
    the run throws it, has no result, and the rejected request is the
    fourth and last one sent. *)
Lemma transport_failure_counterexample :
  let out :=
    runRequestMutations "2010-03-31" (sample_env (flaky_network 3))
      sample_options [] in
  fst out = inl Exn.FetchRejected
  /\ sentCount (snd out) = 4
  /\ last (snd out) (OutputDirectory "") = Sent first_mutated_request None.
Proof.
  vm_compute. repeat split.
Qed.

(** C5, amended.  A rejected request ends the run.  If the network rejects
    any request of [runRequestMutations], a baseline leg or a mutation leg,
    the run throws the rejection and returns no result, so no verdict is
    recorded for the mutation under evaluation or for anything after it; the
    rejected request is the last event of the trace, and no request before
    it was rejected. *)
Theorem transport_failure_aborts_run (version : string) (env : Env)
    (options : CliOptions) (r : Exn.result RequestMutationsResult)
    (tr : Trace) (request : Request)
    (Hrun : runRequestMutations version env options [] = (r, tr))
    (Hfail : In (Sent request None) tr) :
  r = inl Exn.FetchRejected
  /\ exists tr0,
       tr = (tr0 ++ [Sent request None])%list /\ ~ rejected tr0.
Proof.
  assert (Hstart : ~ rejected []) by (intros [x []]).
  assert (Hrej : rejected tr) by (now exists request).
  destruct (failStop_runRequestMutations version env options [] r tr
              Hstart Hrun Hrej) as [Hr (request' & tr0 & Htr & Hok)].
  split; [exact Hr|].
  exists tr0. split; [|exact Hok].
  rewrite Htr in Hfail. apply in_app_or in Hfail.
  destruct Hfail as [Hin|[Heq|[]]].
  - exfalso. apply Hok. now exists request.
  - injection Heq as ->. exact Htr.
Qed.

Lemma transport_failure_aborts_run_witness :
  fst (runRequestMutations "2010-03-31" (sample_env (flaky_network 3))
         sample_options []) = inl Exn.FetchRejected.
Proof.
  refine (proj1 (transport_failure_aborts_run "2010-03-31"
                   (sample_env (flaky_network 3)) sample_options _ _
                   first_mutated_request _ _)).
  - apply surjective_pairing.
  - vm_compute. repeat (first [left; reflexivity | right]).
Defined.

End ProberFacts.

(** ** ARNs *)

Lemma split_colon_nonempty (s : string) : Js.split_colon s <> [].
Proof.
  destruct s as [|c s]; simpl; [discriminate|].
  destruct (Ascii.eqb c ":"); [discriminate|].
  destruct (Js.split_colon s); discriminate.
Qed.

Lemma join_cons (sep p : string) (rest : list string) :
  rest <> [] -> Js.join sep (p :: rest) = p ++ sep ++ Js.join sep rest.
Proof.
  destruct rest; [contradiction|reflexivity].
Qed.

(** Joining the parts of a split gives the string back. *)
Lemma join_split_colon (s : string) : Js.join ":" (Js.split_colon s) = s.
Proof.
  induction s as [|c s IH]; [reflexivity|].
  cbn [Js.split_colon].
  destruct (Ascii.eqb c ":") eqn:E.
  - apply Ascii.eqb_eq in E. subst c.
    rewrite join_cons by apply split_colon_nonempty.
    now rewrite IH.
  - pose proof (split_colon_nonempty s) as N.
    destruct (Js.split_colon s) as [|p ps]; [contradiction|].
    rewrite <- IH. destruct ps; reflexivity.
Qed.

Lemma split_colon_free (a : string) :
  colon_free a = true -> Js.split_colon a = [a].
Proof.
  induction a as [|c a IH]; [reflexivity|].
  cbn [colon_free Js.split_colon]. intro H.
  apply andb_prop in H. destruct H as [Hc Ha].
  apply negb_true_iff in Hc. rewrite Hc, (IH Ha). reflexivity.
Qed.

Lemma split_colon_app (a s : string) :
  colon_free a = true ->
  Js.split_colon (a ++ String ":" s) = a :: Js.split_colon s.
Proof.
  induction a as [|c a IH]; [reflexivity|].
  cbn [colon_free Js.split_colon append]. intro H.
  apply andb_prop in H. destruct H as [Hc Ha].
  apply negb_true_iff in Hc. rewrite Hc, (IH Ha). reflexivity.
Qed.

Lemma split_colon_parts_free (s : string) :
  Forall (fun part => colon_free part = true) (Js.split_colon s).
Proof.
  induction s as [|c s IH]; cbn [Js.split_colon].
  - now constructor.
  - destruct (Ascii.eqb c ":") eqn:E.
    + now constructor.
    + destruct (Js.split_colon s) as [|p ps].
      * constructor; [|constructor]. cbn [colon_free]. now rewrite E.
      * inversion IH as [|? ? Hp Hps]; subst.
        constructor; [|exact Hps].
        cbn [colon_free]. now rewrite E, Hp.
Qed.

Lemma includes_app (prefix needle : string) :
  Js.includes (prefix ++ needle) needle = true.
Proof.
  induction prefix as [|c prefix IH].
  - apply includes_prefix. cbn [append].
    induction needle as [|d needle IHn]; [reflexivity|].
    cbn [String.prefix].
    destruct (ascii_dec d d) as [_|N]; [exact IHn|now elim N].
  - cbn [append]. now apply includes_cons.
Qed.

Lemma includes_app_r (prefix s needle : string) :
  Js.includes s needle = true -> Js.includes (prefix ++ s) needle = true.
Proof.
  intro H. induction prefix as [|c prefix IH]; [exact H|].
  cbn [append]. now apply includes_cons.
Qed.

Lemma split_colon_six (a b c d e f : string) :
  colon_free a = true -> colon_free b = true -> colon_free c = true ->
  colon_free d = true -> colon_free e = true -> colon_free f = true ->
  Js.split_colon
    (a ++ String ":" (b ++ String ":" (c ++ String ":"
       (d ++ String ":" (e ++ String ":" f)))))
  = [a; b; c; d; e; f].
Proof.
  intros Ha Hb Hc Hd He Hf.
  rewrite !split_colon_app by assumption.
  now rewrite split_colon_free.
Qed.

Section ArnFacts.
Import Arn.

(** C8, as stated, fails.  Six colon-separated parts are not enough:
    [parseArn] also wants the first part to be the word arn (and the
    partition and the service to be non-empty), and
    [generateNonexistentTopicArn] throws what [parseArn] throws. *)
Lemma six_parts_counterexample :
  length (Js.split_colon not_an_arn) = 6
  /\ generateNonexistentTopicArn "0000" not_an_arn =
     inl (Exn.ArnParseError
            "Invalid ARN: must start with 'arn:', got 'foo:'").
Proof.
  split; reflexivity.
Qed.

(** C8, amended.  For every allowed topic ARN that [parseArn] accepts (at
    least six colon-separated parts, the first one the word arn, partition
    and service non-empty) [generateNonexistentTopicArn] returns the ARN
    made of the same partition, the service sns, the same region and
    account, and the resource name nonexistent- followed by the generated
    UUID.  When the UUID has no colon in it the result parses, with these
    very fields; when the UUID is fresh (it does not occur in the allowed
    ARN) its resource name differs from that of the allowed target. *)
Theorem nonexistent_arn_same_account
    (guid arn partition service region accountId r : string)
    (rs : list string)
    (Hparts : Js.split_colon arn =
              "arn" :: partition :: service :: region :: accountId
                :: r :: rs)
    (Hpartition : partition <> "")
    (Hservice : service <> "") :
  let generated :=
    "arn:" ++ partition ++ ":sns:" ++ region ++ ":" ++ accountId
    ++ ":nonexistent-" ++ guid in
  parseArn arn =
    inr {| Arn.partition := partition; Arn.service := service;
           Arn.region := region; Arn.accountId := accountId;
           Arn.resource := Js.join ":" (r :: rs) |}
  /\ generateNonexistentTopicArn guid arn = inr generated
  /\ (colon_free guid = true ->
      parseArn generated =
        inr {| Arn.partition := partition; Arn.service := "sns";
               Arn.region := region; Arn.accountId := accountId;
               Arn.resource := "nonexistent-" ++ guid |})
  /\ (Js.includes arn guid = false ->
      "nonexistent-" ++ guid <> Js.join ":" (r :: rs)).
Proof.
  intro generated.
  assert (Hp : (partition =? "") = false) by now apply String.eqb_neq.
  assert (Hs : (service =? "") = false) by now apply String.eqb_neq.
  assert (Hparse : parseArn arn =
            inr {| Arn.partition := partition; Arn.service := service;
                   Arn.region := region; Arn.accountId := accountId;
                   Arn.resource := Js.join ":" (r :: rs) |}).
  { unfold parseArn. destruct arn as [|c arn]; [discriminate Hparts|].
    cbn [String.eqb]. rewrite Hparts. cbn [String.eqb Ascii.eqb].
    simpl negb. cbv iota. now rewrite Hp, Hs. }
  split; [exact Hparse|].
  split; [unfold generateNonexistentTopicArn; now rewrite Hparse|].
  split.
  - intro Hguid.
    pose proof (split_colon_parts_free arn) as Hfree.
    rewrite Hparts in Hfree.
    inversion Hfree as [|? ? _ H1]; subst.
    inversion H1 as [|? ? Fpartition H2]; subst.
    inversion H2 as [|? ? _ H3]; subst.
    inversion H3 as [|? ? Fregion H4]; subst.
    inversion H4 as [|? ? Faccount _]; subst.
    assert (Hsplit : Js.split_colon generated =
                     ["arn"; partition; "sns"; region; accountId;
                      "nonexistent-" ++ guid]).
    { apply (split_colon_six "arn" partition "sns" region accountId
               ("nonexistent-" ++ guid)); auto. }
    unfold parseArn. rewrite Hsplit.
    change (generated =? "") with false. cbv iota.
    change ("arn" =? "arn") with true. simpl negb. cbv iota.
    rewrite Hp. reflexivity.
  - intros Hfresh Heq.
    assert (Harn : Js.includes arn guid = true); [|congruence].
    rewrite <- (join_split_colon arn), Hparts.
    rewrite !join_cons by discriminate.
    rewrite <- Heq.
    repeat apply includes_app_r.
    apply (includes_app "" guid).
Qed.

Lemma nonexistent_arn_same_account_witness :
  generateNonexistentTopicArn "7f3c2a10-0000-4000-8000-000000000000"
    "arn:aws:sns:us-east-1:123456789012:my-topic" =
  inr "arn:aws:sns:us-east-1:123456789012:nonexistent-7f3c2a10-0000-4000-8000-000000000000".
Proof.
  refine (proj1 (proj2
    (nonexistent_arn_same_account "7f3c2a10-0000-4000-8000-000000000000"
       "arn:aws:sns:us-east-1:123456789012:my-topic"
       "aws" "sns" "us-east-1" "123456789012" "my-topic" [] _ _ _))).
  - reflexivity.
  - discriminate.
  - discriminate.
Defined.

End ArnFacts.

(** ** The action catalog *)

Section ActionFacts.
Import Actions.

Lemma grantThenRevoke_sound (l : list Action) :
  grantThenRevoke (map name l) = true -> revokedRightAfterGrant l.
Proof.
  intros H before. revert l H.
  induction before as [|x before IH]; intros l H a after -> Ha.
  - cbn [app map grantThenRevoke] in H. rewrite Ha in H.
    cbn [String.eqb Ascii.eqb] in H. simpl in H.
    apply andb_prop in H. destruct H as [H _].
    destruct after as [|b rest]; [discriminate|].
    exists b, rest. split; [reflexivity|].
    now apply String.eqb_eq.
  - cbn [app map grantThenRevoke] in H.
    apply andb_prop in H. destruct H as [_ H].
    exact (IH _ H a after eq_refl Ha).
Qed.

(** C9, as stated, fails.  In safe mode AddPermission is scheduled, it is
    the last action of the list, and RemovePermission, which is marked
    unsafe, is not scheduled at all. *)
Lemma safe_mode_counterexample :
  map name (getActionsByMode "2010-03-31" ModeSafe) =
  [ "GetTopicAttributes"; "GetDataProtectionPolicy";
    "ListSubscriptionsByTopic"; "ListTagsForResource";
    "Publish"; "PublishBatch"; "Subscribe"; "TagResource"; "UntagResource";
    "AddPermission" ]
  /\ grantThenRevoke (map name (getActionsByMode "2010-03-31" ModeSafe))
     = false.
Proof.
  split; reflexivity.
Qed.

(** C9, amended.  In the lists of the modes read and all, whenever
    AddPermission appears RemovePermission comes immediately after it (the
    read list has no AddPermission).  In the list of the mode safe,
    AddPermission is the last action and RemovePermission is not
    scheduled. *)
Theorem grant_revoke_adjacent (version : string) :
  revokedRightAfterGrant (getActionsByMode version ModeAll)
  /\ revokedRightAfterGrant (getActionsByMode version ModeRead)
  /\ (forall a, In a (getActionsByMode version ModeRead) ->
                name a <> "AddPermission")
  /\ (exists before,
        getActionsByMode version ModeSafe
        = (before ++ [AddPermission version])%list)
  /\ (forall a, In a (getActionsByMode version ModeSafe) ->
                name a <> "RemovePermission").
Proof.
  split; [now apply grantThenRevoke_sound|].
  split; [now apply grantThenRevoke_sound|].
  split.
  - intros a Ha. cbn in Ha.
    repeat (destruct Ha as [<-|Ha]; [discriminate|]). contradiction.
  - split.
    + exists [ GetTopicAttributes version; GetDataProtectionPolicy version;
               ListSubscriptionsByTopic version; ListTagsForResource version;
               Publish version; PublishBatch version; Subscribe version;
               TagResource version; UntagResource version ].
      reflexivity.
    + intros a Ha. cbn in Ha.
      repeat (destruct Ha as [<-|Ha]; [discriminate|]). contradiction.
Qed.

End ActionFacts.

From Stdlib Require Import Permutation.

(** * Further properties of the code *)

(** ** ARNs: what [parseArn] accepts *)

Section ArnParsing.
Import Arn.

(** What an accepted ARN looks like: the parts [parseArn] saw. *)
Lemma parseArn_inv (arn : string) (p : ParsedArn) :
  parseArn arn = inr p ->
  exists r rs,
    Js.split_colon arn =
      "arn" :: partition p :: service p :: region p :: accountId p :: r :: rs
    /\ resource p = Js.join ":" (r :: rs)
    /\ partition p <> "" /\ service p <> "".
Proof.
  unfold parseArn. destruct (arn =? ""); [discriminate|].
  destruct (Js.split_colon arn)
    as [|a0 [|a1 [|a2 [|a3 [|a4 [|r rs]]]]]]; try discriminate.
  destruct (a0 =? "arn") eqn:E0; [|discriminate]. simpl negb. cbv iota.
  destruct (a1 =? "") eqn:E1; [discriminate|].
  destruct (a2 =? "") eqn:E2; [discriminate|].
  intro H. injection H as <-. cbn.
  apply String.eqb_eq in E0. subst a0.
  exists r, rs. repeat split; now apply String.eqb_neq.
Qed.

(** The fields of an accepted ARN before the resource hold no colon. *)
Lemma parseArn_fields (arn : string) (p : ParsedArn) :
  parseArn arn = inr p ->
  colon_free (partition p) = true /\ colon_free (service p) = true
  /\ colon_free (region p) = true /\ colon_free (accountId p) = true.
Proof.
  intro Hparse.
  destruct (parseArn_inv arn p Hparse) as (r & rs & Hs & _).
  pose proof (split_colon_parts_free arn) as Hfree. rewrite Hs in Hfree.
  inversion Hfree as [|? ? _ H1]; subst.
  inversion H1 as [|? ? F1 H2]; subst.
  inversion H2 as [|? ? F2 H3]; subst.
  inversion H3 as [|? ? F3 H4]; subst.
  inversion H4 as [|? ? F4 _]; subst.
  now repeat split.
Qed.

(** Putting the parsed fields back together, colon by colon, gives the ARN
    that was parsed; the four fields before the resource hold no colon, and
    partition and service are not empty. *)
Theorem parseArn_round_trip (arn : string) (p : ParsedArn)
    (Hparse : parseArn arn = inr p) :
  arn = "arn:" ++ partition p ++ ":" ++ service p ++ ":" ++ region p
        ++ ":" ++ accountId p ++ ":" ++ resource p
  /\ colon_free (partition p) = true /\ colon_free (service p) = true
  /\ colon_free (region p) = true /\ colon_free (accountId p) = true
  /\ partition p <> "" /\ service p <> "".
Proof.
  destruct (parseArn_inv arn p Hparse) as (r & rs & Hs & Hr & Hp & Hsv).
  destruct (parseArn_fields arn p Hparse) as (F1 & F2 & F3 & F4).
  repeat split; try assumption.
  rewrite <- (join_split_colon arn) at 1. rewrite Hs, Hr.
  rewrite !join_cons by discriminate. reflexivity.
Qed.

Lemma parseArn_round_trip_witness :
  "arn:aws:sns:us-east-1:123456789012:my-topic:x" =
  "arn:" ++ "aws" ++ ":" ++ "sns" ++ ":" ++ "us-east-1" ++ ":"
  ++ "123456789012" ++ ":" ++ "my-topic:x".
Proof.
  exact (proj1 (parseArn_round_trip
                  "arn:aws:sns:us-east-1:123456789012:my-topic:x"
                  {| partition := "aws"; service := "sns";
                     region := "us-east-1"; accountId := "123456789012";
                     resource := "my-topic:x" |} eq_refl)).
Defined.

Lemma parseSnsTopicArn_inv (arn : string) (p : ParsedArn) :
  parseSnsTopicArn arn = inr p ->
  parseArn arn = inr p /\ service p = "sns" /\ region p <> ""
  /\ accountId p <> "" /\ resource p <> "".
Proof.
  unfold parseSnsTopicArn, Exn.bind.
  destruct (parseArn arn) as [e|q]; [discriminate|].
  destruct (service q =? "sns") eqn:E0; [|discriminate]. simpl negb. cbv iota.
  destruct (region q =? "") eqn:E1; [discriminate|].
  destruct (accountId q =? "") eqn:E2; [discriminate|].
  destruct (resource q =? "") eqn:E3; [discriminate|].
  intro H. injection H as <-.
  repeat split; try (now apply String.eqb_neq). now apply String.eqb_eq.
Qed.

Lemma getRegionFromArn_inv (arn region : string) :
  getRegionFromArn arn = inr region ->
  exists p, parseSnsTopicArn arn = inr p /\ Arn.region p = region.
Proof.
  unfold getRegionFromArn, Exn.bind.
  destruct (parseSnsTopicArn arn) as [e|p]; [discriminate|].
  intro H. injection H as <-. now exists p.
Qed.

(** [parseArn] accepts the ARN put together from the fields of an accepted
    topic ARN and a new resource. *)
Lemma generated_arn_accepted (guid arn : string) (p : ParsedArn) :
  parseSnsTopicArn arn = inr p ->
  generateNonexistentTopicArn guid arn
  = inr ("arn:" ++ partition p ++ ":sns:" ++ region p ++ ":"
         ++ accountId p ++ ":nonexistent-" ++ guid)
  /\ parseArn ("arn:" ++ partition p ++ ":sns:" ++ region p ++ ":"
               ++ accountId p ++ ":nonexistent-" ++ guid)
     = inr {| partition := partition p; service := "sns";
              region := region p; accountId := accountId p;
              resource := "nonexistent-" ++ guid |}.
Proof.
  intro Hallowed.
  destruct (parseSnsTopicArn_inv arn p Hallowed) as (Hparse & _).
  destruct (parseArn_fields arn p Hparse) as (F1 & _ & F3 & F4).
  destruct (parseArn_inv arn p Hparse) as (_ & _ & _ & _ & Hp & _).
  split.
  { unfold generateNonexistentTopicArn, Exn.bind. now rewrite Hparse. }
  unfold parseArn.
  change (("arn:" ++ partition p ++ ":sns:" ++ region p ++ ":"
           ++ accountId p ++ ":nonexistent-" ++ guid) =? "") with false.
  cbv iota.
  change ("arn:" ++ partition p ++ ":sns:" ++ region p ++ ":"
          ++ accountId p ++ ":nonexistent-" ++ guid)
    with ("arn" ++ String ":" (partition p ++ String ":" ("sns" ++
            String ":" (region p ++ String ":" (accountId p ++
              String ":" ("nonexistent-" ++ guid)))))).
  rewrite !split_colon_app by (assumption || reflexivity).
  pose proof (join_split_colon ("nonexistent-" ++ guid)) as J.
  pose proof (split_colon_nonempty ("nonexistent-" ++ guid)) as N.
  destruct (Js.split_colon ("nonexistent-" ++ guid)) as [|r rs];
    [contradiction|].
  change ("arn" =? "arn") with true. simpl negb. cbv iota.
  replace (partition p =? "") with false
    by (symmetry; now apply String.eqb_neq).
  change ("sns" =? "") with false. cbv iota. now rewrite J.
Qed.

(** The nonexistent topic lives where the allowed topic lives.  Whenever the
    allowed ARN is a valid SNS topic ARN, the ARN generated from it, whatever
    the UUID, is a valid SNS topic ARN too, with the same partition, region
    and account, and [getRegionFromArn] gives the same region for both. *)
Theorem nonexistent_topic_same_region (guid arn : string) (p : ParsedArn)
    (Hallowed : parseSnsTopicArn arn = inr p) :
  exists generated,
    generateNonexistentTopicArn guid arn = inr generated
    /\ parseSnsTopicArn generated =
         inr {| partition := partition p; service := "sns";
                region := region p; accountId := accountId p;
                resource := "nonexistent-" ++ guid |}
    /\ getRegionFromArn generated = getRegionFromArn arn.
Proof.
  destruct (parseSnsTopicArn_inv arn p Hallowed)
    as (_ & _ & Hregion & Haccount & _).
  destruct (generated_arn_accepted guid arn p Hallowed) as (Hgen & Hparse).
  eexists. split; [exact Hgen|].
  assert (Hsns : parseSnsTopicArn
            ("arn:" ++ partition p ++ ":sns:" ++ region p ++ ":"
             ++ accountId p ++ ":nonexistent-" ++ guid) =
            inr {| partition := partition p; service := "sns";
                   region := region p; accountId := accountId p;
                   resource := "nonexistent-" ++ guid |}).
  { unfold parseSnsTopicArn, Exn.bind. rewrite Hparse.
    cbn [service region accountId resource].
    change ("sns" =? "sns") with true. simpl negb. cbv iota.
    replace (region p =? "") with false
      by (symmetry; now apply String.eqb_neq).
    replace (accountId p =? "") with false
      by (symmetry; now apply String.eqb_neq).
    reflexivity. }
  split; [exact Hsns|].
  unfold getRegionFromArn, Exn.bind. now rewrite Hsns, Hallowed.
Qed.

Lemma nonexistent_topic_same_region_witness :
  exists generated,
    generateNonexistentTopicArn "00:00"
      "arn:aws:sns:eu-west-1:123456789012:my-topic" = inr generated
    /\ parseSnsTopicArn generated =
         inr {| partition := "aws"; service := "sns";
                region := "eu-west-1"; accountId := "123456789012";
                resource := "nonexistent-00:00" |}
    /\ getRegionFromArn generated =
       getRegionFromArn "arn:aws:sns:eu-west-1:123456789012:my-topic".
Proof.
  exact (nonexistent_topic_same_region "00:00"
           "arn:aws:sns:eu-west-1:123456789012:my-topic"
           {| partition := "aws"; service := "sns"; region := "eu-west-1";
              accountId := "123456789012"; resource := "my-topic" |}
           eq_refl).
Defined.

End ArnParsing.

(** ** The action catalog: what every builder puts into the request *)

Section ActionBuilders.
Import Actions.

Lemma distinct_NoDup (ks : list string) : distinct ks = true -> NoDup ks.
Proof.
  induction ks as [|k ks IH]; simpl; intro H; constructor.
  - apply andb_prop in H. destruct H as [H _].
    apply negb_true_iff in H. intro Hin.
    assert (E : existsb (String.eqb k) ks = true).
    { apply existsb_exists. exists k. split; [exact Hin|].
      apply String.eqb_refl. }
    congruence.
  - apply IH. apply andb_prop in H. now destruct H.
Qed.

Lemma catalog_builders (version : string) (a : Action) (topicArn : string) :
  In a (ALL_ACTIONS version) ->
  (forall p, buildParams a topicArn = inr p ->
             wellBuilt version a topicArn p)
  /\ (forall e, buildParams a topicArn = inl e ->
                name a = "AddPermission" /\ Arn.parseArn topicArn = inl e).
Proof.
  intro Ha. unfold ALL_ACTIONS in Ha. cbn [In] in Ha.
  repeat (destruct Ha as [<-|Ha];
          [ try (split;
                 [ intros p H; injection H as <-;
                   repeat split; try reflexivity;
                   apply distinct_NoDup; reflexivity
                 | intros e H; discriminate H ])
          | ]); [|contradiction].
  cbn [buildParams AddPermission name parameterName parameterKey].
  unfold Exn.bind. destruct (Arn.parseArn topicArn) as [e|q].
  - split; [intros p H; discriminate H|].
    intros e' H. injection H as <-. now split.
  - split; [|intros e H; discriminate H].
    intros p H. injection H as <-.
    repeat split; try reflexivity. apply distinct_NoDup. reflexivity.
Qed.

(** Every action of the catalog builds a request that names the operation
    and the API version and carries the target ARN, unchanged, under the
    parameter name the action declares (TopicArn or ResourceArn), with no
    key twice. *)
Theorem builders_carry_target (version : string) (a : Action)
    (topicArn : string) (p : Params.t)
    (Ha : In a (ALL_ACTIONS version))
    (Hbuilt : buildParams a topicArn = inr p) :
  wellBuilt version a topicArn p.
Proof.
  exact (proj1 (catalog_builders version a topicArn Ha) p Hbuilt).
Qed.

Lemma builders_carry_target_witness :
  wellBuilt "2010-03-31" (AddPermission "2010-03-31")
    "arn:aws:sns:us-east-1:123456789012:my-topic"
    [ ("Action", "AddPermission");
      ("TopicArn", "arn:aws:sns:us-east-1:123456789012:my-topic");
      ("Label", "sns-buster-test-noop");
      ("AWSAccountId.member.1", "123456789012");
      ("ActionName.member.1", "GetTopicAttributes");
      ("Version", "2010-03-31") ].
Proof.
  apply builders_carry_target; [|reflexivity].
  unfold ALL_ACTIONS. cbn [In].
  repeat (first [left; reflexivity | right]).
Defined.

(** A builder of the catalog throws only for AddPermission, and only the
    error [parseArn] throws on the target: with a target [parseArn] accepts,
    every builder returns. *)
Theorem builders_fail_only_on_bad_arn (version : string) (a : Action)
    (topicArn : string) (e : Exn.t)
    (Ha : In a (ALL_ACTIONS version))
    (Hthrown : buildParams a topicArn = inl e) :
  name a = "AddPermission" /\ Arn.parseArn topicArn = inl e.
Proof.
  exact (proj2 (catalog_builders version a topicArn Ha) e Hthrown).
Qed.

Lemma builders_fail_only_on_bad_arn_witness :
  name (AddPermission "2010-03-31") = "AddPermission"
  /\ Arn.parseArn "my-topic" =
     inl (Exn.ArnParseError
            "Invalid ARN format: expected at least 6 colon-separated parts, got 1").
Proof.
  apply (builders_fail_only_on_bad_arn "2010-03-31"
           (AddPermission "2010-03-31") "my-topic").
  - unfold ALL_ACTIONS. cbn [In].
    repeat (first [left; reflexivity | right]).
  - reflexivity.
Defined.

End ActionBuilders.

(** ** The change detector *)

Section ChangeDetector.
Import Params Strategies.

Lemma ascii_compare_lt_trans (a b c : ascii) :
  Ascii.compare a b = Lt -> Ascii.compare b c = Lt -> Ascii.compare a c = Lt.
Proof.
  unfold Ascii.compare. rewrite !N.compare_lt_iff. apply N.lt_trans.
Qed.

Lemma string_leb_cons (a b : ascii) (s t : string) :
  String.leb (String a s) (String b t) = true <->
  Ascii.compare a b = Lt \/ (a = b /\ String.leb s t = true).
Proof.
  unfold String.leb. cbn [String.compare].
  destruct (Ascii.compare a b) eqn:E.
  - apply Ascii.compare_eq_iff in E. subst b. split.
    + intro H. right. now split.
    + intros [H|[_ H]]; [discriminate|exact H].
  - split; [now left|reflexivity].
  - split; [discriminate|].
    intros [H|[H _]]; [discriminate|]. subst b.
    rewrite Ascii.compare_antisym in E.
    destruct (Ascii.compare a a) eqn:E'; try discriminate.
    unfold Ascii.compare in E'. rewrite N.compare_refl in E'. discriminate.
Qed.

Lemma string_leb_trans (s t u : string) :
  String.leb s t = true -> String.leb t u = true -> String.leb s u = true.
Proof.
  revert t u. induction s as [|a s IH]; intros t u Hst Htu.
  - now destruct u.
  - destruct t as [|b t]; [discriminate|].
    destruct u as [|c u]; [discriminate|].
    apply string_leb_cons in Hst. apply string_leb_cons in Htu.
    apply string_leb_cons.
    destruct Hst as [Hab|[-> Hst]], Htu as [Hbc|[-> Htu]].
    + left. now apply (ascii_compare_lt_trans a b c).
    + now left.
    + now left.
    + right. split; [reflexivity|]. now apply (IH t u).
Qed.

Lemma string_leb_false (s t : string) :
  String.leb s t = false -> String.leb t s = true.
Proof.
  intro H. destruct (String.leb_total s t) as [E|E]; congruence.
Qed.

(** Insertions commute: the order in which keys come does not matter. *)
Lemma insert_sorted_comm (x y : string) (l : list string) :
  insert_sorted x (insert_sorted y l) = insert_sorted y (insert_sorted x l).
Proof.
  induction l as [|h l IH]; cbn [insert_sorted].
  - destruct (String.leb x y) eqn:Exy, (String.leb y x) eqn:Eyx;
      try reflexivity.
    + now rewrite (String.leb_antisym x y Exy Eyx).
    + apply string_leb_false in Exy. congruence.
  - destruct (String.leb y h) eqn:Eyh, (String.leb x h) eqn:Exh;
      cbn [insert_sorted]; rewrite ?Eyh, ?Exh.
    + destruct (String.leb x y) eqn:Exy, (String.leb y x) eqn:Eyx;
        try reflexivity.
      * now rewrite (String.leb_antisym x y Exy Eyx).
      * apply string_leb_false in Exy. congruence.
    + destruct (String.leb x y) eqn:Exy; [|reflexivity].
      rewrite (string_leb_trans x y h Exy Eyh) in Exh. discriminate.
    + destruct (String.leb y x) eqn:Eyx; [|reflexivity].
      rewrite (string_leb_trans y x h Eyx Exh) in Eyh. discriminate.
    + now rewrite IH.
Qed.

Lemma sort_permutation (l l' : list string) :
  Permutation l l' -> sort l = sort l'.
Proof.
  unfold sort. induction 1; cbn [fold_right].
  - reflexivity.
  - now f_equal.
  - apply insert_sorted_comm.
  - congruence.
Qed.

Lemma insert_sorted_In (k x : string) (l : list string) :
  In k (insert_sorted x l) <-> k = x \/ In k l.
Proof.
  induction l as [|h l IH]; cbn [insert_sorted].
  - simpl. intuition.
  - destruct (String.leb x h); simpl; [intuition|].
    rewrite IH. intuition.
Qed.

Lemma sort_In (k : string) (l : list string) : In k (sort l) <-> In k l.
Proof.
  unfold sort. induction l as [|x l IH]; cbn [fold_right]; [reflexivity|].
  rewrite insert_sorted_In, IH. simpl. intuition.
Qed.

Lemma insert_sorted_length (x : string) (l : list string) :
  length (insert_sorted x l) = S (length l).
Proof.
  induction l as [|h l IH]; cbn [insert_sorted]; [reflexivity|].
  destruct (String.leb x h); simpl; [reflexivity|now rewrite IH].
Qed.

Lemma sort_length (l : list string) : length (sort l) = length l.
Proof.
  unfold sort. induction l as [|x l IH]; cbn [fold_right]; [reflexivity|].
  now rewrite insert_sorted_length, IH.
Qed.

Lemma get_Some_key (k v : string) (p : Params.t) :
  get k p = Some v -> In k (keys p).
Proof.
  induction p as [|[k0 v0] p IH]; simpl; [discriminate|].
  destruct (k0 =? k) eqn:E.
  - apply String.eqb_eq in E. now left.
  - intro H. right. now apply IH.
Qed.

Lemma key_get_Some (k : string) (p : Params.t) :
  In k (keys p) -> exists v, get k p = Some v.
Proof.
  induction p as [|[k0 v0] p IH]; simpl; [contradiction|].
  destruct (k0 =? k) eqn:E; [now exists v0|].
  intros [H|H]; [|now apply IH].
  apply String.eqb_neq in E. contradiction.
Qed.

Lemma values_differ_false (original mutated : Params.t) (ks : list string) :
  existsb
    (fun key => negb (Js.strict_eq (get key original) (get key mutated))) ks
  = false <->
  forall k, In k ks -> get k original = get k mutated.
Proof.
  induction ks as [|x ks IH]; simpl.
  - split; [intros _ k []|reflexivity].
  - rewrite orb_false_iff, IH, negb_false_iff, strict_eq_iff. split.
    + intros [Hx H] k [<-|Hk]; auto.
    + intro H. split; [apply H; now left|]. intros k Hk. apply H. now right.
Qed.

(** The change detector is exact.  On two maps that hold each key once, it
    answers false exactly when both give every key the same value (or the
    same absence): it overlooks no change, and the order of the keys is no
    change. *)
Theorem change_detector_exact (original mutated : Params.t)
    (Horiginal : NoDup (keys original))
    (Hmutated : NoDup (keys mutated)) :
  didMutationChangeParams original mutated = false <->
  forall k, get k original = get k mutated.
Proof.
  unfold didMutationChangeParams; cbv zeta. rewrite !sort_length. split.
  - destruct (length (keys original) =? length (keys mutated))%nat eqn:L;
      [|discriminate]. simpl negb. cbv iota.
    destruct (Js.join "," (sort (keys original))
              =? Js.join "," (sort (keys mutated))); [|discriminate].
    simpl negb. cbv iota. rewrite values_differ_false. intros H k.
    apply Nat.eqb_eq in L.
    assert (Hsub : incl (keys original) (keys mutated)).
    { intros x Hx. destruct (key_get_Some x original Hx) as [v Hv].
      apply (get_Some_key x v). rewrite <- Hv. symmetry. apply H.
      now apply sort_In. }
    assert (Hback : incl (keys mutated) (keys original)).
    { apply NoDup_length_incl; [assumption|lia|assumption]. }
    destruct (in_dec string_dec k (keys original)) as [Hin|Hout].
    + apply H. now apply sort_In.
    + assert (Hout' : ~ In k (keys mutated)) by (intro Hk; auto).
      destruct (get k original) as [v|] eqn:E1;
        [exfalso; apply Hout; now apply (get_Some_key k v)|].
      destruct (get k mutated) as [v|] eqn:E2;
        [exfalso; apply Hout'; now apply (get_Some_key k v)|].
      reflexivity.
  - intro H.
    assert (Hperm : Permutation (keys original) (keys mutated)).
    { apply NoDup_Permutation; try assumption.
      intro x. split; intro Hx.
      - destruct (key_get_Some x original Hx) as [v Hv].
        apply (get_Some_key x v). now rewrite <- H.
      - destruct (key_get_Some x mutated Hx) as [v Hv].
        apply (get_Some_key x v). now rewrite H. }
    rewrite (Permutation_length Hperm), Nat.eqb_refl.
    rewrite (sort_permutation _ _ Hperm), String.eqb_refl.
    simpl negb. cbv iota. apply values_differ_false. intros k _. apply H.
Qed.

Lemma change_detector_exact_witness :
  didMutationChangeParams [ ("b", "2"); ("a", "1") ]
    [ ("a", "1"); ("b", "2") ] = false.
Proof.
  apply (proj2 (change_detector_exact [ ("b", "2"); ("a", "1") ]
                  [ ("a", "1"); ("b", "2") ]
                  ltac:(apply distinct_NoDup; reflexivity)
                  ltac:(apply distinct_NoDup; reflexivity))).
  intro k. cbn [get].
  destruct ("b" =? k) eqn:Eb, ("a" =? k) eqn:Ea; try reflexivity.
  apply String.eqb_eq in Eb. apply String.eqb_eq in Ea.
  subst k. discriminate Ea.
Defined.

End ChangeDetector.

(** ** The prober: reasoning about runs *)

Section RunLogic.
Import Runner.

(** A run that returns went through each of its steps. *)
Lemma mbind_inr {A B} (m : M A) (k : A -> M B) (tr tr' : Trace) (b : B) :
  mbind m k tr = (inr b, tr') ->
  exists a tr1, m tr = (inr a, tr1) /\ k a tr1 = (inr b, tr').
Proof.
  unfold mbind. destruct (m tr) as [[e|a] tr1]; [discriminate|].
  intro H. now exists a, tr1.
Qed.

Lemma lift_inr {A} (x : Exn.result A) (tr tr' : Trace) (a : A) :
  lift x tr = (inr a, tr') -> x = inr a /\ tr' = tr.
Proof. unfold lift. intro H. injection H as -> ->. now split. Qed.

Lemma mret_inr {A} (x a : A) (tr tr' : Trace) :
  mret x tr = (inr a, tr') -> a = x /\ tr' = tr.
Proof. unfold mret. intro H. injection H as -> ->. now split. Qed.

Lemma emit_inr (e : Event) (tr tr' : Trace) (u : unit) :
  emit e tr = (inr u, tr') -> tr' = (tr ++ [e])%list.
Proof. unfold emit. intro H. now injection H as _ <-. Qed.

Lemma send_inr (net : Network) (endpoint : string) (params : Params.t)
    (region : string) (tr tr' : Trace) (response : HttpResponse) :
  sendSignedRequest net endpoint params region tr = (inr response, tr') ->
  tr' = (tr ++ [Sent (mkRequest endpoint params region) (Some response)])%list.
Proof.
  unfold sendSignedRequest.
  destruct (net (sentCount tr) (mkRequest endpoint params region));
    [|discriminate].
  intro H. now injection H as <- <-.
Qed.

Lemma sentCount_app (tr tr' : Trace) :
  sentCount (tr ++ tr')%list = sentCount tr + sentCount tr'.
Proof.
  unfold sentCount. now rewrite filter_app, length_app.
Qed.

(** A loop that returns kept its invariant round by round. *)
Lemma forEach_inr {A S} (body : S -> A -> M S)
    (I : list A -> S -> Trace -> Prop) (xs : list A) :
  (forall done x acc tr acc' tr',
      In x xs -> I done acc tr -> body acc x tr = (inr acc', tr') ->
      I (done ++ [x])%list acc' tr') ->
  forall done acc tr acc' tr',
    I done acc tr -> forEach xs body acc tr = (inr acc', tr') ->
    I (done ++ xs)%list acc' tr'.
Proof.
  induction xs as [|x xs IH]; intros Hstep done acc tr acc' tr' HI Hrun.
  - apply mret_inr in Hrun. destruct Hrun as [-> ->].
    now rewrite app_nil_r.
  - cbn [forEach] in Hrun. apply mbind_inr in Hrun.
    destruct Hrun as (acc1 & tr1 & Hbody & Hrest).
    replace (done ++ x :: xs)%list with ((done ++ [x]) ++ xs)%list
      by (now rewrite <- app_assoc).
    apply (IH (fun done x0 acc0 tr0 acc0' tr0' Hin =>
                 Hstep done x0 acc0 tr0 acc0' tr0' (or_intror Hin))
              (done ++ [x])%list acc1 tr1 acc' tr').
    + apply (Hstep done x acc tr acc1 tr1); [now left|assumption..].
    + exact Hrest.
Qed.

(** *** What every event of a run satisfies *)

Lemma keeps_mret {A} (P : Event -> Prop) (a : A) : keeps P (mret a).
Proof. intros tr r tr' H E. now injection E as _ <-. Qed.

Lemma keeps_lift {A} (P : Event -> Prop) (x : Exn.result A) :
  keeps P (lift x).
Proof. intros tr r tr' H E. now injection E as _ <-. Qed.

Lemma keeps_emit (P : Event -> Prop) (e : Event) : P e -> keeps P (emit e).
Proof.
  intros He tr r tr' H E. injection E as _ <-.
  apply Forall_app. split; [assumption|now constructor].
Qed.

Lemma keeps_send (P : Event -> Prop) (net : Network) (endpoint : string)
    (params : Params.t) (region : string) :
  (forall answer, P (Sent (mkRequest endpoint params region) answer)) ->
  keeps P (sendSignedRequest net endpoint params region).
Proof.
  intros Hsend tr r tr' H E. unfold sendSignedRequest in E.
  destruct (net (sentCount tr) (mkRequest endpoint params region));
    injection E as _ <-; apply Forall_app; split; try assumption;
    constructor; auto.
Qed.

Lemma keeps_mbind {A B} (P : Event -> Prop) (m : M A) (k : A -> M B) :
  keeps P m -> (forall a, keeps P (k a)) -> keeps P (mbind m k).
Proof.
  intros Hm Hk tr r tr' H E. unfold mbind in E.
  destruct (m tr) as [[e|a] tr1] eqn:Em.
  - injection E as _ <-. exact (Hm tr _ tr1 H Em).
  - exact (Hk a tr1 r tr' (Hm tr _ tr1 H Em) E).
Qed.

(** Binding a pure step that may throw: what follows runs on its value. *)
Lemma keeps_lift_bind {A B} (P : Event -> Prop) (x : Exn.result A)
    (k : A -> M B) :
  (forall a, x = inr a -> keeps P (k a)) -> keeps P (mbind (lift x) k).
Proof.
  intros Hk tr r tr' H E. unfold mbind, lift in E.
  destruct x as [e|a].
  - now injection E as _ <-.
  - exact (Hk a eq_refl tr r tr' H E).
Qed.

Lemma keeps_forEach {A S} (P : Event -> Prop) (xs : list A)
    (body : S -> A -> M S) :
  (forall acc x, In x xs -> keeps P (body acc x)) ->
  forall acc, keeps P (forEach xs body acc).
Proof.
  induction xs as [|x xs IH]; intros Hbody acc; cbn [forEach].
  - apply keeps_mret.
  - apply keeps_mbind; [apply Hbody; now left|].
    intro acc'. apply IH. intros acc0 x0 Hin. apply Hbody. now right.
Qed.

End RunLogic.

(** ** The prober: where the requests go *)

Section ProberTargets.
Import Runner.

Lemma catalog_parameter_key (version : string) (a : Actions.Action) :
  In a (Actions.ALL_ACTIONS version) ->
  Actions.parameterKey (Actions.parameterName a) = "TopicArn"
  \/ Actions.parameterKey (Actions.parameterName a) = "ResourceArn".
Proof.
  intro Ha. unfold Actions.ALL_ACTIONS in Ha. cbn [In] in Ha.
  repeat (destruct Ha as [<-|Ha]; [first [now left | now right]|]).
  contradiction.
Qed.

Lemma keeps_writeLogs (P : Event -> Prop) (name : string) :
  (forall e, match e with Sent _ _ => True | _ => P e end) ->
  keeps P (writeLogs name).
Proof.
  intro H. unfold writeLogs.
  repeat (apply keeps_mbind; [|intros _]);
    apply keeps_emit; match goal with |- P ?e => exact (H e) end.
Qed.

Lemma keeps_writeScripts (P : Event -> Prop) (name : string)
    (ctx : MutationTestContext) (pa pd pn : Params.t) :
  (forall e, match e with Sent _ _ => True | _ => P e end) ->
  keeps P (writeScripts name ctx pa pd pn).
Proof.
  intro H. unfold writeScripts.
  repeat (apply keeps_mbind; [|intros _]);
    apply keeps_emit; match goal with |- P ?e => exact (H e) end.
Qed.

Lemma sentOnLeg_other (ctx : MutationTestContext) (key : string) (e : Event) :
  match e with Sent _ _ => True | _ => sentOnLeg ctx key e end.
Proof. destruct e; exact I. Qed.

Lemma keeps_mutationRound (net : Network) (actionName key : string)
    (ctx : MutationTestContext) (pa pd pn : Params.t)
    (acc : list MutationTestResult * list MutationTestResult)
    (m : Strategies.Mutation) :
  key = "TopicArn" \/ key = "ResourceArn" ->
  In m (Strategies.defaultMutations ++ Strategies.parameterMutations)%list ->
  Params.get key pa = Some (allowedTopicArn ctx) ->
  Params.get key pd = Some (deniedTopicArn ctx) ->
  Params.get key pn = Some (nonexistentTopicArn ctx) ->
  keeps (sentOnLeg ctx key) (mutationRound net actionName ctx pa pd pn acc m).
Proof.
  intros Hkey Hm Ha Hd Hn. unfold mutationRound.
  destruct (negb _); [apply keeps_mret|].
  apply keeps_mbind.
  { apply keeps_send. intro answer. left. cbn.
    now rewrite (catalog_keeps_key key m pa _ Hkey Hm). }
  intro ra. apply keeps_mbind.
  { apply keeps_send. intro answer. right; left. cbn.
    now rewrite (catalog_keeps_key key m pd _ Hkey Hm). }
  intro rd. apply keeps_mbind.
  { apply keeps_send. intro answer. right; right. cbn.
    now rewrite (catalog_keeps_key key m pn _ Hkey Hm). }
  intro rn. apply keeps_mbind;
    [apply keeps_writeLogs, sentOnLeg_other|intros _].
  apply keeps_mbind;
    [apply keeps_writeScripts, sentOnLeg_other|intros _].
  destruct acc. apply keeps_mret.
Qed.

Lemma keeps_testActionMutations (version : string) (net : Network)
    (a : Actions.Action) (ctx : MutationTestContext) :
  In a (Actions.ALL_ACTIONS version) ->
  keeps (sentOnLeg ctx (Actions.parameterKey (Actions.parameterName a)))
    (testActionMutations net a ctx).
Proof.
  intro Ha. unfold testActionMutations.
  pose proof (catalog_parameter_key version a Ha) as Hkey.
  apply keeps_lift_bind. intros pa Hpa.
  apply keeps_lift_bind. intros pd Hpd.
  apply keeps_lift_bind. intros pn Hpn.
  destruct (proj1 (catalog_builders version a _ Ha) pa Hpa)
    as (_ & Hka & _).
  destruct (proj1 (catalog_builders version a _ Ha) pd Hpd)
    as (_ & Hkd & _).
  destruct (proj1 (catalog_builders version a _ Ha) pn Hpn)
    as (_ & Hkn & _).
  apply keeps_mbind.
  { apply keeps_send. intro answer. left. now cbn. }
  intro ra. apply keeps_mbind.
  { apply keeps_send. intro answer. right; left. now cbn. }
  intro rd. apply keeps_mbind.
  { apply keeps_send. intro answer. right; right. now cbn. }
  intro rn. apply keeps_mbind;
    [apply keeps_writeLogs, sentOnLeg_other|intros _].
  apply keeps_mbind;
    [apply keeps_writeScripts, sentOnLeg_other|intros _].
  apply keeps_mbind; [|intro acc; apply keeps_mret].
  apply keeps_forEach. intros acc m Hm.
  now apply keeps_mutationRound.
Qed.

(** Whatever the network answers, and whether the round returns or
    throws, every request that the probing of a catalog action sends,
    baseline or mutated, goes to the endpoint and region of one of the
    three topics and carries that same topic's ARN under the action's
    parameter name: no mutation redirects a probe to another resource,
    and no probe meant for one topic reaches the endpoint of another. *)
Theorem probes_stay_on_their_topic (version : string) (net : Network)
    (a : Actions.Action) (ctx : MutationTestContext)
    (outcome : Exn.result ActionMutationResult) (tr : Trace)
    (request : Request) (answer : option HttpResponse)
    (Ha : In a (Actions.ALL_ACTIONS version))
    (Hrun : testActionMutations net a ctx [] = (outcome, tr))
    (Hsent : In (Sent request answer) tr) :
  onLeg ctx (Actions.parameterKey (Actions.parameterName a)) request.
Proof.
  pose proof (keeps_testActionMutations version net a ctx Ha [] outcome tr
                (Forall_nil _) Hrun) as H.
  rewrite Forall_forall in H. exact (H _ Hsent).
Qed.

End ProberTargets.

(** ** The prober: what a finished round reports *)

Section ProberAccounting.
Import Runner.

Lemma useful_statuses (m : Compare.MutationTopics)
    (mutationName actionName : option string) :
  Compare.useful (Compare.isUsefulMutation m mutationName actionName) = true ->
  authBoundaryCrossed m.
Proof.
  unfold Compare.isUsefulMutation, authBoundaryCrossed. cbv zeta.
  intro H.
  destruct (Compare.status (Compare.denied m) =? 403)%Z eqn:D403.
  - apply Z.eqb_eq in D403. split; [exact D403|].
    destruct (Compare.status (Compare.allowed m) =? 200)%Z eqn:A200.
    + apply Z.eqb_eq in A200. split; [lia|now left].
    + rewrite andb_false_r, andb_false_l in H.
      destruct (Compare.status (Compare.allowed m) =? 403)%Z eqn:A403;
        [discriminate H|].
      apply Z.eqb_neq in A403. split; [exact A403|]. right.
      cbn [negb] in H. rewrite andb_true_r in H.
      match type of H with
      | Compare.useful (if ?c then _ else _) = true => destruct c
      end; [discriminate H|].
      match type of H with
      | Compare.useful (if ?c then _ else _) = true =>
          destruct c eqn:Range
      end; [|discriminate H].
      apply andb_prop in Range. destruct Range as [Range Hi].
      apply andb_prop in Range. destruct Range as [_ Lo]. lia.
  - rewrite andb_false_r in H. cbn [negb] in H.
    destruct (Compare.status (Compare.allowed m) =? 403)%Z;
      [discriminate H|].
    destruct (Js.strict_eq _ _); discriminate H.
Qed.

Lemma sentCount_sent (tr : Trace) (request : Request)
    (answer : option HttpResponse) :
  sentCount (tr ++ [Sent request answer])%list = sentCount tr + 1.
Proof. now rewrite sentCount_app. Qed.

Lemma writeLogs_inr (name : string) (tr tr' : Trace) (u : unit) :
  writeLogs name tr = (inr u, tr') -> sentCount tr' = sentCount tr.
Proof.
  unfold writeLogs, mbind, emit. intro H. injection H as _ <-.
  rewrite !sentCount_app. cbn. lia.
Qed.

Lemma writeScripts_inr (name : string) (ctx : MutationTestContext)
    (pa pd pn : Params.t) (tr tr' : Trace) (u : unit) :
  writeScripts name ctx pa pd pn tr = (inr u, tr') ->
  sentCount tr' = sentCount tr.
Proof.
  unfold writeScripts, mbind, emit. intro H. injection H as _ <-.
  rewrite !sentCount_app. cbn. lia.
Qed.

(** One round of the loop over the mutations, when it returns. *)
Lemma mutationRound_inr (net : Network) (actionName : string)
    (ctx : MutationTestContext) (pa pd pn : Params.t)
    (acc acc' : list MutationTestResult * list MutationTestResult)
    (m : Strategies.Mutation) (tr tr' : Trace) :
  mutationRound net actionName ctx pa pd pn acc m tr = (inr acc', tr') ->
  (changesBaseline pa (allowedTopicArn ctx) m = false
   /\ acc' = acc /\ tr' = tr)
  \/ (changesBaseline pa (allowedTopicArn ctx) m = true
      /\ exists t,
           fst acc' = (fst acc ++ [t])%list
           /\ snd acc' = (if useful t then (snd acc ++ [t])%list
                          else snd acc)
           /\ mutationName t = Strategies.name m
           /\ classifiedAs actionName t
           /\ sentCount tr' = sentCount tr + 3).
Proof.
  unfold mutationRound, changesBaseline. cbv zeta.
  destruct (Strategies.didMutationChangeParams pa _) eqn:Echanged;
    cbn [negb].
  - intro H. right. split; [reflexivity|].
    apply mbind_inr in H. destruct H as (ra & tr1 & H1 & H).
    apply mbind_inr in H. destruct H as (rd & tr2 & H2 & H).
    apply mbind_inr in H. destruct H as (rn & tr3 & H3 & H).
    apply mbind_inr in H. destruct H as (u1 & tr4 & H4 & H).
    apply mbind_inr in H. destruct H as (u2 & tr5 & H5 & H).
    apply send_inr in H1, H2, H3.
    apply writeLogs_inr in H4. apply writeScripts_inr in H5.
    destruct acc as [results usefuls].
    apply mret_inr in H. destruct H as [-> ->].
    eexists. cbn [fst snd].
    split; [reflexivity|]. split; [reflexivity|].
    split; [reflexivity|]. split; [split; reflexivity|].
    rewrite H5, H4, H3, H2, H1, !sentCount_sent. lia.
  - intro H. left. apply mret_inr in H. destruct H as [-> ->]. auto.
Qed.

Lemma roundsSoFar_step (net : Network) (actionName : string)
    (ctx : MutationTestContext) (pa pd pn : Params.t) (sentBefore : nat)
    (done : list Strategies.Mutation)
    (acc acc' : list MutationTestResult * list MutationTestResult)
    (m : Strategies.Mutation) (tr tr' : Trace) :
  roundsSoFar actionName pa (allowedTopicArn ctx) sentBefore done acc tr ->
  mutationRound net actionName ctx pa pd pn acc m tr = (inr acc', tr') ->
  roundsSoFar actionName pa (allowedTopicArn ctx) sentBefore
    (done ++ [m])%list acc' tr'.
Proof.
  intros (Hnames & Hfilter & Hclass & Hsent) Hround.
  apply mutationRound_inr in Hround. unfold roundsSoFar.
  rewrite filter_app. cbn [filter].
  destruct Hround as [(Eskip & -> & ->)
                     | (Ego & t & Hfst & Hsnd & Hname & Ht & Hcount)].
  - rewrite Eskip, app_nil_r. auto.
  - rewrite Ego, Hfst, Hsnd, !map_app, filter_app, length_app, Hnames,
      Hfilter, Hcount, Hsent.
    cbn [map filter length]. rewrite Hname.
    repeat split.
    + destruct (useful t); [reflexivity|now rewrite app_nil_r].
    + apply Forall_app. split; [assumption|now constructor].
    + lia.
Qed.

(** A probing of one action, when it returns. *)
Lemma testActionMutations_inr (net : Network) (a : Actions.Action)
    (ctx : MutationTestContext) (tr tr' : Trace)
    (r : ActionMutationResult) :
  testActionMutations net a ctx tr = (inr r, tr') ->
  exists pa,
    Actions.buildParams a (allowedTopicArn ctx) = inr pa
    /\ action r = Actions.name a
    /\ roundsSoFar (Actions.name a) pa (allowedTopicArn ctx)
         (sentCount tr + 3)
         (Strategies.getMutationsForAction (Actions.name a))
         (mutations r, usefulMutations r) tr'.
Proof.
  unfold testActionMutations. cbv zeta. intro H.
  apply mbind_inr in H. destruct H as (pa & t1 & Hpa & H).
  apply lift_inr in Hpa. destruct Hpa as [Hpa ->].
  apply mbind_inr in H. destruct H as (pd & t2 & Hpd & H).
  apply lift_inr in Hpd. destruct Hpd as [Hpd ->].
  apply mbind_inr in H. destruct H as (pn & t3 & Hpn & H).
  apply lift_inr in Hpn. destruct Hpn as [Hpn ->].
  apply mbind_inr in H. destruct H as (ra & tr1 & H1 & H).
  apply mbind_inr in H. destruct H as (rd & tr2 & H2 & H).
  apply mbind_inr in H. destruct H as (rn & tr3 & H3 & H).
  apply mbind_inr in H. destruct H as (u1 & tr4 & H4 & H).
  apply mbind_inr in H. destruct H as (u2 & tr5 & H5 & H).
  apply mbind_inr in H. destruct H as (acc & tr6 & Hloop & H).
  apply mret_inr in H. destruct H as [-> ->].
  apply send_inr in H1, H2, H3.
  apply writeLogs_inr in H4. apply writeScripts_inr in H5.
  exists pa. split; [exact Hpa|]. split; [reflexivity|].
  cbn [mutations usefulMutations]. rewrite <- surjective_pairing.
  apply (forEach_inr _
           (roundsSoFar (Actions.name a) pa (allowedTopicArn ctx)
              (sentCount tr + 3))
           (Strategies.getMutationsForAction (Actions.name a))
           (fun done m acc0 tr0 acc0' tr0' _ HI Hr =>
              roundsSoFar_step net _ ctx pa pd pn _ done acc0 acc0' m
                tr0 tr0' HI Hr)
           [] ([], []) tr5 acc tr6); [|exact Hloop].
  unfold roundsSoFar. cbn [fst snd map filter length].
  repeat split; [constructor|].
  rewrite H5, H4, H3, H2, H1, !sentCount_sent. lia.
Qed.

(** The probing of an action tests exactly the catalog mutations that
    change the allowed topic's baseline request, each once and in catalog
    order, and sends three requests for the baseline and three for each
    mutation it tests: a mutation that leaves the baseline as it is costs
    no request. *)
Theorem tested_mutations_change_the_baseline (net : Network)
    (a : Actions.Action) (ctx : MutationTestContext) (tr : Trace)
    (r : ActionMutationResult)
    (Hrun : testActionMutations net a ctx [] = (inr r, tr)) :
  exists baselineAllowedParams,
    Actions.buildParams a (allowedTopicArn ctx) = inr baselineAllowedParams
    /\ action r = Actions.name a
    /\ map mutationName (mutations r)
       = map Strategies.name
           (filter (changesBaseline baselineAllowedParams
                      (allowedTopicArn ctx))
              (Strategies.getMutationsForAction (Actions.name a)))
    /\ sentCount tr = 3 + 3 * length (mutations r).
Proof.
  apply testActionMutations_inr in Hrun.
  destruct Hrun as (pa & Hpa & Haction & Hnames & _ & _ & Hsent).
  exists pa. cbn [fst] in *. repeat split; assumption.
Qed.

(** The useful list of a finished probing is the sub-list of the tested
    mutations whose verdict is useful; every verdict and reason is the
    classifier's on that entry's own three results; and behind every
    entry reported useful the denied topic answered 403 while the allowed
    topic answered 200 or a 4xx other than 403. *)
Theorem useful_list_is_sound (net : Network) (a : Actions.Action)
    (ctx : MutationTestContext) (tr : Trace) (r : ActionMutationResult)
    (Hrun : testActionMutations net a ctx [] = (inr r, tr)) :
  usefulMutations r = filter useful (mutations r)
  /\ Forall (classifiedAs (Actions.name a)) (mutations r)
  /\ Forall (fun t => useful t = true /\ authBoundaryCrossed (topics t))
       (usefulMutations r).
Proof.
  apply testActionMutations_inr in Hrun.
  destruct Hrun as (pa & _ & _ & _ & Hfilter & Hclass & _).
  cbn [fst snd] in *. split; [exact Hfilter|]. split; [exact Hclass|].
  rewrite Hfilter. apply Forall_forall. intros t Ht.
  apply filter_In in Ht. destruct Ht as [Hin Huseful].
  split; [exact Huseful|].
  rewrite Forall_forall in Hclass. destruct (Hclass t Hin) as [Hu _].
  rewrite Hu in Huseful. exact (useful_statuses _ _ _ Huseful).
Qed.

End ProberAccounting.

(** ** The prober: a whole run *)

Section ProberRun.
Import Runner.

Variable SNS_API_VERSION : string.

Lemma actionsSoFar_step (net : Network) (ctx : MutationTestContext)
    (sentBefore : nat) (done : list Actions.Action)
    (acc acc' : list ActionMutationResult * nat * nat)
    (a : Actions.Action) (tr tr' : Trace) :
  actionsSoFar sentBefore done acc tr ->
  actionRound net ctx acc a tr = (inr acc', tr') ->
  actionsSoFar sentBefore (done ++ [a])%list acc' tr'.
Proof.
  intros (Hnames & Htotal & Hfound & Hle & Hsent) Hround.
  unfold actionRound in Hround. apply mbind_inr in Hround.
  destruct Hround as (r & tr1 & Hprobe & Hret).
  destruct acc as [[results total] found]. cbn [fst snd] in *.
  apply mret_inr in Hret. destruct Hret as [-> ->].
  apply testActionMutations_inr in Hprobe.
  destruct Hprobe as (pa & _ & Haction & _ & Hfilter & _ & Hcount).
  cbn [fst snd] in Hfilter, Hcount.
  unfold actionsSoFar, mutationsTested, usefulFound in *. cbn [fst snd].
  rewrite !map_app, !list_sum_app, length_app. cbn [map length].
  unfold list_sum at 2 4 6 8 10. cbn [fold_right]. rewrite !Nat.add_0_r.
  rewrite Hnames, Haction, Htotal, Hfound, Hcount, Hsent.
  assert (length (usefulMutations r) <= length (mutations r))
    by (rewrite Hfilter; apply filter_length_le).
  repeat split; lia.
Qed.

(** A run, when it returns. *)
Lemma runRequestMutations_inr (env : Env) (options : CliOptions)
    (tr : Trace) (result : RequestMutationsResult) :
  runRequestMutations SNS_API_VERSION env options [] = (inr result, tr) ->
  totalActions (summary result)
  = length (Actions.getActionsByMode SNS_API_VERSION (mode options))
  /\ actionsSoFar 0
       (Actions.getActionsByMode SNS_API_VERSION (mode options))
       (actions result, totalMutationsTested (summary result),
        usefulMutationsFound (summary result)) tr.
Proof.
  unfold runRequestMutations. cbv zeta.
  destruct (negb (Js.truthy (compare options))); [discriminate|].
  intro H.
  apply mbind_inr in H. destruct H as (nonexistent & t1 & H1 & H).
  apply lift_inr in H1. destruct H1 as [_ ->].
  apply mbind_inr in H. destruct H as (allowedRegion & t2 & H2 & H).
  assert (t2 = []) as ->.
  { destruct (Js.truthy (optRegion options)).
    - apply mret_inr in H2. now destruct H2.
    - apply lift_inr in H2. now destruct H2. }
  apply mbind_inr in H. destruct H as (deniedRegion & t3 & H3 & H).
  apply lift_inr in H3. destruct H3 as [_ ->].
  destruct (negb (credentialsLoaded env)); [discriminate|].
  destruct (negb (success (verifyResult env)) || _)%bool.
  { destruct (Js.includes _ "expired"); discriminate. }
  apply mbind_inr in H. destruct H as (u1 & t4 & H4 & H).
  apply emit_inr in H4.
  apply mbind_inr in H. destruct H as (acc & t5 & Hloop & H).
  destruct acc as [[results total] found].
  apply mbind_inr in H. destruct H as (u2 & t6 & H6 & H).
  apply emit_inr in H6.
  apply mret_inr in H. destruct H as [-> ->].
  cbn [summary totalActions totalMutationsTested usefulMutationsFound
         actions].
  split; [reflexivity|].
  match type of Hloop with
  | forEach ?xs (actionRound ?n ?c) _ _ = _ =>
      pose proof (forEach_inr (actionRound n c) (actionsSoFar 0) xs
                    (fun done a acc0 tr0 acc0' tr0' _ HI Hr =>
                       actionsSoFar_step n c 0 done acc0 acc0' a tr0 tr0'
                         HI Hr)
                    [] ([], 0, 0) t4 (results, total, found) t5) as Hinv
  end.
  cbn [app] in Hinv.
  assert (Hstart : actionsSoFar 0 [] ([], 0, 0) t4).
  { subst t4. unfold actionsSoFar. cbn. repeat split; lia. }
  specialize (Hinv Hstart Hloop).
  destruct Hinv as (Hn & Ht & Hf & Hle & Hs).
  unfold actionsSoFar. cbn [fst snd] in *. subst t6.
  rewrite sentCount_app. cbn [sentCount filter isSent length app].
  repeat split; try assumption. lia.
Qed.

(** The summary of a finished run adds up.  The run reports one result
    per action of the chosen mode, in catalog order; [totalActions] is
    their number, [totalMutationsTested] and [usefulMutationsFound] are
    the sums of the per-action lists' lengths, no more mutations are
    reported useful than were tested, and the run sent three requests
    per baseline and three per tested mutation, so that the number of
    requests to the topics is three times the two totals together.  (The
    request that verifies the credentials comes before the run proper;
    its outcome is part of the environment.) *)
Theorem run_summary_adds_up (env : Env) (options : CliOptions)
    (tr : Trace) (result : RequestMutationsResult)
    (Hrun : runRequestMutations SNS_API_VERSION env options []
            = (inr result, tr)) :
  map action (actions result)
  = map Actions.name
      (Actions.getActionsByMode SNS_API_VERSION (mode options))
  /\ totalActions (summary result) = length (actions result)
  /\ totalMutationsTested (summary result)
     = mutationsTested (actions result)
  /\ usefulMutationsFound (summary result) = usefulFound (actions result)
  /\ usefulMutationsFound (summary result)
     <= totalMutationsTested (summary result)
  /\ sentCount tr
     = 3 * (totalActions (summary result)
            + totalMutationsTested (summary result)).
Proof.
  apply runRequestMutations_inr in Hrun.
  destruct Hrun as (Hactions & Hn & Ht & Hf & Hle & Hs).
  cbn [fst snd] in *.
  assert (Hlen : length (actions result)
                 = length (Actions.getActionsByMode SNS_API_VERSION
                             (mode options))).
  { rewrite <- (length_map action), Hn. apply length_map. }
  repeat split; try assumption; try lia.
Qed.

(** *** Runs that return *)












End ProberRun.

Section ProberCompletes.
Import Runner.

Variable SNS_API_VERSION : string.


End ProberCompletes.

Section ProberExamples.
Import Runner.

Lemma probes_stay_on_their_topic_witness :
  onLeg sample_context "TopicArn" first_mutated_request.
Proof.
  eapply (probes_stay_on_their_topic "2010-03-31" (flaky_network 3)
            (Actions.GetTopicAttributes "2010-03-31") sample_context
            _ _ first_mutated_request None).
  - left. reflexivity.
  - lazy. reflexivity.
  - cbn [In]. do 9 right. left. reflexivity.
Defined.

Lemma sample_probe_returns :
  sample_probe = (inr (returned no_probe sample_probe), snd sample_probe).
Proof. vm_compute. reflexivity. Qed.

Lemma sample_run_returns :
  sample_run = (inr (returned no_run sample_run), snd sample_run).
Proof. vm_compute. reflexivity. Qed.

Lemma tested_mutations_change_the_baseline_witness :
  map mutationName (mutations (returned no_probe sample_probe))
  = ["remove-action"; "remove-version"]
  /\ sentCount (snd sample_probe) = 3 + 3 * 2.
Proof.
  destruct (tested_mutations_change_the_baseline sample_service
              (Actions.GetTopicAttributes "2010-03-31") sample_context
              _ _ sample_probe_returns)
    as (pa & Hpa & _ & Hnames & Hsent).
  injection Hpa as <-.
  split; [rewrite Hnames|rewrite Hsent]; vm_compute; reflexivity.
Defined.

Lemma useful_list_is_sound_witness :
  map mutationName (usefulMutations (returned no_probe sample_probe))
  = ["remove-action"; "remove-version"]
  /\ Forall (fun t => useful t = true /\ authBoundaryCrossed (topics t))
       (usefulMutations (returned no_probe sample_probe)).
Proof.
  split; [vm_compute; reflexivity|].
  exact (proj2 (proj2 (useful_list_is_sound sample_service
                         (Actions.GetTopicAttributes "2010-03-31")
                         sample_context _ _ sample_probe_returns))).
Defined.

Lemma run_summary_adds_up_witness :
  summary (returned no_run sample_run)
  = {| totalActions := 4; totalMutationsTested := 8;
       usefulMutationsFound := 4 |}
  /\ sentCount (snd sample_run)
     = 3 * (totalActions (summary (returned no_run sample_run))
            + totalMutationsTested (summary (returned no_run sample_run))).
Proof.
  split; [vm_compute; reflexivity|].
  exact (proj2 (proj2 (proj2 (proj2 (proj2
           (run_summary_adds_up "2010-03-31" (sample_env sample_service)
              sample_options _ _ sample_run_returns)))))).
Defined.


End ProberExamples.

(** ** Reading the error document of a response *)

Section ResponseParsing.
Import Summary.

Lemma append_assoc (a b c : string) : (a ++ b) ++ c = a ++ (b ++ c).
Proof. induction a as [|x a IH]; cbn [append]; congruence. Qed.

Lemma append_nil_r (s : string) : s ++ "" = s.
Proof. induction s as [|x s IH]; cbn [append]; congruence. Qed.

Lemma strip_prefix_Some (p s r : string) :
  Re.strip_prefix p s = Some r <-> s = p ++ r.
Proof.
  revert s. induction p as [|a p IH]; intro s; cbn [Re.strip_prefix append].
  - split; [now intros [= ->]|now intros ->].
  - destruct s as [|b s]; [split; discriminate|].
    destruct (Ascii.eqb a b) eqn:E.
    + apply Ascii.eqb_eq in E. subst b. rewrite IH.
      split; [now intros ->|now intros [= ->]].
    + apply Ascii.eqb_neq in E. split; [discriminate|].
      intros [= -> _]. now elim E.
Qed.

Lemma prefix_inv (p s : string) :
  String.prefix p s = true -> exists r, s = p ++ r.
Proof.
  revert s. induction p as [|a p IH]; intro s; cbn [String.prefix].
  - intros _. now exists s.
  - destruct s as [|b s]; [discriminate|]. cbn [String.prefix].
    destruct (ascii_dec a b) as [->|]; [|discriminate].
    intro H. destruct (IH s H) as (r & ->). now exists r.
Qed.

Lemma plain_app (a b : string) : plain (a ++ b) = plain a && plain b.
Proof.
  induction a as [|c a IH]; cbn [append plain]; [reflexivity|].
  now rewrite IH, andb_assoc.
Qed.

Lemma span_text_spec (s run tail : string) :
  span_text s = (run, tail) ->
  s = run ++ tail /\ plain run = true.
Proof.
  revert run tail. induction s as [|c s IH]; intros run tail;
    cbn [span_text].
  - intros [= <- <-]. now split.
  - destruct (Ascii.eqb c "<") eqn:E.
    + intros [= <- <-]. now split.
    + destruct (span_text s) as [run0 tail0]. intros [= <- <-].
      destruct (IH run0 tail0 eq_refl) as [-> Hp].
      cbn [append plain]. now rewrite E, Hp.
Qed.

Lemma span_text_plain (g rest : string) :
  plain g = true -> span_text (g ++ String "<" rest) = (g, String "<" rest).
Proof.
  induction g as [|c g IH]; cbn [append plain span_text]; [reflexivity|].
  intro H. apply andb_prop in H. destruct H as [Hc Hg].
  apply negb_true_iff in Hc. now rewrite Hc, (IH Hg).
Qed.

Lemma capture_unfold (tag s : string) :
  capture tag s
  = match capture_here tag s with
    | Some group => Some group
    | None =>
        match s with
        | String _ rest => capture tag rest
        | EmptyString => None
        end
    end.
Proof. now destruct s. Qed.

Lemma capture_here_sound (tag s g : string) :
  capture_here tag s = Some g ->
  exists post, s = element tag g ++ post /\ g <> "" /\ plain g = true.
Proof.
  unfold capture_here.
  destruct (Re.strip_prefix ("<" ++ tag ++ ">") s) as [inner|] eqn:Eo;
    [|discriminate].
  apply strip_prefix_Some in Eo.
  destruct (span_text inner) as [run tail] eqn:Es.
  apply span_text_spec in Es. destruct Es as [-> Hplain].
  destruct (run =? "") eqn:Ee; [discriminate|].
  destruct (String.prefix ("</" ++ tag ++ ">") tail) eqn:Ec; [|discriminate].
  intros [= <-]. apply prefix_inv in Ec. destruct Ec as (post & ->).
  exists post. split; [|split; [now apply String.eqb_neq|exact Hplain]].
  subst s. unfold element. now rewrite !append_assoc.
Qed.

Lemma element_app (tag g post : string) :
  element tag g ++ post
  = ("<" ++ tag ++ ">") ++ g ++ ("</" ++ tag ++ ">") ++ post.
Proof. unfold element. now rewrite !append_assoc. Qed.

Lemma capture_here_complete (tag g post : string) :
  g <> "" -> plain g = true ->
  capture_here tag (element tag g ++ post) = Some g.
Proof.
  intros Hg Hplain. unfold capture_here. rewrite element_app.
  rewrite (proj2 (strip_prefix_Some ("<" ++ tag ++ ">") _ _) eq_refl).
  change (("</" ++ tag ++ ">") ++ post)
    with (String "<" (("/" ++ tag ++ ">") ++ post)).
  rewrite (span_text_plain g _ Hplain).
  apply String.eqb_neq in Hg. rewrite Hg.
  change (String "<" (("/" ++ tag ++ ">") ++ post))
    with (("</" ++ tag ++ ">") ++ post).
  now rewrite prefix_app.
Qed.

Lemma app_eq_app (a b c d : string) :
  a ++ b = c ++ d ->
  (exists w, c = a ++ w /\ b = w ++ d)
  \/ (exists w, a = c ++ w /\ d = w ++ b).
Proof.
  revert c. induction a as [|x a IH]; intro c; cbn [append].
  - intros ->. left. now exists c.
  - destruct c as [|y c]; cbn [append].
    + intros <-. right. now exists (String x a).
    + intros [= -> H]. destruct (IH c H) as [(w & -> & ->)|(w & -> & ->)].
      * left. now exists w.
      * right. now exists w.
Qed.

(** Before the first opening tag no match starts, when the tag name
    itself holds no ['<']. *)
Lemma no_early_open (tag pre rest : string) (c : ascii) :
  plain tag = true ->
  Js.includes (String c pre) ("<" ++ tag ++ ">") = false ->
  capture_here tag (String c pre ++ String "<" rest) = None.
Proof.
  intros Htag Hpre. unfold capture_here.
  destruct (Re.strip_prefix ("<" ++ tag ++ ">") _) as [inner|] eqn:Eo;
    [|reflexivity].
  exfalso. apply strip_prefix_Some in Eo. apply app_eq_app in Eo.
  destruct Eo as [(w & Hopen & Hrest)|(w & Hopen & _)].
  - destruct w as [|x w].
    + rewrite append_nil_r in Hopen. rewrite Hopen in Hpre.
      rewrite includes_prefix in Hpre; [discriminate|].
      rewrite <- (append_nil_r (String c pre)) at 2. apply prefix_app.
    + injection Hrest as <- _. cbn [append] in Hopen.
      injection Hopen as _ Hopen.
      assert (Hp : plain (tag ++ ">") = true)
        by (rewrite plain_app, Htag; reflexivity).
      rewrite Hopen, plain_app in Hp. cbn in Hp.
      now rewrite andb_false_r in Hp.
  - rewrite Hopen in Hpre.
    rewrite includes_prefix in Hpre; [discriminate|apply prefix_app].
Qed.

(** What [parseErrorDetails] and its siblings extract was in the
    document, as the text of an element of that name: a captured field is
    never empty, holds no markup, and stands in the body between its
    opening and its closing tag. *)
Theorem captured_text_is_tagged (tag body text : string)
    (Hcaptured : capture tag body = Some text) :
  exists before after,
    body = before ++ element tag text ++ after
    /\ text <> "" /\ plain text = true.
Proof.
  induction body as [|c body IH]; rewrite capture_unfold in Hcaptured;
    destruct (capture_here tag _) as [found|] eqn:Ehere.
  - injection Hcaptured as ->. apply capture_here_sound in Ehere.
    destruct Ehere as (after & H). now exists "", after.
  - discriminate.
  - injection Hcaptured as ->. apply capture_here_sound in Ehere.
    destruct Ehere as (after & H). now exists "", after.
  - destruct (IH Hcaptured) as (before & after & -> & H).
    now exists (String c before), after.
Qed.

Lemma captured_text_is_tagged_witness :
  exists before after,
    "<Error><Code>NotFound</Code><Message>Topic does not exist</Message></Error>"
    = before ++ element "Message" "Topic does not exist" ++ after
    /\ "Topic does not exist" <> "" /\ plain "Topic does not exist" = true.
Proof.
  exact (captured_text_is_tagged "Message"
           "<Error><Code>NotFound</Code><Message>Topic does not exist</Message></Error>"
           "Topic does not exist" eq_refl).
Defined.

(** The first element of a name is the one that is read.  Whatever
    surrounds it, line breaks and other elements included, when the
    opening tag does not occur earlier in the body and the element's text
    is not empty and holds no ['<'], the field is that text. *)
Theorem first_element_is_captured (tag before text after : string)
    (Htag : plain tag = true)
    (Hfirst : Js.includes before ("<" ++ tag ++ ">") = false)
    (Hsome : text <> "")
    (Hplain : plain text = true) :
  capture tag (before ++ element tag text ++ after) = Some text.
Proof.
  induction before as [|c before IH].
  - cbn [append]. rewrite capture_unfold.
    now rewrite capture_here_complete.
  - rewrite capture_unfold.
    change (element tag text ++ after)
      with (String "<"
              ((tag ++ ">" ++ text ++ "</" ++ tag ++ ">") ++ after)).
    rewrite (no_early_open tag before _ c Htag Hfirst). cbn [append].
    apply IH. cbn [Js.includes] in Hfirst.
    apply orb_false_elim in Hfirst. now destruct Hfirst.
Qed.

Lemma first_element_is_captured_witness :
  capture "Code"
    ("<ErrorResponse>
      <Error>
        <Type>Sender</Type>
        " ++ element "Code" "AuthorizationError" ++ "
        <Message>Access denied</Message>
      </Error>
      <RequestId>abc-123</RequestId>
    </ErrorResponse>")
  = Some "AuthorizationError".
Proof.
  apply first_element_is_captured; (reflexivity || discriminate).
Defined.

(** The error code the usefulness classifier reads off a response: none
    for a 2xx status, whatever the body says, and otherwise the text of
    the body's first well-formed Code element. *)
Theorem classifier_reads_code_of_failures (response : Runner.HttpResponse) :
  Compare.errorCode (Runner.buildTopicResult response)
  = if isSuccessStatus (Runner.status response) then None
    else capture "Code" (Runner.body response).
Proof.
  unfold Runner.buildTopicResult, Compare.errorCode. cbv zeta.
  destruct (isSuccessStatus (Runner.status response)); cbn; [reflexivity|].
  unfold Js.or_else. now destruct (Js.truthy _).
Qed.

End ResponseParsing.

(** ** The compare mode *)

Section CompareMode.
Import Runner CompareReport.

Variable SNS_API_VERSION : string.

Lemma executeComparison_inr (net : Network) (a : Actions.Action)
    (ctx : CompareRunner.CompareContext) (tr tr' : Trace)
    (c : MutationComparison) :
  CompareRunner.executeComparison net a ctx tr = (inr c, tr') ->
  action c = Actions.name a
  /\ isMatch (comparison c) = sameStatus c
  /\ sentCount tr' = sentCount tr + 2.
Proof.
  unfold CompareRunner.executeComparison. cbv zeta. intro H.
  apply mbind_inr in H. destruct H as (pa & t0 & H0 & H).
  apply lift_inr in H0. destruct H0 as [_ ->].
  apply mbind_inr in H. destruct H as (ra & t1 & H1 & H).
  apply mbind_inr in H. destruct H as (u1 & t2 & H2 & H).
  apply mbind_inr in H. destruct H as (u2 & t3 & H3 & H).
  apply mbind_inr in H. destruct H as (pd & t4 & H4 & H).
  apply lift_inr in H4. destruct H4 as [_ ->].
  apply mbind_inr in H. destruct H as (rd & t5 & H5 & H).
  apply mbind_inr in H. destruct H as (u3 & t6 & H6 & H).
  apply mbind_inr in H. destruct H as (u4 & t7 & H7 & H).
  apply mret_inr in H. destruct H as [-> ->].
  apply send_inr in H1, H5. apply emit_inr in H2, H3, H6, H7.
  split; [reflexivity|]. split; [reflexivity|].
  subst. rewrite !sentCount_app. cbn. lia.
Qed.

Lemma comparisonsSoFar_step (net : Network)
    (ctx : CompareRunner.CompareContext) (sentBefore : nat)
    (done : list Actions.Action) (acc acc' : list MutationComparison)
    (a : Actions.Action) (tr tr' : Trace) :
  comparisonsSoFar sentBefore done acc tr ->
  CompareRunner.comparisonRound net ctx acc a tr = (inr acc', tr') ->
  comparisonsSoFar sentBefore (done ++ [a])%list acc' tr'.
Proof.
  intros (Hnames & Hmatch & Hsent) Hround.
  unfold CompareRunner.comparisonRound in Hround.
  apply mbind_inr in Hround. destruct Hround as (c & tr1 & Hc & Hret).
  apply mret_inr in Hret. destruct Hret as [-> ->].
  apply executeComparison_inr in Hc. destruct Hc as (Ha & Hm & Hs).
  unfold comparisonsSoFar. rewrite !map_app, length_app, Hnames, Hs, Hsent.
  cbn [map length]. rewrite Ha. repeat split; [|lia].
  apply Forall_app. split; [assumption|now constructor].
Qed.

Lemma runMutations_inr (env : Env) (options : CliOptions) (tr : Trace)
    (result : CompareRunner.MutationsResult) :
  CompareRunner.runMutations SNS_API_VERSION env options []
  = (inr result, tr) ->
  CompareRunner.summary result
  = createMutationsSummary (CompareRunner.comparisons result)
  /\ comparisonsSoFar 0
       (Actions.getActionsByMode SNS_API_VERSION (mode options))
       (CompareRunner.comparisons result) tr.
Proof.
  unfold CompareRunner.runMutations. cbv zeta.
  destruct (negb (Js.truthy (compare options))); [discriminate|].
  intro H.
  apply mbind_inr in H. destruct H as (allowedRegion & t2 & H2 & H).
  assert (t2 = []) as ->.
  { destruct (Js.truthy (optRegion options)).
    - apply mret_inr in H2. now destruct H2.
    - apply lift_inr in H2. now destruct H2. }
  apply mbind_inr in H. destruct H as (deniedRegion & t3 & H3 & H).
  apply lift_inr in H3. destruct H3 as [_ ->].
  destruct (negb (credentialsLoaded env)); [discriminate|].
  destruct (negb (Runner.success (verifyResult env)) || _)%bool.
  { destruct (Js.includes _ "expired"); discriminate. }
  apply mbind_inr in H. destruct H as (u1 & t4 & H4 & H).
  apply emit_inr in H4.
  apply mbind_inr in H. destruct H as (acc & t5 & Hloop & H).
  apply mbind_inr in H. destruct H as (u2 & t6 & H6 & H).
  apply emit_inr in H6.
  apply mret_inr in H. destruct H as [-> ->].
  cbn [CompareRunner.summary CompareRunner.comparisons].
  split; [reflexivity|].
  match type of Hloop with
  | forEach ?xs (CompareRunner.comparisonRound ?n ?c) _ _ = _ =>
      pose proof (forEach_inr (CompareRunner.comparisonRound n c)
                    (comparisonsSoFar 0) xs
                    (fun done a acc0 tr0 acc0' tr0' _ HI Hr =>
                       comparisonsSoFar_step n c 0 done acc0 acc0' a tr0
                         tr0' HI Hr)
                    [] [] t4 acc t5) as Hinv
  end.
  cbn [app] in Hinv.
  assert (Hstart : comparisonsSoFar 0 [] [] t4).
  { subst t4. unfold comparisonsSoFar. cbn. repeat split. constructor. }
  destruct (Hinv Hstart Hloop) as (Hn & Hm & Hs).
  unfold comparisonsSoFar. subst t6.
  rewrite sentCount_app. cbn [sentCount filter isSent length app].
  repeat split; try assumption. lia.
Qed.

(** The summary of a finished comparison adds up.  The run compares every
    action of the chosen mode once, in catalog order, with two requests
    to the topics each; a comparison is a match exactly when the two HTTP
    statuses are equal, whatever the error codes; and [matching] and
    [different] split [total].  (The request that verifies the credentials
    comes before the run proper; its outcome is part of the
    environment.) *)
Theorem compare_summary_adds_up (env : Env) (options : CliOptions)
    (tr : Trace) (result : CompareRunner.MutationsResult)
    (Hrun : CompareRunner.runMutations SNS_API_VERSION env options []
            = (inr result, tr)) :
  map action (CompareRunner.comparisons result)
  = map Actions.name
      (Actions.getActionsByMode SNS_API_VERSION (mode options))
  /\ total (CompareRunner.summary result)
     = length (CompareRunner.comparisons result)
  /\ matching (CompareRunner.summary result)
     = length (filter sameStatus (CompareRunner.comparisons result))
  /\ matching (CompareRunner.summary result)
     + different (CompareRunner.summary result)
     = total (CompareRunner.summary result)
  /\ sentCount tr = 2 * total (CompareRunner.summary result).
Proof.
  apply runMutations_inr in Hrun.
  destruct Hrun as (-> & Hnames & Hmatch & Hsent).
  unfold createMutationsSummary. cbv zeta. cbn [total matching different].
  assert (Hfilter :
            filter (fun c => isMatch (comparison c))
              (CompareRunner.comparisons result)
            = filter sameStatus (CompareRunner.comparisons result)).
  { apply filter_ext_in. intros c Hc.
    rewrite Forall_forall in Hmatch. exact (Hmatch c Hc). }
  rewrite Hfilter.
  pose proof (filter_length_le sameStatus
                (CompareRunner.comparisons result)).
  repeat split; try assumption; lia.
Qed.

End CompareMode.

Section CompareExamples.
Import Runner.

Lemma compare_summary_adds_up_witness :
  CompareRunner.summary (returned no_comparison sample_comparison)
  = {| CompareReport.total := 4; CompareReport.matching := 2;
       CompareReport.different := 2 |}
  /\ sentCount (snd sample_comparison)
     = 2 * CompareReport.total
             (CompareRunner.summary
                (returned no_comparison sample_comparison)).
Proof.
  split; [vm_compute; reflexivity|].
  refine (proj2 (proj2 (proj2 (proj2
            (compare_summary_adds_up "2010-03-31"
               (sample_env sample_service) sample_options _ _ _))))).
  vm_compute. reflexivity.
Defined.

End CompareExamples.

(** ** Verifying credentials *)

Section Verification.
Import Runner.



End Verification.

(** ** The run summary *)

Section SummaryFacts.
Import SummaryReport.

Lemma lookup_None (actionName : string) (rs : list (string * ActionSummary)) :
  lookup actionName rs = None <-> ~ In actionName (map fst rs).
Proof.
  induction rs as [|[k v] rs IH]; cbn [lookup map fst In].
  - split; [intros _ []|reflexivity].
  - destruct (k =? actionName) eqn:E.
    + apply String.eqb_eq in E. split; [discriminate|]. intro H.
      elim H. now left.
    + apply String.eqb_neq in E. rewrite IH. tauto.
Qed.




Lemma lookup_app_new (actionName : string) (v : ActionSummary)
    (rs : list (string * ActionSummary)) :
  lookup actionName rs = None ->
  lookup actionName (rs ++ [(actionName, v)])%list = Some v.
Proof.
  induction rs as [|[k w] rs IH]; cbn [app lookup].
  - now rewrite String.eqb_refl.
  - destruct (k =? actionName); [discriminate|exact IH].
Qed.




Lemma filter_split {A} (f : A -> bool) (l : list A) :
  length (filter f l) + length (filter (fun x => negb (f x)) l) = length l.
Proof.
  induction l as [|x l IH]; cbn [filter length]; [reflexivity|].
  destruct (f x); cbn [negb length]; lia.
Qed.

Lemma signed_split (l : list ActionSummary) :
  length (filter signedSucceeded l) + length (filter signedFailed l)
  = length (filter hasSigned l).
Proof.
  induction l as [|x l IH]; cbn [filter length]; [reflexivity|].
  unfold signedSucceeded, signedFailed, hasSigned.
  destruct (signed x) as [sg|]; [|exact IH].
  destruct (success sg); cbn [negb length];
    unfold signedSucceeded, signedFailed, hasSigned in IH; lia.
Qed.

(** The totals that [calculateSummaryTotals] writes add up: [total] is the
    number of entries, every entry is counted once among the unsigned
    successes and failures, and the signed successes and failures together
    are the entries that have a signed result.  The entries themselves
    are left as they were. *)
Theorem totals_add_up (s : RunSummary) :
  let s' := calculateSummaryTotals s in
  results s' = results s
  /\ total (summary s') = length (results s)
  /\ succeeded (unsignedCounts (summary s'))
     + failed (unsignedCounts (summary s'))
     = total (summary s')
  /\ succeeded (signedCounts (summary s'))
     + failed (signedCounts (summary s'))
     = length (filter hasSigned (map snd (results s)))
  /\ succeeded (signedCounts (summary s'))
     + failed (signedCounts (summary s'))
     <= total (summary s').
Proof.
  unfold calculateSummaryTotals. cbv zeta.
  cbn [results summary total unsignedCounts signedCounts succeeded failed].
  rewrite filter_split, signed_split, length_map.
  repeat split.
  rewrite <- (length_map snd (results s)). apply filter_length_le.
Qed.

End SummaryFacts.

(** ** The probe mode *)

Section ProbeLogic.
Import Probe.

Lemma probe_mbind_inr {A B} (m : M A) (k : A -> M B) (tr tr' : Trace)
    (b : B) :
  mbind m k tr = (inr b, tr') ->
  exists a tr1, m tr = (inr a, tr1) /\ k a tr1 = (inr b, tr').
Proof.
  unfold mbind. destruct (m tr) as [[e|a] tr1]; [discriminate|].
  intro H. now exists a, tr1.
Qed.

Lemma probe_lift_inr {A} (x : Exn.result A) (tr tr' : Trace) (a : A) :
  lift x tr = (inr a, tr') -> x = inr a /\ tr' = tr.
Proof. unfold lift. intro H. injection H as -> ->. now split. Qed.

Lemma probe_mret_inr {A} (x a : A) (tr tr' : Trace) :
  mret x tr = (inr a, tr') -> a = x /\ tr' = tr.
Proof. unfold mret. intro H. injection H as -> ->. now split. Qed.

Lemma probe_emit_inr (e : Event) (tr tr' : Trace) (u : unit) :
  emit e tr = (inr u, tr') -> tr' = (tr ++ [e])%list.
Proof. unfold emit. intro H. now injection H as _ <-. Qed.

Lemma probe_send_inr (net : Network) (request : Request) (tr tr' : Trace)
    (response : Runner.HttpResponse) :
  sendRequest net request tr = (inr response, tr') ->
  tr' = (tr ++ [Sent request (Some response)])%list.
Proof.
  unfold sendRequest. destruct (net (sentCount tr) request); [|discriminate].
  intro H. now injection H as <- <-.
Qed.

Lemma probe_sentCount_app (tr tr' : Trace) :
  sentCount (tr ++ tr')%list = sentCount tr + sentCount tr'.
Proof. unfold sentCount. now rewrite filter_app, length_app. Qed.

(** A loop that returns kept its invariant round by round; each round
    knows what came before it and what is still to come. *)
Lemma probe_forEach_inr {A S} (body : S -> A -> M S)
    (I : list A -> S -> Trace -> Prop) (xs : list A) :
  (forall done x rest acc tr acc' tr',
      xs = (done ++ x :: rest)%list ->
      I done acc tr -> body acc x tr = (inr acc', tr') ->
      I (done ++ [x])%list acc' tr') ->
  forall acc tr acc' tr',
    I [] acc tr -> forEach xs body acc tr = (inr acc', tr') ->
    I xs acc' tr'.
Proof.
  intro Hstep.
  assert (Hgen : forall todo done acc tr acc' tr',
             xs = (done ++ todo)%list -> I done acc tr ->
             forEach todo body acc tr = (inr acc', tr') -> I xs acc' tr').
  { induction todo as [|x todo IH]; intros done acc tr acc' tr' Hxs HI Hrun.
    - apply probe_mret_inr in Hrun. destruct Hrun as [-> ->].
      rewrite app_nil_r in Hxs. now subst xs.
    - cbn [forEach] in Hrun. apply probe_mbind_inr in Hrun.
      destruct Hrun as (acc1 & tr1 & Hbody & Hrest).
      apply (IH (done ++ [x])%list acc1 tr1 acc' tr').
      + now rewrite <- app_assoc.
      + exact (Hstep done x todo acc tr acc1 tr1 Hxs HI Hbody).
      + exact Hrest. }
  intros acc tr acc' tr'. exact (Hgen xs [] acc tr acc' tr' eq_refl).
Qed.

Lemma probeKeeps_mret {A} (P : Event -> Prop) (a : A) :
  probeKeeps P (mret a).
Proof. intros tr r tr' H E. now injection E as _ <-. Qed.

Lemma probeKeeps_lift {A} (P : Event -> Prop) (x : Exn.result A) :
  probeKeeps P (lift x).
Proof. intros tr r tr' H E. now injection E as _ <-. Qed.

Lemma probeKeeps_emit (P : Event -> Prop) (e : Event) :
  P e -> probeKeeps P (emit e).
Proof.
  intros He tr r tr' H E. injection E as _ <-.
  apply Forall_app. split; [assumption|now constructor].
Qed.

Lemma probeKeeps_send (P : Event -> Prop) (net : Network)
    (request : Request) :
  (forall answer, P (Sent request answer)) ->
  probeKeeps P (sendRequest net request).
Proof.
  intros Hsend tr r tr' H E. unfold sendRequest in E.
  destruct (net (sentCount tr) request);
    injection E as _ <-; apply Forall_app; split; try assumption;
    constructor; auto.
Qed.

Lemma probeKeeps_mbind {A B} (P : Event -> Prop) (m : M A)
    (k : A -> M B) :
  probeKeeps P m -> (forall a, probeKeeps P (k a)) ->
  probeKeeps P (mbind m k).
Proof.
  intros Hm Hk tr r tr' H E. unfold mbind in E.
  destruct (m tr) as [[e|a] tr1] eqn:Em.
  - injection E as _ <-. exact (Hm tr _ tr1 H Em).
  - exact (Hk a tr1 r tr' (Hm tr _ tr1 H Em) E).
Qed.

Lemma probeKeeps_forEach {A S} (P : Event -> Prop) (xs : list A)
    (body : S -> A -> M S) :
  (forall acc x, probeKeeps P (body acc x)) ->
  forall acc, probeKeeps P (forEach xs body acc).
Proof.
  intro Hbody. induction xs as [|x xs IH]; intro acc; cbn [forEach].
  - apply probeKeeps_mret.
  - apply probeKeeps_mbind; [apply Hbody|exact IH].
Qed.

End ProbeLogic.

Section ProbeRun.
Import Probe SummaryReport.

Variable SNS_API_VERSION : string.

Lemma assign_app_last (actionName : string) (isSigned : bool)
    (r : ActionSummaryResult) (v : ActionSummary)
    (rs : list (string * ActionSummary)) :
  lookup actionName rs = None ->
  assign actionName isSigned r (rs ++ [(actionName, v)])%list
  = (rs ++ [(actionName, recorded (Some v) isSigned r)])%list.
Proof.
  induction rs as [|[k w] rs IH]; cbn [app lookup assign].
  - intros _. rewrite String.eqb_refl. unfold recorded.
    now destruct isSigned.
  - destruct (k =? actionName); [discriminate|].
    intro H. now rewrite (IH H).
Qed.

Lemma add_new (s : RunSummary) (actionName : string) (isSigned : bool)
    (r : ActionSummaryResult) :
  lookup actionName (results s) = None ->
  results (addActionResult s actionName isSigned r)
  = (results s ++ [(actionName, recorded None isSigned r)])%list.
Proof.
  intro E. unfold addActionResult. cbv zeta. cbn [results]. rewrite E.
  rewrite (assign_app_last _ _ _ _ _ E). unfold recorded.
  now destruct isSigned.
Qed.

Lemma add_last (s : RunSummary) (actionName : string) (isSigned : bool)
    (r : ActionSummaryResult) (v : ActionSummary)
    (rs : list (string * ActionSummary)) :
  results s = (rs ++ [(actionName, v)])%list ->
  lookup actionName rs = None ->
  results (addActionResult s actionName isSigned r)
  = (rs ++ [(actionName, recorded (Some v) isSigned r)])%list.
Proof.
  intros Hs E. unfold addActionResult. cbv zeta. cbn [results].
  rewrite Hs, (lookup_app_new _ v _ E). now apply assign_app_last.
Qed.

(** One action of the probe mode, when it returns, on a summary that has
    no entry of that name yet. *)
Lemma executeAction_inr (net : Network) (ctx : ExecuteContext)
    (s s' : RunSummary) (a : Actions.Action) (tr tr' : Trace) :
  executeAction net ctx s a tr = (inr s', tr') ->
  lookup (Actions.name a) (results s) = None ->
  exists entry,
    results s' = (results s ++ [(Actions.name a, entry)])%list
    /\ hasSigned entry = ctx_credentials ctx
    /\ credentialsAvailable s' = credentialsAvailable s
    /\ sentCount tr'
       = sentCount tr + (if ctx_credentials ctx then 2 else 1).
Proof.
  unfold executeAction. cbv zeta. intros H Hnew.
  apply probe_mbind_inr in H. destruct H as (p & t0 & H0 & H).
  apply probe_lift_inr in H0. destruct H0 as [_ ->].
  apply probe_mbind_inr in H. destruct H as (ru & t1 & H1 & H).
  apply probe_mbind_inr in H. destruct H as (u1 & t2 & H2 & H).
  apply probe_mbind_inr in H. destruct H as (u2 & t3 & H3 & H).
  apply probe_send_inr in H1. apply probe_emit_inr in H2, H3.
  pose proof (add_new s (Actions.name a) false (toSummaryResult ru) Hnew)
    as Hfirst.
  destruct (ctx_credentials ctx).
  - apply probe_mbind_inr in H. destruct H as (rs & t4 & H4 & H).
    apply probe_mbind_inr in H. destruct H as (u3 & t5 & H5 & H).
    apply probe_mbind_inr in H. destruct H as (u4 & t6 & H6 & H).
    apply probe_mret_inr in H. destruct H as [-> ->].
    apply probe_send_inr in H4. apply probe_emit_inr in H5, H6.
    eexists. split; [exact (add_last _ _ true _ _ _ Hfirst Hnew)|].
    split; [reflexivity|]. split; [reflexivity|].
    subst. rewrite !probe_sentCount_app. cbn. lia.
  - apply probe_mret_inr in H. destruct H as [-> ->].
    eexists. split; [exact Hfirst|].
    split; [reflexivity|]. split; [reflexivity|].
    subst. rewrite !probe_sentCount_app. cbn. lia.
Qed.

Lemma probedSoFar_step (net : Network) (ctx : ExecuteContext)
    (sentBefore : nat) (actions done rest : list Actions.Action)
    (a : Actions.Action) (s s' : RunSummary) (tr tr' : Trace) :
  NoDup (map Actions.name actions) ->
  actions = (done ++ a :: rest)%list ->
  probedSoFar (ctx_credentials ctx) sentBefore done s tr ->
  executeAction net ctx s a tr = (inr s', tr') ->
  probedSoFar (ctx_credentials ctx) sentBefore (done ++ [a])%list s' tr'.
Proof.
  intros Hnodup Hsplit (Hkeys & Hsigned & Hcreds & Hsent) Hrun.
  assert (Hnew : lookup (Actions.name a) (results s) = None).
  { apply lookup_None. rewrite Hkeys. subst actions.
    rewrite map_app in Hnodup. cbn [map] in Hnodup.
    apply NoDup_remove_2 in Hnodup. intro Hin. apply Hnodup.
    apply in_or_app. now left. }
  destruct (executeAction_inr net ctx s s' a tr tr' Hrun Hnew)
    as (entry & Hres & Hentry & Hc & Hs).
  unfold probedSoFar.
  rewrite Hres, !map_app, Hkeys, Hc, Hcreds, Hs, Hsent, length_app.
  cbn [map fst snd length].
  repeat split.
  - apply Forall_app. split; [assumption|now constructor].
  - destruct (ctx_credentials ctx); lia.
Qed.

(** Filtering the catalog keeps the names apart. *)
Lemma filtered_names_distinct (keep : Actions.Action -> bool)
    (actions : list Actions.Action) :
  NoDup (map Actions.name actions) ->
  NoDup (map Actions.name (filter keep actions)).
Proof.
  induction actions as [|a actions IH]; cbn [map filter]; [trivial|].
  intro H. apply NoDup_cons_iff in H. destruct H as [Hfresh Hrest].
  destruct (keep a); [|exact (IH Hrest)].
  cbn [map]. apply NoDup_cons; [|exact (IH Hrest)].
  intro Hin. apply Hfresh. apply in_map_iff in Hin.
  destruct Hin as (b & Hname & Hb). apply filter_In in Hb.
  apply in_map_iff. exists b. tauto.
Qed.

(** No two actions of a mode share a name, and no name is a member that
    objects inherit: each action has an entry of its own in the
    summary. *)
Lemma mode_names_distinct (mode : Actions.Mode) :
  NoDup (map Actions.name (Actions.getActionsByMode SNS_API_VERSION mode))
  /\ Forall (fun a => ~ In (Actions.name a) inheritedMembers)
       (Actions.getActionsByMode SNS_API_VERSION mode).
Proof.
  assert (Hall : NoDup (map Actions.name
                          (Actions.ALL_ACTIONS SNS_API_VERSION)))
    by (apply distinct_NoDup; reflexivity).
  assert (Hown : Forall (fun a => ~ In (Actions.name a) inheritedMembers)
                   (Actions.ALL_ACTIONS SNS_API_VERSION)).
  { unfold Actions.ALL_ACTIONS.
    repeat (apply Forall_cons;
            [cbn [In inheritedMembers]; intro H;
             repeat (destruct H as [H|H]; [discriminate H|]); exact H|]).
    constructor. }
  unfold Actions.getActionsByMode. destruct mode; split;
    try assumption; try (now apply filtered_names_distinct);
    apply Forall_forall; intros a Ha; apply filter_In in Ha;
    rewrite Forall_forall in Hown; apply Hown; tauto.
Qed.

Lemma run_inr (env : Env) (options : Runner.CliOptions) (tr : Trace)
    (r : RunnerResult) :
  run SNS_API_VERSION env options [] = (inr r, tr) ->
  exists s,
    Probe.summary r = calculateSummaryTotals s
    /\ probedSoFar (verifiedCredentials env) 0
         (Actions.getActionsByMode SNS_API_VERSION (Runner.mode options))
         s tr.
Proof.
  unfold run. cbv zeta. fold (verifiedCredentials env). intro H.
  apply probe_mbind_inr in H. destruct H as (region & t1 & H1 & H).
  assert (t1 = []) as ->.
  { destruct (Js.truthy (Runner.optRegion options)).
    - apply probe_mret_inr in H1. now destruct H1.
    - apply probe_lift_inr in H1. now destruct H1. }
  apply probe_mbind_inr in H. destruct H as (u1 & t2 & H2 & H).
  apply probe_emit_inr in H2.
  apply probe_mbind_inr in H. destruct H as (s & t3 & Hloop & H).
  apply probe_mbind_inr in H. destruct H as (u2 & t4 & H4 & H).
  apply probe_emit_inr in H4.
  apply probe_mret_inr in H. destruct H as [-> ->].
  exists s. split; [reflexivity|].
  destruct (mode_names_distinct (Runner.mode options)) as [Hnodup _].
  match type of Hloop with
  | forEach ?xs (executeAction ?n ?c) ?s0 _ = _ =>
      pose proof (probe_forEach_inr (executeAction n c)
                    (probedSoFar (verifiedCredentials env) 0) xs
                    (fun done a rest acc0 tr0 acc0' tr0' Hsplit HI Hr =>
                       probedSoFar_step n c 0 xs done rest a acc0 acc0'
                         tr0 tr0' Hnodup Hsplit HI Hr)
                    s0 t2 s t3) as Hinv
  end.
  assert (Hstart : probedSoFar (verifiedCredentials env) 0 []
                     (createEmptySummary (now env) (Runner.topicArn options)
                        region (Runner.mode options)
                        (verifiedCredentials env)) t2).
  { subst t2. unfold probedSoFar. cbn. repeat split; [constructor|lia]. }
  destruct (Hinv Hstart Hloop) as (Hk & Hsg & Hc & Hs).
  unfold probedSoFar. subst t4. rewrite probe_sentCount_app.
  cbn [sentCount filter isSent length app].
  repeat split; try assumption. lia.
Qed.

(** The summary of a finished probe adds up.  It has one entry per action
    of the chosen mode, under the action's name and in catalog order;
    every entry is an unsigned success or an unsigned failure; with
    verified credentials every entry has a signed result too and the run
    sent two requests per action; without them no entry has one, both
    signed counts are zero and the run sent one request per action.  (The
    request that verifies the credentials is not one of them; its outcome
    is part of the environment.) *)
Theorem probe_summary_adds_up (env : Env) (options : Runner.CliOptions)
    (tr : Trace) (r : RunnerResult)
    (Hrun : run SNS_API_VERSION env options [] = (inr r, tr)) :
  map fst (results (Probe.summary r))
  = map Actions.name
      (Actions.getActionsByMode SNS_API_VERSION (Runner.mode options))
  /\ total (SummaryReport.summary (Probe.summary r))
     = length (Actions.getActionsByMode SNS_API_VERSION
                 (Runner.mode options))
  /\ succeeded (unsignedCounts (SummaryReport.summary (Probe.summary r)))
     + failed (unsignedCounts (SummaryReport.summary (Probe.summary r)))
     = total (SummaryReport.summary (Probe.summary r))
  /\ credentialsAvailable (Probe.summary r) = verifiedCredentials env
  /\ succeeded (signedCounts (SummaryReport.summary (Probe.summary r)))
     + failed (signedCounts (SummaryReport.summary (Probe.summary r)))
     = (if verifiedCredentials env
        then total (SummaryReport.summary (Probe.summary r)) else 0)
  /\ sentCount tr
     = (if verifiedCredentials env then 2 else 1)
       * total (SummaryReport.summary (Probe.summary r)).
Proof.
  apply run_inr in Hrun. destruct Hrun as (s & -> & Hk & Hsg & Hc & Hs).
  unfold calculateSummaryTotals. cbv zeta.
  cbn [results SummaryReport.summary total unsignedCounts signedCounts
         succeeded failed credentialsAvailable].
  rewrite filter_split, signed_split, !length_map.
  assert (Hlen : length (results s)
                 = length (Actions.getActionsByMode SNS_API_VERSION
                             (Runner.mode options))).
  { rewrite <- (length_map fst), Hk. apply length_map. }
  assert (Hcount : length (filter hasSigned (map snd (results s)))
                   = if verifiedCredentials env
                     then length (results s) else 0).
  { rewrite <- (length_map snd (results s)).
    induction (map snd (results s)) as [|e l IH]; cbn [filter length].
    - now destruct (verifiedCredentials env).
    - inversion Hsg as [|? ? He Hl]; subst. rewrite He.
      destruct (verifiedCredentials env); cbn [length]; rewrite (IH Hl);
        reflexivity. }
  rewrite Hcount, Hlen in *.
  repeat split; try assumption; try (rewrite Hs; reflexivity).
Qed.

Lemma probeKeeps_executeAction (net : Network) (ctx : ExecuteContext)
    (s : RunSummary) (a : Actions.Action) :
  ctx_credentials ctx = false ->
  probeKeeps unsignedOnly (executeAction net ctx s a).
Proof.
  intro Hc. unfold executeAction. cbv zeta. rewrite Hc.
  apply probeKeeps_mbind; [apply probeKeeps_lift|intro p].
  apply probeKeeps_mbind;
    [apply probeKeeps_send; intro; reflexivity|intro ru].
  apply probeKeeps_mbind; [now apply probeKeeps_emit|intros _].
  apply probeKeeps_mbind; [now apply probeKeeps_emit|intros _].
  apply probeKeeps_mret.
Qed.

(** Credentials that did not verify sign no action.  When no credentials
    load, or their verification fails or yields no identity, then
    whatever the network answers and however the run ends, every request
    the run sends for an action is unsigned: after the verification
    request itself, the credentials are not used again. *)
Theorem unverified_credentials_never_sign (env : Env)
    (options : Runner.CliOptions)
    (outcome : Exn.result RunnerResult) (tr : Trace)
    (request : Request) (answer : option Runner.HttpResponse)
    (Hunverified : verifiedCredentials env = false)
    (Hrun : run SNS_API_VERSION env options [] = (outcome, tr))
    (Hsent : In (Sent request answer) tr) :
  Probe.signed request = false.
Proof.
  assert (Hkeeps : probeKeeps unsignedOnly
                     (run SNS_API_VERSION env options)).
  { unfold run. cbv zeta. fold (verifiedCredentials env).
    rewrite Hunverified.
    apply probeKeeps_mbind.
    { destruct (Js.truthy _);
        [apply probeKeeps_mret|apply probeKeeps_lift]. }
    intro region.
    apply probeKeeps_mbind; [now apply probeKeeps_emit|intros _].
    apply probeKeeps_mbind.
    { apply probeKeeps_forEach. intros s a.
      now apply probeKeeps_executeAction. }
    intro s.
    apply probeKeeps_mbind; [now apply probeKeeps_emit|intros _].
    apply probeKeeps_mret. }
  pose proof (Hkeeps [] outcome tr (Forall_nil _) Hrun) as H.
  rewrite Forall_forall in H. exact (H _ Hsent).
Qed.

End ProbeRun.

Section ProbeExamples.
Import Probe.

Lemma probe_summary_adds_up_witness :
  SummaryReport.summary
    (summary (returned no_probe_run sample_probe_run))
  = {| SummaryReport.total := 4;
       SummaryReport.unsignedCounts :=
         {| SummaryReport.succeeded := 0; SummaryReport.failed := 4 |};
       SummaryReport.signedCounts :=
         {| SummaryReport.succeeded := 4; SummaryReport.failed := 0 |} |}
  /\ sentCount (snd sample_probe_run)
     = (if verifiedCredentials (probe_env true signature_service)
        then 2 else 1)
       * SummaryReport.total
           (SummaryReport.summary
              (summary (returned no_probe_run sample_probe_run))).
Proof.
  split; [vm_compute; reflexivity|].
  refine (proj2 (proj2 (proj2 (proj2 (proj2
            (probe_summary_adds_up "2010-03-31"
               (probe_env true signature_service) sample_options _ _ _)))))).
  vm_compute. reflexivity.
Defined.

Lemma unverified_credentials_never_sign_witness :
  Probe.signed
    {| Probe.signed := false;
       endpoint := "https://sns.us-east-1.amazonaws.com";
       params :=
         [ ("Action", "GetTopicAttributes");
           ("TopicArn", "arn:aws:sns:us-east-1:123456789012:allowed");
           ("Version", "2010-03-31") ];
       region := "us-east-1" |}
  = false.
Proof.
  eapply (unverified_credentials_never_sign "2010-03-31"
            (probe_env false signature_service) sample_options _ _ _
            (Some {| Runner.status := 403; Runner.statusText := "Forbidden";
                     Runner.body :=
                       "<ErrorResponse><Error><Type>Sender</Type><Code>MissingAuthenticationToken</Code></Error></ErrorResponse>" |})).
  - reflexivity.
  - lazy. reflexivity.
  - cbn [In]. right. left. reflexivity.
Defined.

End ProbeExamples.

(** ** The session-errors mode: one topic *)

Section SessionTopic.
Import Runner PolicyClassifier SessionErrors.

Lemma classifiedCount_snoc (c : PolicyClassification)
    (results : list ActionSafeModeResult) (r : ActionSafeModeResult) :
  classifiedCount c (results ++ [r])%list
  = classifiedCount c results + classifiedCount c [r].
Proof. unfold classifiedCount. now rewrite filter_app, length_app. Qed.

Lemma classifiedCount_total (results : list ActionSafeModeResult) :
  classifiedCount Public results + classifiedCount PrivateDeny results
  + classifiedCount PrivateNoPolicy results + classifiedCount Unknown results
  = length results.
Proof.
  unfold classifiedCount.
  induction results as [|r results IH]; cbn [filter length]; [reflexivity|].
  destruct (classification r); cbn [length]; lia.
Qed.

Lemma topicRound_inr (net : Network) (topicArn region endpoint : string)
    (tally tally' : Tally) (a : Actions.Action) (tr tr' : Trace) :
  topicRound net topicArn region endpoint tally a tr = (inr tally', tr') ->
  exists r,
    action r = Actions.name a
    /\ classifiedByMessage r
    /\ tally' = push r (count (classification r) tally)
    /\ sentCount tr' = sentCount tr + 1.
Proof.
  unfold topicRound. cbv zeta. intro H.
  apply mbind_inr in H. destruct H as (p & t0 & H0 & H).
  apply lift_inr in H0. destruct H0 as [_ ->].
  apply mbind_inr in H. destruct H as (response & t1 & H1 & H).
  apply mbind_inr in H. destruct H as (u & t2 & H2 & H).
  apply mret_inr in H. destruct H as [-> ->].
  apply send_inr in H1. apply emit_inr in H2.
  match goal with
  | |- context [push ?x (count _ tally)] => exists x
  end.
  split; [reflexivity|]. split; [|split; [reflexivity|]].
  - unfold classifiedByMessage. cbn [errorMessage classification
      SessionErrors.reason]. cbv zeta.
    destruct (Js.show (Js.or_else
                (Summary.message (Summary.parseErrorDetails (body response)))
                (Some "")) =? "") eqn:E; [|now split].
    apply String.eqb_eq in E. rewrite E. now split.
  - subst. rewrite !sentCount_app. cbn. lia.
Qed.

Lemma talliedSoFar_step (net : Network) (topicArn region endpoint : string)
    (sentBefore : nat) (done : list Actions.Action) (tally tally' : Tally)
    (a : Actions.Action) (tr tr' : Trace) :
  talliedSoFar sentBefore done tally tr ->
  topicRound net topicArn region endpoint tally a tr = (inr tally', tr') ->
  talliedSoFar sentBefore (done ++ [a])%list tally' tr'.
Proof.
  intros (Hn & Hc & Hp & Hd & Hnp & Hu & Hs) Hround.
  apply topicRound_inr in Hround.
  destruct Hround as (r & Ha & Hr & -> & Hsent).
  unfold talliedSoFar.
  assert (Hresults :
            actionResults (push r (count (classification r) tally))
            = (actionResults tally ++ [r])%list)
    by (now destruct (classification r)).
  rewrite Hresults, !map_app, !classifiedCount_snoc, length_app, Hn, Hsent,
    Hs.
  cbn [map length]. rewrite Ha.
  split; [reflexivity|].
  split; [apply Forall_app; split; [assumption|now constructor]|].
  unfold classifiedCount at 2 4 6 8. cbn [filter].
  destruct (classification r);
    cbn [push count publicCount privateDenyCount privateNoPolicyCount
           unknownCount length];
    rewrite ?Hp, ?Hd, ?Hnp, ?Hu; repeat split; lia.
Qed.

(** The summary of a tested topic adds up.  The run has one result per
    action, in order, after one request each; each result's
    classification and reason are the classifier's on that result's own
    error message; each of the four counts is the number of results of
    its class; and the four counts add up to [total]. *)
Theorem topic_summary_adds_up (net : Network) (topicArn : string)
    (actions : list Actions.Action) (tr : Trace)
    (result : TopicSafeModeResult)
    (Hrun : testTopic net topicArn actions [] = (inr result, tr)) :
  map action (SessionErrors.actions result) = map Actions.name actions
  /\ Forall classifiedByMessage (SessionErrors.actions result)
  /\ public (summary result)
     = classifiedCount Public (SessionErrors.actions result)
  /\ privateDeny (summary result)
     = classifiedCount PrivateDeny (SessionErrors.actions result)
  /\ privateNoPolicy (summary result)
     = classifiedCount PrivateNoPolicy (SessionErrors.actions result)
  /\ unknown (summary result)
     = classifiedCount Unknown (SessionErrors.actions result)
  /\ public (summary result) + privateDeny (summary result)
     + privateNoPolicy (summary result) + unknown (summary result)
     = total (summary result)
  /\ total (summary result) = length (SessionErrors.actions result)
  /\ sentCount tr = total (summary result).
Proof.
  unfold testTopic in Hrun. cbv zeta in Hrun.
  apply mbind_inr in Hrun. destruct Hrun as (region & t0 & H0 & H).
  apply lift_inr in H0. destruct H0 as [_ ->].
  apply mbind_inr in H. destruct H as (tally & t1 & Hloop & H).
  apply mret_inr in H. destruct H as [-> ->].
  cbn [SessionErrors.actions summary total public privateDeny
         privateNoPolicy unknown].
  match type of Hloop with
  | forEach ?xs (topicRound ?n ?t ?r ?e) ?s0 _ = _ =>
      pose proof (forEach_inr (topicRound n t r e) (talliedSoFar 0) xs
                    (fun done a acc0 tr0 acc0' tr0' _ HI Hr =>
                       talliedSoFar_step n t r e 0 done acc0 acc0' a tr0
                         tr0' HI Hr)
                    [] s0 [] tally t1) as Hinv
  end.
  cbn [app] in Hinv.
  destruct Hinv as (Hn & Hc & Hp & Hd & Hnp & Hu & Hs); [|exact Hloop|].
  { unfold talliedSoFar. cbn. repeat split. constructor. }
  assert (Hlen : length (actionResults tally) = length actions).
  { rewrite <- (length_map action), Hn. apply length_map. }
  pose proof (classifiedCount_total (actionResults tally)) as Htotal.
  repeat split; try assumption; lia.
Qed.

(** What the table of a topic shows.  An action is labelled PUBLIC exactly
    when its denial message mentions an identity-based policy or a session
    policy, whatever else it mentions; PRIVATE exactly when it mentions
    neither but an explicit deny in a resource-based policy or that no
    resource-based policy allows; and UNKNOWN otherwise. *)
Theorem label_by_phrases (message : string) :
  let label :=
    getClassificationLabel
      (PolicyClassifier.classification (classifyFromErrorMessage message)) in
  let blocked :=
    Js.includes message "identity-based policy"
    || Js.includes message "session policy" in
  let refused :=
    Js.includes message "explicit deny in a resource-based policy"
    || Js.includes message "no resource-based policy allows" in
  (label = "PUBLIC" <-> blocked = true)
  /\ (label = "PRIVATE" <-> blocked = false /\ refused = true)
  /\ (label = "UNKNOWN" <-> blocked = false /\ refused = false).
Proof.
  unfold classifyFromErrorMessage. cbv zeta.
  destruct (Js.includes message "identity-based policy"
            || Js.includes message "session policy");
    [|destruct (Js.includes message
                  "explicit deny in a resource-based policy");
      [|destruct (Js.includes message "no resource-based policy allows")]];
    cbn [PolicyClassifier.classification getClassificationLabel orb];
    repeat split; try discriminate; try reflexivity;
    intros [H1 H2]; discriminate.
Qed.

End SessionTopic.

Section SessionExamples.
Import Runner SessionErrors.

Lemma topic_summary_adds_up_witness :
  summary (returned no_topic sample_topic)
  = {| total := 4; public := 1; privateDeny := 0; privateNoPolicy := 3;
       unknown := 0 |}
  /\ sentCount (snd sample_topic)
     = total (summary (returned no_topic sample_topic)).
Proof.
  split; [vm_compute; reflexivity|].
  refine (proj2 (proj2 (proj2 (proj2 (proj2 (proj2 (proj2 (proj2
            (topic_summary_adds_up session_service
               "arn:aws:sns:us-east-1:123456789012:allowed"
               (Actions.getActionsByMode "2010-03-31" Actions.ModeRead)
               _ _ _))))))))).
  vm_compute. reflexivity.
Defined.

End SessionExamples.

(** ** The command line *)

Section CommandLine.
Import Cli.

Lemma truthy_Some (o : option string) :
  Js.truthy o = true -> exists s, o = Some s /\ s <> "".
Proof.
  destruct o as [s|]; cbn [Js.truthy]; [|discriminate].
  intro H. exists s. split; [reflexivity|].
  apply negb_true_iff in H. now apply String.eqb_neq.
Qed.

Lemma show_or_else_truthy (a b : option string) (s : string) :
  a = Some s -> s <> "" ->
  Js.show (Js.or_else (Js.or_else a b) (Some "")) = s.
Proof.
  intros -> Hs. unfold Js.or_else. cbn [Js.truthy].
  apply String.eqb_neq in Hs. rewrite Hs. cbn [negb Js.truthy].
  now rewrite Hs.
Qed.

Lemma or_else_truthy (a b : option string) :
  Js.truthy a = true -> Js.or_else a b = a.
Proof. unfold Js.or_else. now intros ->. Qed.

Lemma or_else_None (b : option string) : Js.or_else None b = b.
Proof. reflexivity. Qed.

Ltac split_conditions :=
  repeat match goal with
    | H : (_ || _)%bool = false |- _ =>
        apply orb_false_elim in H; destruct H
    | H : negb _ = false |- _ => apply negb_false_iff in H
    | H : negb _ = true |- _ => apply negb_true_iff in H
    end.

Lemma parseOptions_inputs (opts : Opts) (args : list string)
    (options : CliOptions) :
  parseOptions opts args = inr options ->
  modeInputs options (dispatch options).
Proof.
  unfold parseOptions. cbv zeta.
  set (compareAllow := nth_error (arguments (opt_compare opts)) 0).
  set (compareDeny := nth_error (arguments (opt_compare opts)) 1).
  set (mutationAllow := nth_error (arguments (opt_requestMutations opts)) 0).
  set (mutationDeny := nth_error (arguments (opt_requestMutations opts)) 1).
  set (role := nth_error (arguments (opt_sessionErrors opts)) 0).
  set (topics := tl (arguments (opt_sessionErrors opts))).
  set (topic := nth_error args 0).
  clearbody compareAllow compareDeny mutationAllow mutationDeny role topics
    topic.
  destruct (isGiven (opt_compare opts));
    destruct (isGiven (opt_requestMutations opts));
    destruct (isGiven (opt_sessionErrors opts));
    cbn [andb negb];
    repeat match goal with
      | |- (if ?c then inl _ else _) = inr _ -> _ =>
          let E := fresh "E" in destruct c eqn:E; [discriminate|]
      end;
    intros [= <-]; unfold dispatch;
    cbn [sessionErrorsRoleArn requestMutations compare topicArn
           allowTopicArn sessionErrorsTopics];
    rewrite ?andb_true_r in *; split_conditions;
    repeat match goal with
      | H : Js.truthy ?o = true |- _ =>
          rewrite ?H; rewrite ?(or_else_truthy o _ H);
          let s := fresh "s" in
          let Hs := fresh "Hs" in
          destruct (truthy_Some o H) as (s & -> & Hs); clear H
      end;
    cbn [Js.truthy Js.show modeInputs];
    cbn [sessionErrorsRoleArn requestMutations compare topicArn
           allowTopicArn sessionErrorsTopics];
    rewrite ?or_else_None.
  (* session errors *)
  all: try (eexists; eexists; repeat split; try eassumption;
            try reflexivity;
            match goal with
            | H : (length ?l =? 0)%nat = false |- ?l <> [] =>
                intro Hnil; rewrite Hnil in H; discriminate H
            end).
  (* the two topics of the compare and request-mutations modes *)
  all: try (eexists; repeat split; try eassumption; reflexivity).
  (* the standard mode *)
  all: try (repeat split; try reflexivity; assumption).
Qed.

(** Every mode is entered with the inputs it needs.  When [parseOptions]
    returns instead of leaving the program, the mode that [main] picks
    finds its inputs in the options: the session-errors mode a role ARN
    and at least one topic, the request-mutations and compare modes two
    topic ARNs, both non-empty, the allowed one as [topicArn] and the
    denied one as [compare], and the standard mode a non-empty topic ARN
    and no comparison topic.  So the runners' own test for a missing
    [--compare] topic never fires on options that came through [main]. *)
Theorem modes_are_entered_with_their_inputs (opts : Opts)
    (args : list string) (options : CliOptions)
    (Hparsed : parseOptions opts args = inr options) :
  modeInputs options (dispatch options)
  /\ (dispatch options = RunRequestMutations
      \/ dispatch options = RunMutations ->
      Js.truthy (Runner.compare (runnerOptions options)) = true).
Proof.
  pose proof (parseOptions_inputs opts args options Hparsed) as H.
  split; [exact H|].
  intros [E|E]; rewrite E in H; destruct H as (denied & _ & _ & Hc & Hd);
    cbn [runnerOptions Runner.compare]; rewrite Hc; cbn [Js.truthy];
    apply negb_true_iff; now apply String.eqb_neq.
Qed.

Lemma modes_are_entered_with_their_inputs_witness :
  modeInputs sample_cli_options RunRequestMutations
  /\ (dispatch sample_cli_options = RunRequestMutations
      \/ dispatch sample_cli_options = RunMutations ->
      Js.truthy (Runner.compare (runnerOptions sample_cli_options)) = true).
Proof.
  exact (modes_are_entered_with_their_inputs sample_opts []
           sample_cli_options eq_refl).
Defined.

End CommandLine.

